(** * TutorSense analytics core: a shallow embedding and its properties

    The scoring pipeline ([scripts/score_tutors.ts]) and the insight modules
    ([lib/ai/*.ts]) are embedded function by function.  An ECMAScript
    [number] is an IEEE 754 binary64 value, so it is modelled by Rocq's
    primitive [float]; [null] is [None]; an object used as a dictionary
    ([Record<string, number>]) is an association list read with [get]. *)

From Stdlib Require Import Floats ZArith Lia List Bool String.
From Stdlib Require Import Sorted Permutation.
Import ListNotations.

Set Warnings "-inexact-float".

Open Scope float_scope.

(** ** ECMAScript built-ins used by the sources *)

Module JS.

Definition number := float.

(** [a ?? b] on a nullable value. *)
Definition nullish {A : Type} (x : option A) (d : A) : A :=
  match x with
  | Some v => v
  | None => d
  end.

(** [Number.isFinite]. *)
Definition Number_isFinite (x : number) : bool := is_finite x.

(** [Number.isNaN]. *)
Definition Number_isNaN (x : number) : bool := is_nan x.

(** The sign test that tells [-0] from [+0]. *)
Definition is_neg_zero (x : number) : bool := (x =? 0) && (1 / x <? 0).

(** [Math.max(a, b)]: NaN if either is NaN, and [+0] above [-0]. *)
Definition Math_max (a b : number) : number :=
  if is_nan a || is_nan b then nan
  else if a <? b then b
  else if b <? a then a
  else if is_neg_zero a then b else a.

(** [Math.min(a, b)]: NaN if either is NaN, and [-0] below [+0]. *)
Definition Math_min (a b : number) : number :=
  if is_nan a || is_nan b then nan
  else if a <? b then a
  else if b <? a then b
  else if is_neg_zero a then a else b.

Definition Math_abs (x : number) : number := abs x.

Definition Math_sqrt (x : number) : number := sqrt x.

(** The number whose value is the integer [n]; a zero takes the sign [s]. *)
Definition of_integer (s : bool) (n : Z) : number :=
  SF2Prim (binary_normalize prec emax n 0 s).

(** The length of an array, as a number. *)
Definition of_nat (n : nat) : number := of_integer false (Z.of_nat n).

(** [floor(x + 1/2)] for [x = (-1)^s * m * 2^e] with [e < 0], computed
    exactly over the integers. *)
Definition round_half_up (s : bool) (m : positive) (e : Z) : Z :=
  let k := (- e)%Z in
  ((2 * cond_Zopp s (Z.pos m) + 2 ^ k) / 2 ^ (k + 1))%Z.

(** [Math.round]: the integer nearest to [x], ties towards +infinity;
    NaN, the infinities, the zeros and the integral values are returned
    as they are, and a result of zero keeps the sign of [x]. *)
Definition Math_round (x : number) : number :=
  match Prim2SF x with
  | S754_finite s m e =>
      if (0 <=? e)%Z then x else of_integer s (round_half_up s m e)
  | _ => x
  end.

(** [Number.isInteger]. *)
Definition Number_isInteger (x : number) : bool :=
  match Prim2SF x with
  | S754_zero _ => true
  | S754_finite _ m e => (0 <=? e)%Z || (Z.pos m mod 2 ^ (- e) =? 0)%Z
  | _ => false
  end.

(** The truthiness of a number: [0], [-0] and NaN are falsy. *)
Definition truthy (x : number) : bool := negb (x =? 0) && negb (is_nan x).

(** [a || b] on numbers. *)
Definition or_else (a b : number) : number := if truthy a then a else b.

(** [array.reduce((sum, value) => sum + f(value), 0)]. *)
Definition sum_by {A : Type} (f : A -> number) (l : list A) : number :=
  fold_left (fun acc v => acc + f v) l 0.

(** [array.slice(start, end)]. *)
Definition slice {A : Type} (l : list A) (start stop : nat) : list A :=
  firstn (stop - start) (skipn start l).

(** An optional property of an object: left out, present with the value
    [undefined], or present with a value. *)
Inductive Optional (A : Type) : Type :=
| absent
| undefined
| given (value : A).

Arguments absent {A}.
Arguments undefined {A}.
Arguments given {A} value.

End JS.

Import JS.

Notation "x ?? d" := (nullish x d) (at level 45, left associativity).

(** ** Dictionaries: objects and [Map]s keyed by strings

    Keys are kept in insertion order, as ECMAScript keeps them.  The
    entries of a dictionary are the own entries of the object.  For a
    [Map] that is all there is.  A plain object inherits the members of
    [Object.prototype]: its reads and writes are those of [get] and [set]
    for every key that [ownKey] admits.  The keys that the sources
    themselves write, those of [FEATURE_KEYS] among them, are of that
    kind. *)

Module Dict.

Definition t (V : Type) := list (string * V).

(** The names of the members of [Object.prototype].  A plain object that
    holds no entry of its own under such a name answers a read with the
    inherited member, and an assignment of a number to [__proto__] stores
    nothing. *)
Definition OBJECT_PROTOTYPE : list string :=
  [ "constructor"; "__defineGetter__"; "__defineSetter__"; "hasOwnProperty";
    "__lookupGetter__"; "__lookupSetter__"; "isPrototypeOf";
    "propertyIsEnumerable"; "toString"; "valueOf"; "__proto__";
    "toLocaleString" ]%string.

(** A key that names no member of [Object.prototype]. *)
Definition ownKey (key : string) : bool :=
  negb (existsb (String.eqb key) OBJECT_PROTOTYPE).

Fixpoint get {V : Type} (d : t V) (key : string) : option V :=
  match d with
  | [] => None
  | (k, v) :: rest => if String.eqb k key then Some v else get rest key
  end.

(** [d[key] = v], or [map.set(key, v)]. *)
Fixpoint set {V : Type} (d : t V) (key : string) (v : V) : t V :=
  match d with
  | [] => [(key, v)]
  | (k, x) :: rest =>
      if String.eqb k key then (k, v) :: rest else (k, x) :: set rest key v
  end.

(** [Object.keys(d)]. *)
Definition keys {V : Type} (d : t V) : list string := map fst d.

(** [d[key]] read as a number in arithmetic: a missing property is
    [undefined], which arithmetic turns into NaN. *)
Definition index (d : t number) (key : string) : number :=
  match get d key with
  | Some v => v
  | None => nan
  end.

End Dict.

(** ** scripts/score_tutors.ts *)

Module ScoreTutors.

Inductive SessionStatus := completed | dropout | rescheduled.

Inductive RescheduleInitiator := tutor | student.

Record SessionRecord := {
  sessionId : string;
  tutorId : string;
  date : string;
  durationMinutes : number;
  rating : option number;
  status : SessionStatus;
  hasTechIssue : bool;
  isFirstSession : bool;
  rescheduleInitiator : option RescheduleInitiator;
  noShow : bool
}.

Record AggregatedMetrics := {
  avgRating : option number;
  dropoutRate : number;
  techIssueRate : number;
  rescheduleRate : number;
  sessionsCount : number;
  firstSessionAvgRating : option number;
  firstSessionDropoutRate : number;
  firstSessionCount : number;
  tutorInitiatedRescheduleRate : number;
  tutorInitiatedRescheduleCount : number;
  noShowRate : number;
  noShowCount : number
}.

Inductive ScoreFormulaVersion := v1 | v2.

(** The counters of the loop of [computeMetrics]. *)
Record Counters := {
  ratingSum : number;
  ratingCount : number;
  dropouts : number;
  techIssues : number;
  reschedules : number;
  tutorInitiatedReschedules : number;
  noShows : number;
  firstSessionRatingSum : number;
  firstSessionRatingCount : number;
  firstSessionDropouts : number;
  firstSessions : number
}.

Definition zeroCounters : Counters :=
  {| ratingSum := 0; ratingCount := 0; dropouts := 0; techIssues := 0;
     reschedules := 0; tutorInitiatedReschedules := 0; noShows := 0;
     firstSessionRatingSum := 0; firstSessionRatingCount := 0;
     firstSessionDropouts := 0; firstSessions := 0 |}.

Definition is_dropout (s : SessionStatus) : bool :=
  match s with dropout => true | _ => false end.

Definition is_rescheduled (s : SessionStatus) : bool :=
  match s with rescheduled => true | _ => false end.

Definition by_tutor (i : option RescheduleInitiator) : bool :=
  match i with Some tutor => true | _ => false end.

(** One iteration of [for (const session of sessions)]. *)
Definition countSession (c : Counters) (session : SessionRecord) : Counters :=
  let rated := match rating session with Some _ => true | None => false end in
  let r := rating session ?? 0 in
  let isDrop := is_dropout (status session) in
  let isResched := is_rescheduled (status session) in
  {| ratingSum := if rated then ratingSum c + r else ratingSum c;
     ratingCount := if rated then ratingCount c + 1 else ratingCount c;
     dropouts := if isDrop then dropouts c + 1 else dropouts c;
     techIssues :=
       if hasTechIssue session then techIssues c + 1 else techIssues c;
     reschedules := if isResched then reschedules c + 1 else reschedules c;
     tutorInitiatedReschedules :=
       if isResched && by_tutor (rescheduleInitiator session)
       then tutorInitiatedReschedules c + 1
       else tutorInitiatedReschedules c;
     noShows := if noShow session then noShows c + 1 else noShows c;
     firstSessionRatingSum :=
       if isFirstSession session && rated
       then firstSessionRatingSum c + r
       else firstSessionRatingSum c;
     firstSessionRatingCount :=
       if isFirstSession session && rated
       then firstSessionRatingCount c + 1
       else firstSessionRatingCount c;
     firstSessionDropouts :=
       if isDrop && isFirstSession session
       then firstSessionDropouts c + 1
       else firstSessionDropouts c;
     firstSessions :=
       if isFirstSession session then firstSessions c + 1 else firstSessions c
  |}.

Definition zeroMetrics : AggregatedMetrics :=
  {| avgRating := None; dropoutRate := 0; techIssueRate := 0;
     rescheduleRate := 0; sessionsCount := 0; firstSessionAvgRating := None;
     firstSessionDropoutRate := 0; firstSessionCount := 0;
     tutorInitiatedRescheduleRate := 0; tutorInitiatedRescheduleCount := 0;
     noShowRate := 0; noShowCount := 0 |}.

Definition computeMetrics (sessions : list SessionRecord) : AggregatedMetrics :=
  match sessions with
  | [] => zeroMetrics
  | _ =>
      let c := fold_left countSession sessions zeroCounters in
      let total := of_nat (List.length sessions) in
      {| avgRating :=
           if 0 <? ratingCount c then Some (ratingSum c / ratingCount c)
           else None;
         dropoutRate := if 0 <? total then dropouts c / total else 0;
         techIssueRate := if 0 <? total then techIssues c / total else 0;
         rescheduleRate := if 0 <? total then reschedules c / total else 0;
         sessionsCount := total;
         firstSessionAvgRating :=
           if 0 <? firstSessionRatingCount c
           then Some (firstSessionRatingSum c / firstSessionRatingCount c)
           else None;
         firstSessionDropoutRate :=
           if 0 <? firstSessions c
           then firstSessionDropouts c / firstSessions c else 0;
         firstSessionCount := firstSessions c;
         tutorInitiatedRescheduleRate :=
           if 0 <? reschedules c
           then tutorInitiatedReschedules c / reschedules c else 0;
         tutorInitiatedRescheduleCount := tutorInitiatedReschedules c;
         noShowRate := if 0 <? total then noShows c / total else 0;
         noShowCount := noShows c |}
  end.

Definition clampScore (value : number) : number :=
  if negb (Number_isFinite value) then 0
  else if value <? 0 then 0
  else if 100 <? value then 100
  else value.

Definition clamp01 (value : number) : number :=
  if negb (Number_isFinite value) then 0
  else if value <? 0 then 0
  else if 1 <? value then 1
  else value.

Definition computeScoreV1 (metrics : AggregatedMetrics) : number :=
  let ratingForPenalty := avgRating metrics ?? 5 in
  let rawScore :=
    100 -
    (dropoutRate metrics * 40 +
     techIssueRate metrics * 30 +
     rescheduleRate metrics * 20 +
     (5 - ratingForPenalty) * 10) in
  clampScore (Math_round rawScore).

Definition computeScoreV2 (metrics : AggregatedMetrics) : number :=
  let avgRating' := avgRating metrics ?? 5 in
  let firstSessionRating :=
    firstSessionAvgRating metrics ?? (avgRating metrics ?? 5) in
  let dropoutPenalty := dropoutRate metrics * 30 in
  let firstSessionDropoutPenalty :=
    (if 0 <? firstSessionCount metrics then 35 else 20)
    * firstSessionDropoutRate metrics in
  let techPenalty := techIssueRate metrics * 18 in
  let reschedulePenalty := rescheduleRate metrics * 12 in
  let tutorReschedulePenalty := tutorInitiatedRescheduleRate metrics * 20 in
  let noShowPenalty := noShowRate metrics * 28 in
  let ratingPenalty := (5 - avgRating') * 12 in
  let firstSessionRatingPenalty :=
    Math_max 0 (4.5 - firstSessionRating) * 8 in
  let volumePenalty :=
    if sessionsCount metrics <? 5 then 4
    else if sessionsCount metrics <? 10 then 2 else 0 in
  let penaltySum :=
    dropoutPenalty +
    firstSessionDropoutPenalty +
    techPenalty +
    reschedulePenalty +
    tutorReschedulePenalty +
    noShowPenalty +
    ratingPenalty +
    firstSessionRatingPenalty +
    volumePenalty in
  let rawScore := 100 - penaltySum in
  clampScore (Math_round rawScore).

Definition computeScore (metrics : AggregatedMetrics)
    (version : ScoreFormulaVersion) : number :=
  match version with
  | v1 => computeScoreV1 metrics
  | v2 => computeScoreV2 metrics
  end.

(** [trend[trend.length - 1]] and [trend[0]] of a non-empty array. *)
Definition lastOf (trend : list number) : number := last trend nan.

Definition firstOf (trend : list number) : number := hd nan trend.

Definition computeChurnRisk (metrics : AggregatedMetrics) (score : number)
    (trend : list number) : number :=
  let risk :=
    dropoutRate metrics * 0.4 +
    noShowRate metrics * 0.3 +
    tutorInitiatedRescheduleRate metrics * 0.2 +
    firstSessionDropoutRate metrics * 0.1 in
  let risk :=
    match firstSessionAvgRating metrics with
    | Some r => if r <? 3.0 then risk + 0.05 else risk
    | None => risk
    end in
  let risk :=
    if score <? 50 then risk + 0.12
    else if score <? 60 then risk + 0.08
    else if score <? 70 then risk + 0.04
    else risk in
  let risk :=
    if (2 <=? List.length trend)%nat then
      let trendDelta := lastOf trend - firstOf trend in
      if trendDelta <? -15 then risk + 0.07
      else if trendDelta <? -8 then risk + 0.04
      else if 5 <? trendDelta then risk - 0.03
      else risk
    else risk in
  clamp01 risk.

(** The body of the loop of [smoothTrend] at index [i]. *)
Definition smoothAt (trend : list number) (halfWindow i : nat) : number :=
  let start := (i - halfWindow)%nat in
  let stop := Nat.min (List.length trend) (i + halfWindow + 1) in
  let window := slice trend start stop in
  let sum := sum_by (fun val => val) window in
  let avg := sum / of_nat (List.length window) in
  Math_round avg.

Definition smoothTrend (trend : list number) (windowSize : nat)
    : list number :=
  match trend with
  | [] => []
  | [_] => trend
  | _ =>
      let halfWindow := (windowSize / 2)%nat in
      map (smoothAt trend halfWindow) (seq 0 (List.length trend))
  end.

(** The loop that fills [sessionsByDay]. *)
Definition groupSession (sessionsByDay : Dict.t (list SessionRecord))
    (session : SessionRecord) : Dict.t (list SessionRecord) :=
  match Dict.get sessionsByDay (date session) with
  | Some list => Dict.set sessionsByDay (date session) (list ++ [session])
  | None => Dict.set sessionsByDay (date session) [session]
  end.

(** One iteration of [for (const date of dates)]: the state is the trend
    built so far and [lastScore]. *)
Definition trendStep (formulaVersion : ScoreFormulaVersion)
    (sessionsByDay : Dict.t (list SessionRecord))
    (st : list number * number) (d : string) : list number * number :=
  let '(trend, lastScore) := st in
  match Dict.get sessionsByDay d with
  | Some ((_ :: _) as dailySessions) =>
      let metrics := computeMetrics dailySessions in
      let score := computeScore metrics formulaVersion in
      (trend ++ [score], score)
  | _ => (trend ++ [lastScore], lastScore)
  end.

(** The daily sequence of [buildTrendForTutor] before smoothing. *)
Definition rawTrend (sessions : list SessionRecord) (dates : list string)
    (fallbackScore : number) (formulaVersion : ScoreFormulaVersion)
    : list number :=
  let sessionsByDay := fold_left groupSession sessions [] in
  fst (fold_left (trendStep formulaVersion sessionsByDay) dates
         ([], fallbackScore)).

Definition buildTrendForTutor (sessions : list SessionRecord)
    (dates : list string) (fallbackScore : number)
    (formulaVersion : ScoreFormulaVersion) : list number :=
  smoothTrend (rawTrend sessions dates fallbackScore formulaVersion) 3.

(** [round(value, decimals)]; [10 ** decimals] is the exact power. *)
Definition round (value : number) (decimals : nat) : number :=
  let factor := of_integer false (10 ^ Z.of_nat decimals) in
  Math_round (value * factor) / factor.

Record TutorKpis := {
  avg_rating : option number;
  dropout_rate : number;
  tech_issue_rate : number;
  reschedule_rate : number;
  sessions_count : number;
  first_session_avg_rating : option number;
  first_session_dropout_rate : number;
  first_session_count : number;
  tutor_initiated_reschedule_rate : number;
  no_show_rate : number
}.

(** The [kpis] object that [runScoringPipeline] builds from the metrics. *)
Definition tutorKpis (metrics : AggregatedMetrics) : TutorKpis :=
  {| avg_rating := option_map (fun r => round r 2) (avgRating metrics);
     dropout_rate := round (dropoutRate metrics) 4;
     tech_issue_rate := round (techIssueRate metrics) 4;
     reschedule_rate := round (rescheduleRate metrics) 4;
     sessions_count := sessionsCount metrics;
     first_session_avg_rating :=
       option_map (fun r => round r 2) (firstSessionAvgRating metrics);
     first_session_dropout_rate := round (firstSessionDropoutRate metrics) 4;
     first_session_count := firstSessionCount metrics;
     tutor_initiated_reschedule_rate :=
       round (tutorInitiatedRescheduleRate metrics) 4;
     no_show_rate := round (noShowRate metrics) 4 |}.

(** [arraysEqual]: [b[index]] is [undefined] past the end of [b]. *)
Definition arraysEqual (a b : list string) : bool :=
  if negb (List.length a =? List.length b)%nat then false
  else
    forallb
      (fun p =>
         match nth_error b (fst p) with
         | Some w => String.eqb (snd p) w
         | None => false
         end)
      (combine (seq 0 (List.length a)) a).

End ScoreTutors.

Import ScoreTutors.

(** ** types/ai.ts *)

Module Ai.

Inductive AiTrajectory := improving | declining | volatile | stable.

Record AiForecast := {
  score7d : number;
  score14d : number;
  trajectory : AiTrajectory;
  confidence : number
  (* [description] is display text and is left out *)
}.

Inductive Effort := low | medium | high.

Record AiInterventionRecommendation := {
  id : string;
  title : string;
  effectiveness : number;
  effort : Effort
  (* [description] and [rationale] are display text and are left out *)
}.

Record AiPersonaProfile := {
  persona_id : string;
  label : string;
  description : string;
  strengths : list string;
  risks : list string
}.

Record AiModelArtifacts := {
  weights : Dict.t number;
  bias : number;
  featureKeys : list string;
  featureMeans : Dict.t number;
  featureStds : Dict.t number
}.

Record TutorFeatureInput := {
  tutor_id : string;
  name : string;
  subject : string;
  score : number;
  trend_7d : list number;
  churn_risk : number;
  kpis : TutorKpis
}.

Record TutorFeatureVector := {
  tutorId : string;
  features : Dict.t number;
  labelChurn : number
}.

Record FeatureStatistics := {
  means : Dict.t number;
  stdDevs : Dict.t number
}.

Record FeatureMatrix := {
  vectors : list TutorFeatureVector;
  featureOrder : list string;
  stats : FeatureStatistics
}.

End Ai.

Import Ai.

(** ** lib/ai/feature_engineering.ts *)

Module FeatureEngineering.

Definition FEATURE_KEYS : list string :=
  [ "dropout_rate"; "tech_issue_rate"; "reschedule_rate"; "sessions_count";
    "avg_rating"; "first_session_avg_rating"; "first_session_dropout_rate";
    "first_session_count"; "tutor_initiated_reschedule_rate"; "no_show_rate";
    "score"; "trend_slope"; "trend_variance"; "trend_velocity";
    "churn_risk" ]%string.

Definition safeNumber (value : option number) : number :=
  match value with
  | Some v => if Number_isFinite v then v else 0
  | None => 0
  end.

(** [x ** 2], the correctly rounded square. *)
Definition square (x : number) : number := x * x.

(** The loop of [computeTrendSlope]: the state is (numerator, denominator). *)
Definition slopeStep (xMean yMean : number) (st : number * number)
    (iy : nat * number) : number * number :=
  let '(numerator, denominator) := st in
  let '(i, y) := iy in
  let x := of_nat i in
  (numerator + (x - xMean) * (y - yMean), denominator + square (x - xMean)).

Definition indexed {A : Type} (l : list A) : list (nat * A) :=
  combine (seq 0 (List.length l)) l.

Definition computeTrendSlope (trend : list number) : number :=
  match trend with
  | [] => 0
  | _ =>
      let n := of_nat (List.length trend) in
      let xMean := (n - 1) / 2 in
      let yMean := sum_by (fun value => value) trend / n in
      let '(numerator, denominator) :=
        fold_left (slopeStep xMean yMean) (indexed trend) (0, 0) in
      if denominator =? 0 then 0 else numerator / denominator
  end.

Definition computeTrendVariance (trend : list number) : number :=
  match trend with
  | [] => 0
  | _ =>
      let n := of_nat (List.length trend) in
      let mean := sum_by (fun value => value) trend / n in
      sum_by (fun value => square (value - mean)) trend / n
  end.

Definition computeTrendVelocity (trend : list number) : number :=
  if (List.length trend <? 2)%nat then 0
  else lastOf trend - firstOf trend.

Definition buildFeatureVector (tutor : TutorFeatureInput)
    : TutorFeatureVector :=
  let k := kpis tutor in
  let trendSlope := computeTrendSlope (trend_7d tutor) in
  let trendVariance := computeTrendVariance (trend_7d tutor) in
  let trendVelocity := computeTrendVelocity (trend_7d tutor) in
  let features : Dict.t number :=
    [ ("dropout_rate", safeNumber (Some (dropout_rate k)));
      ("tech_issue_rate", safeNumber (Some (tech_issue_rate k)));
      ("reschedule_rate", safeNumber (Some (reschedule_rate k)));
      ("sessions_count", safeNumber (Some (sessions_count k)));
      ("avg_rating", safeNumber (avg_rating k));
      ("first_session_avg_rating", safeNumber (first_session_avg_rating k));
      ("first_session_dropout_rate",
        safeNumber (Some (first_session_dropout_rate k)));
      ("first_session_count", safeNumber (Some (first_session_count k)));
      ("tutor_initiated_reschedule_rate",
        safeNumber (Some (tutor_initiated_reschedule_rate k)));
      ("no_show_rate", safeNumber (Some (no_show_rate k)));
      ("score", safeNumber (Some (score tutor)));
      ("trend_slope", trendSlope);
      ("trend_variance", trendVariance);
      ("trend_velocity", trendVelocity);
      ("churn_risk", safeNumber (Some (churn_risk tutor / 100))) ]%string in
  let labelChurn :=
    if (score tutor <? 60) || (55 <? churn_risk tutor)
       || (0.18 <? dropout_rate k)
    then 1 else 0 in
  {| tutorId := tutor_id tutor; features := features;
     labelChurn := labelChurn |}.

(** The values of one feature over the batch. *)
Definition featureValues (vectors : list TutorFeatureVector) (key : string)
    : list number :=
  map (fun vector => Dict.get (features vector) key ?? 0) vectors.

(** The [mean] and the [stdDev] that [computeStatistics] stores for the
    values of one feature. *)
Definition meanOf (values : list number) : number :=
  sum_by (fun value => value) values
  / Math_max (of_nat (List.length values)) 1.

Definition varianceOf (values : list number) : number :=
  let mean := meanOf values in
  sum_by (fun value => square (value - mean)) values
  / Math_max (of_nat (List.length values)) 1.

Definition stdDevOf (values : list number) : number :=
  or_else (Math_sqrt (varianceOf values)) 1.

(** One iteration of [for (const key of FEATURE_KEYS)]. *)
Definition statisticsStep (vectors : list TutorFeatureVector)
    (st : FeatureStatistics) (key : string) : FeatureStatistics :=
  let values := featureValues vectors key in
  {| means := Dict.set (means st) key (meanOf values);
     stdDevs := Dict.set (stdDevs st) key (stdDevOf values) |}.

Definition computeStatistics (vectors : list TutorFeatureVector)
    : FeatureStatistics :=
  fold_left (statisticsStep vectors) FEATURE_KEYS
    {| means := []; stdDevs := [] |}.

Definition normaliseFeature (value mean stdDev : number) : number :=
  if stdDev =? 0 then 0 else (value - mean) / stdDev.

Definition buildFeatureMatrix (tutors : list TutorFeatureInput)
    : FeatureMatrix :=
  let vectors := map buildFeatureVector tutors in
  let stats := computeStatistics vectors in
  {| vectors := vectors; stats := stats; featureOrder := FEATURE_KEYS |}.

End FeatureEngineering.

Import FeatureEngineering.


(** ** lib/ai/churn_predictor.ts *)

Module ChurnPredictor.

Section WithExp.

(** [Math.exp] is kept abstract: the properties below use only the value
    that ECMAScript fixes for it at a zero. *)
Variable Math_exp : number -> number.

Definition sigmoid (value : number) : number := 1 / (1 + Math_exp (- value)).

(** The options of a training run.  A count of [iterations] that is
    given is a whole number of rounds. *)
Record TrainOptions := {
  learningRate : Optional number;
  iterations : Optional nat;
  regularization : Optional number
}.

(** The merged options: the two rates, and the number of rounds that
    [for (let iteration = 0; iteration < hyperParams.iterations;
    iteration += 1)] runs. *)
Record HyperParams := {
  hp_learningRate : number;
  hp_iterations : nat;
  hp_regularization : number
}.

Definition DEFAULT_OPTIONS : HyperParams :=
  {| hp_learningRate := 0.3; hp_iterations := 600;
     hp_regularization := 0.0005 |}.

(** The call without options, [trainChurnModel(matrix)]. *)
Definition noOptions : TrainOptions :=
  {| learningRate := absent; iterations := absent; regularization := absent |}.

(** [{ ...DEFAULT_OPTIONS, ...options }]: a property that is present in
    [options] replaces the default, also when its value is [undefined].
    An [undefined] rate is NaN in the arithmetic of the update, and with
    [undefined] as its bound the loop ends before its first round. *)
Definition mergeOptions (options : TrainOptions) : HyperParams :=
  {| hp_learningRate :=
       match learningRate options with
       | absent => hp_learningRate DEFAULT_OPTIONS
       | undefined => nan
       | given rate => rate
       end;
     hp_iterations :=
       match iterations options with
       | absent => hp_iterations DEFAULT_OPTIONS
       | undefined => 0%nat
       | given rounds => rounds
       end;
     hp_regularization :=
       match regularization options with
       | absent => hp_regularization DEFAULT_OPTIONS
       | undefined => nan
       | given rate => rate
       end |}.

(** [weights[key] = 0] for every key: an own entry for every key that
    [Dict.ownKey] admits, as the keys of [FEATURE_KEYS] are. *)
Definition initialiseWeights (featureKeys : list string) : Dict.t number :=
  fold_left (fun weights key => Dict.set weights key 0) featureKeys [].

(** The normalised value of the feature [key] of [vector]. *)
Definition normalisedAt (vector : TutorFeatureVector)
    (means stds : Dict.t number) (key : string) : number :=
  let value := Dict.get (features vector) key ?? 0 in
  normaliseFeature value (Dict.index means key) (Dict.index stds key).

(** The loop shared by [computePrediction] and [predictChurn]:
    [sum += weights[key] * normalised]. *)
Definition linearSum (vector : TutorFeatureVector) (weights : Dict.t number)
    (bias : number) (means stds : Dict.t number) (keys : list string)
    : number :=
  fold_left
    (fun sum key =>
       sum + Dict.index weights key * normalisedAt vector means stds key)
    keys bias.

Definition computePrediction (vector : TutorFeatureVector)
    (weights : Dict.t number) (bias : number) (stats : FeatureStatistics)
    (featureOrder : list string) : number :=
  sigmoid (linearSum vector weights bias (means stats) (stdDevs stats)
             featureOrder).

(** The inner loop over the vectors: the state is the bias gradient and
    the weight gradients. *)
Definition gradientStep (weights : Dict.t number) (bias : number)
    (stats : FeatureStatistics) (featureOrder : list string)
    (st : number * Dict.t number) (vector : TutorFeatureVector)
    : number * Dict.t number :=
  let '(biasGradient, weightGradients) := st in
  let prediction := computePrediction vector weights bias stats featureOrder in
  let error := prediction - labelChurn vector in
  (biasGradient + error,
   fold_left
     (fun gradients key =>
        Dict.set gradients key
          (Dict.index gradients key
           + error * normalisedAt vector (means stats) (stdDevs stats) key))
     featureOrder weightGradients).

(** One iteration of gradient descent: the state is (bias, weights). *)
Definition descentStep (hyperParams : HyperParams) (matrix : FeatureMatrix)
    (st : number * Dict.t number) : number * Dict.t number :=
  let '(bias, weights) := st in
  let featureOrder := featureOrder matrix in
  let count := of_nat (List.length (vectors matrix)) in
  let '(biasGradient, weightGradients) :=
    fold_left (gradientStep weights bias (stats matrix) featureOrder)
      (vectors matrix) (0, initialiseWeights featureOrder) in
  (bias - (hp_learningRate hyperParams / count) * biasGradient,
   fold_left
     (fun weights key =>
        let regularisationTerm :=
          hp_regularization hyperParams * Dict.index weights key in
        Dict.set weights key
          (Dict.index weights key
           - ((hp_learningRate hyperParams / count)
              * Dict.index weightGradients key
              + regularisationTerm)))
     featureOrder weights).

Definition trainChurnModel (matrix : FeatureMatrix) (options : TrainOptions)
    : AiModelArtifacts :=
  match vectors matrix with
  | [] =>
      {| weights := initialiseWeights (featureOrder matrix);
         bias := 0;
         featureKeys := featureOrder matrix;
         featureMeans := means (stats matrix);
         featureStds := stdDevs (stats matrix) |}
  | _ =>
      let hyperParams := mergeOptions options in
      let '(bias, weights) :=
        Nat.iter (hp_iterations hyperParams) (descentStep hyperParams matrix)
          (0, initialiseWeights (featureOrder matrix)) in
      {| weights := weights;
         bias := bias;
         featureKeys := featureOrder matrix;
         featureMeans := means (stats matrix);
         featureStds := stdDevs (stats matrix) |}
  end.

Record ChurnPrediction := {
  probability : number;
  prediction_confidence : number
}.

Definition predictChurn (vector : TutorFeatureVector)
    (model : AiModelArtifacts) : ChurnPrediction :=
  let sum :=
    linearSum vector (weights model) (bias model) (featureMeans model)
      (featureStds model) (featureKeys model) in
  {| probability := sigmoid sum;
     prediction_confidence := Math_min 1 (Math_abs sum / 4 + 0.25) |}.

End WithExp.

End ChurnPredictor.

(** ** lib/ai/trend_forecaster.ts *)

Module TrendForecaster.

Definition clamp (value min max : number) : number :=
  if negb (Number_isFinite value) then min
  else Math_min max (Math_max min value).

(** The loop of [computeLinearRegression]. *)
Definition regressionStep (xMean yMean : number) (st : number * number)
    (iy : nat * number) : number * number :=
  let '(numerator, denominator) := st in
  let '(i, y) := iy in
  (numerator + (of_nat i - xMean) * (y - yMean),
   denominator + square (of_nat i - xMean)).

Definition computeLinearRegression (trend : list number) : number * number :=
  match trend with
  | [] => (0, 0)
  | _ =>
      let n := of_nat (List.length trend) in
      let xMean := (n - 1) / 2 in
      let yMean := sum_by (fun value => value) trend / n in
      let '(numerator, denominator) :=
        fold_left (regressionStep xMean yMean) (indexed trend) (0, 0) in
      let slope := if denominator =? 0 then 0 else numerator / denominator in
      let intercept := yMean - slope * xMean in
      (slope, intercept)
  end.

Definition projectValue (index slope intercept fallback : number) : number :=
  let value := slope * index + intercept in
  if negb (Number_isFinite value) then fallback else value.

Definition classifyTrajectory (slope variance : number) : AiTrajectory :=
  if (Math_abs slope <? 0.5) && (30 <? variance) then volatile
  else if 0.5 <? slope then improving
  else if slope <? -0.5 then declining
  else stable.

Definition computeVariance (trend : list number) : number :=
  match trend with
  | [] => 0
  | _ =>
      let n := of_nat (List.length trend) in
      let mean := sum_by (fun value => value) trend / n in
      sum_by (fun value => square (value - mean)) trend / n
  end.

Definition forecastTrend (trend : list number) (currentScore : number)
    : AiForecast :=
  let '(slope, intercept) := computeLinearRegression trend in
  let variance := computeVariance trend in
  let nextIndex7 := of_nat (List.length trend) + 7 in
  let nextIndex14 := of_nat (List.length trend) + 14 in
  let projected7 := projectValue nextIndex7 slope intercept currentScore in
  let projected14 := projectValue nextIndex14 slope intercept projected7 in
  let clamped7 := clamp projected7 0 100 in
  let clamped14 := clamp projected14 0 100 in
  let trajectory := classifyTrajectory slope variance in
  let confidence := clamp (1 - Math_min 1 (variance / 80)) 0.2 0.95 in
  {| score7d := clamped7; score14d := clamped14; trajectory := trajectory;
     confidence := confidence |}.

End TrendForecaster.

(** ** lib/ai/pattern_recognition.ts *)

Module PatternRecognition.

Definition rising_star : AiPersonaProfile :=
  {| persona_id := "rising-star";
     label := "Rising Star";
     description :=
       "Strong fundamentals with positive momentum. Benefit from advanced coaching to accelerate growth.";
     strengths := ["Consistent improvements"; "High student satisfaction"];
     risks := ["Needs stretch assignments"; "Watch for burnout"] |}%string.

Definition at_risk_newcomer : AiPersonaProfile :=
  {| persona_id := "at-risk-newcomer";
     label := "At-Risk Newcomer";
     description :=
       "Early-stage tutor with unstable first-session outcomes. Requires structured onboarding support.";
     strengths := ["Coachability"; "Fresh perspective"];
     risks := ["High first-session churn"; "Inconsistent delivery"] |}%string.

Definition reliability_challenged : AiPersonaProfile :=
  {| persona_id := "reliability-challenged";
     label := "Reliability Challenged";
     description :=
       "High dropout or reschedule behavior impacting student trust. Focus on accountability frameworks.";
     strengths := ["Strong subject expertise"];
     risks := ["Scheduling reliability"; "Attendance issues"] |}%string.

Definition stabilizing : AiPersonaProfile :=
  {| persona_id := "stabilizing";
     label := "Stabilizing Performer";
     description :=
       "Recovering from previous performance issues with signs of stabilization. Keep momentum with lightweight support.";
     strengths := ["Trend improving"; "Responds to coaching"];
     risks := ["Fragile confidence"; "Needs reinforcement"] |}%string.

Definition PERSONA_LIBRARY : list AiPersonaProfile :=
  [rising_star; at_risk_newcomer; reliability_challenged; stabilizing].

(** [new Set([...])]: the first occurrence of each key, in order. *)
Fixpoint dedupe (seen keys : list string) : list string :=
  match keys with
  | [] => []
  | k :: rest =>
      if existsb (String.eqb k) seen then dedupe seen rest
      else k :: dedupe (k :: seen) rest
  end.

Definition euclideanDistance (a b : Dict.t number) : number :=
  let keys := dedupe [] (Dict.keys a ++ Dict.keys b) in
  let sum :=
    fold_left
      (fun sum key =>
         let diff := (Dict.get a key ?? 0) - (Dict.get b key ?? 0) in
         sum + diff * diff)
      keys 0 in
  Math_sqrt sum.

Definition normaliseVector (vector : TutorFeatureVector) : Dict.t number :=
  let f := features vector in
  [ ("dropout_rate", Dict.get f "dropout_rate" ?? 0);
    ("first_session_dropout_rate",
      Dict.get f "first_session_dropout_rate" ?? 0);
    ("tutor_initiated_reschedule_rate",
      Dict.get f "tutor_initiated_reschedule_rate" ?? 0);
    ("no_show_rate", Dict.get f "no_show_rate" ?? 0);
    ("trend_velocity", (Dict.get f "trend_velocity" ?? 0) / 100);
    ("trend_slope", (Dict.get f "trend_slope" ?? 0) / 100);
    ("score", (Dict.get f "score" ?? 0) / 100) ]%string.

Definition centroid (dropout firstDropout tutorReschedule noShowRate velocity
    slope score : number) : Dict.t number :=
  [ ("dropout_rate", dropout);
    ("first_session_dropout_rate", firstDropout);
    ("tutor_initiated_reschedule_rate", tutorReschedule);
    ("no_show_rate", noShowRate);
    ("trend_velocity", velocity);
    ("trend_slope", slope);
    ("score", score) ]%string.

Definition personaToCentroid (persona : AiPersonaProfile) : Dict.t number :=
  if String.eqb (persona_id persona) "rising-star" then
    centroid 0.05 0.05 0.05 0.03 0.2 0.3 0.85
  else if String.eqb (persona_id persona) "at-risk-newcomer" then
    centroid 0.2 0.35 0.1 0.05 (-0.15) (-0.1) 0.45
  else if String.eqb (persona_id persona) "reliability-challenged" then
    centroid 0.25 0.2 0.35 0.2 (-0.05) (-0.05) 0.5
  else if String.eqb (persona_id persona) "stabilizing" then
    centroid 0.12 0.12 0.15 0.08 0.05 0.1 0.65
  else
    centroid 0.15 0.15 0.15 0.1 0 0 0.6.

(** One iteration of [for (const persona of PERSONA_LIBRARY)]: the state
    is (closest, minDistance). *)
Definition personaStep (featureVector : Dict.t number)
    (st : AiPersonaProfile * number) (persona : AiPersonaProfile)
    : AiPersonaProfile * number :=
  let '(closest, minDistance) := st in
  let distance := euclideanDistance featureVector (personaToCentroid persona) in
  if distance <? minDistance then (persona, distance)
  else (closest, minDistance).

Definition assignPersona (vector : TutorFeatureVector) : AiPersonaProfile :=
  let featureVector := normaliseVector vector in
  fst (fold_left (personaStep featureVector) PERSONA_LIBRARY
         (hd rising_star PERSONA_LIBRARY, infinity)).

Record ClusterResult := {
  persona : AiPersonaProfile
}.

Definition buildClusterInsights (vector : TutorFeatureVector)
    : ClusterResult :=
  {| persona := assignPersona vector |}.

End PatternRecognition.

(** ** lib/ai/intervention_recommender.ts *)

Module InterventionRecommender.

Record InterventionContext := {
  churnProbability : number;
  anomalyScore : number;
  forecastTrajectory : AiTrajectory
}.

Record LibraryItem := {
  item_id : string;
  item_match : TutorFeatureVector -> InterventionContext -> number;
  build : TutorFeatureVector -> AiInterventionRecommendation
}.

Definition feature (vector : TutorFeatureVector) (key : string)
    : option number :=
  Dict.get (features vector) key.

Definition is_declining (t : AiTrajectory) : bool :=
  match t with declining => true | _ => false end.

Definition INTERVENTION_LIBRARY : list LibraryItem :=
  [ {| item_id := "first-session-rescue";
       item_match := fun vector _ =>
         let dropout := feature vector "first_session_dropout_rate" ?? 0 in
         let rating := feature vector "first_session_avg_rating" ?? 5 in
         Math_max 0 (dropout * 2 + (3.5 - rating));
       build := fun _ =>
         {| id := "first-session-rescue";
            title := "First Session Rescue Plan";
            effectiveness := 0.75;
            effort := medium |} |};
    {| item_id := "tech-intervention";
       item_match := fun vector _ =>
         (feature vector "tech_issue_rate" ?? 0) * 4;
       build := fun _ =>
         {| id := "tech-intervention";
            title := "Technical Coaching & Equipment Audit";
            effectiveness := 0.68;
            effort := high |} |};
    {| item_id := "scheduling-discipline";
       item_match := fun vector _ =>
         (feature vector "tutor_initiated_reschedule_rate" ?? 0) * 3;
       build := fun _ =>
         {| id := "scheduling-discipline";
            title := "Scheduling Discipline Reset";
            effectiveness := 0.62;
            effort := medium |} |};
    {| item_id := "no-show-mitigation";
       item_match := fun vector _ =>
         (feature vector "no_show_rate" ?? 0) * 4;
       build := fun _ =>
         {| id := "no-show-mitigation";
            title := "Attendance Reinforcement";
            effectiveness := 0.65;
            effort := medium |} |};
    {| item_id := "quality-lift";
       item_match := fun vector _ =>
         let rating := feature vector "avg_rating" ?? 5 in
         Math_max 0 (4.5 - rating);
       build := fun _ =>
         {| id := "quality-lift";
            title := "Quality Lift Mentorship";
            effectiveness := 0.58;
            effort := high |} |};
    {| item_id := "momentum-boost";
       item_match := fun vector context =>
         if is_declining (forecastTrajectory context)
         then Math_abs (feature vector "trend_velocity" ?? 0) / 10
         else 0;
       build := fun _ =>
         {| id := "momentum-boost";
            title := "Momentum Boost Sprint";
            effectiveness := 0.55;
            effort := low |} |} ]%string.

Record Scored := {
  intervention : AiInterventionRecommendation;
  match_score : number
}.

(** [Array.prototype.sort(compare)]: the sort is stable, an element goes
    before the first one that the comparator places after it, and a NaN
    from the comparator counts as [+0]. *)
Fixpoint sort_insert {A : Type} (compare : A -> A -> number) (x : A)
    (sorted : list A) : list A :=
  match sorted with
  | [] => [x]
  | y :: rest =>
      if 0 <? compare y x then x :: y :: rest
      else y :: sort_insert compare x rest
  end.

Definition sort {A : Type} (compare : A -> A -> number) (l : list A)
    : list A :=
  fold_left (fun sorted x => sort_insert compare x sorted) l [].

(** The comparator [(a, b) => b.score - a.score]. *)
Definition byScoreDescending (a b : Scored) : number :=
  match_score b - match_score a.

(** [array.map((entry, index) => f(entry, index))]. *)
Definition mapi {A B : Type} (f : A -> nat -> B) (l : list A) : list B :=
  map (fun p => f (snd p) (fst p)) (indexed l).

(** The candidates kept and ordered by [recommendInterventions], before
    the cut to three. *)
Definition scoredCandidates (vector : TutorFeatureVector)
    (context : InterventionContext) : list Scored :=
  sort byScoreDescending
    (filter (fun entry => 0.05 <? match_score entry)
       (map (fun item =>
               {| intervention := build item vector;
                  match_score := item_match item vector context |})
          INTERVENTION_LIBRARY)).

Definition bump (entry : Scored) (index : nat)
    : AiInterventionRecommendation :=
  {| id := id (intervention entry);
     title := title (intervention entry);
     effectiveness :=
       Math_min 0.95
         (effectiveness (intervention entry) + of_nat index * 0.05);
     effort := effort (intervention entry) |}.

Definition recommendInterventions (vector : TutorFeatureVector)
    (context : InterventionContext) : list AiInterventionRecommendation :=
  mapi bump (slice (scoredCandidates vector context) 0 3).

End InterventionRecommender.

(** ** lib/ai/anomaly_detector.ts *)

Module AnomalyDetector.

Definition computeZScore (value mean stdDev : number) : number :=
  if stdDev =? 0 then 0 else (value - mean) / stdDev.

Definition clamp (value min max : number) : number :=
  if Number_isNaN value then min else Math_min max (Math_max min value).

Inductive AnomalyLabel := normal | watch | critical.

Record AnomalyResult := {
  score : number;
  label : AnomalyLabel;
  (* each contributor is kept as the feature and its |z|; the display
     text built from them is left out *)
  contributors : list (string * number)
}.

Definition WEIGHTED_FEATURES : Dict.t number :=
  [ ("dropout_rate", 1.2);
    ("no_show_rate", 1.1);
    ("tutor_initiated_reschedule_rate", 1.0);
    ("trend_velocity", 0.8);
    ("trend_variance", 0.6);
    ("sessions_count", 0.4) ]%string.

(** One iteration of the loop over [Object.entries(WEIGHTED_FEATURES)]:
    the state is (anomalyScore, contributors). *)
Definition anomalyStep (vector : TutorFeatureVector) (matrix : FeatureMatrix)
    (st : number * list (string * number)) (entry : string * number)
    : number * list (string * number) :=
  let '(anomalyScore, contributors) := st in
  let '(feature, weight) := entry in
  let mean := Dict.get (means (stats matrix)) feature ?? 0 in
  let stdDev := Dict.get (stdDevs (stats matrix)) feature ?? 1 in
  let value := Dict.get (features vector) feature ?? 0 in
  let zScore := Math_abs (computeZScore value mean stdDev) in
  (anomalyScore + zScore * weight,
   if 1.75 <? zScore then contributors ++ [(feature, zScore)]
   else contributors).

Definition detectAnomaly (vector : TutorFeatureVector)
    (matrix : FeatureMatrix) : AnomalyResult :=
  let '(anomalyScore, contributors) :=
    fold_left (anomalyStep vector matrix) WEIGHTED_FEATURES (0, []) in
  let normalised := clamp (anomalyScore / 12) 0 1 in
  {| score := normalised;
     label :=
       if 0.65 <? normalised then critical
       else if 0.4 <? normalised then watch
       else normal;
     contributors := contributors |}.

End AnomalyDetector.

(** ** lib/ai/ai_orchestrator.ts *)

Module Orchestrator.

Section WithExp.

Variable Math_exp : number -> number.

(** The numeric and structured fields of a [TutorAiInsights]; the version
    tag, the texts and the threshold summary are left out. *)
Record TutorAiInsights := {
  churnProbability : number;
  churnConfidence : number;
  anomalyScore : number;
  forecast : AiForecast;
  interventions : list AiInterventionRecommendation;
  persona : option AiPersonaProfile
}.

(** One iteration of [for (const vector of matrix.vectors)]. *)
Definition insightStep (tutors : list TutorFeatureInput)
    (matrix : FeatureMatrix) (model : AiModelArtifacts)
    (insightsMap : Dict.t TutorAiInsights) (vector : TutorFeatureVector)
    : Dict.t TutorAiInsights :=
  let churn := ChurnPredictor.predictChurn Math_exp vector model in
  let anomaly := AnomalyDetector.detectAnomaly vector matrix in
  match
    find (fun tutor => String.eqb (tutor_id tutor) (tutorId vector)) tutors
  with
  | None => insightsMap
  | Some matchedTutor =>
      let forecast :=
        TrendForecaster.forecastTrend (trend_7d matchedTutor)
          (Ai.score matchedTutor) in
      let personaResult := PatternRecognition.buildClusterInsights vector in
      let interventions :=
        InterventionRecommender.recommendInterventions vector
          {| InterventionRecommender.churnProbability :=
               ChurnPredictor.probability churn;
             InterventionRecommender.anomalyScore :=
               AnomalyDetector.score anomaly;
             InterventionRecommender.forecastTrajectory :=
               trajectory forecast |} in
      Dict.set insightsMap (tutorId vector)
        {| churnProbability := ChurnPredictor.probability churn;
           churnConfidence := ChurnPredictor.prediction_confidence churn;
           anomalyScore := AnomalyDetector.score anomaly;
           forecast := forecast;
           interventions := interventions;
           persona := Some (PatternRecognition.persona personaResult) |}
  end.

Definition generateAiInsights (tutors : list TutorFeatureInput)
    : Dict.t TutorAiInsights :=
  let matrix := buildFeatureMatrix tutors in
  let model :=
    ChurnPredictor.trainChurnModel Math_exp matrix ChurnPredictor.noOptions in
  fold_left (insightStep tutors matrix model) (vectors matrix) [].

End WithExp.

End Orchestrator.

(** ** The design's wording of the trend, of the churn risk, of the picks
       and of the forecast confidence *)

Module Spec.

(** The sessions of one calendar day. *)
Definition sessionsOn (sessions : list SessionRecord) (d : string)
    : list SessionRecord :=
  filter (fun session => String.eqb (date session) d) sessions.

(** The daily sequence in the words of the design: a day with sessions
    gets the score of that day's sessions alone, a day without carries
    the previous day's score forward, and the first gap takes the seed. *)
Fixpoint gapFilled (sessions : list SessionRecord)
    (version : ScoreFormulaVersion) (previous : number)
    (dates : list string) : list number :=
  match dates with
  | [] => []
  | d :: rest =>
      match sessionsOn sessions d with
      | [] => previous :: gapFilled sessions version previous rest
      | day =>
          let score := computeScore (computeMetrics day) version in
          score :: gapFilled sessions version score rest
      end
  end.

(** [dropout x 0.4 + noShow x 0.3 + tutorReschedule x 0.2 +
    firstSessionDropout x 0.1]. *)
Definition weightedRisk (metrics : AggregatedMetrics) : number :=
  dropoutRate metrics * 0.4 + noShowRate metrics * 0.3
  + tutorInitiatedRescheduleRate metrics * 0.2
  + firstSessionDropoutRate metrics * 0.1.

(** [+0.05] if the first-session average rating is below 3.0. *)
Definition lowFirstRatingBonus (metrics : AggregatedMetrics)
    : option number :=
  match firstSessionAvgRating metrics with
  | Some r => if r <? 3.0 then Some 0.05 else None
  | None => None
  end.

(** The score band: [<50: +0.12], [<60: +0.08], [<70: +0.04]. *)
Definition scoreBandBonus (score : number) : option number :=
  if score <? 50 then Some 0.12
  else if score <? 60 then Some 0.08
  else if score <? 70 then Some 0.04
  else None.

(** The adjustment on [last - first] of the smoothed trend:
    [< -15: +0.07], [< -8: +0.04], [> 5: -0.03]. *)
Definition trendDeltaAdjustment (trend : list number) : option number :=
  match trend with
  | [] => None
  | first :: _ =>
      let delta := last trend first - first in
      if delta <? -15 then Some 0.07
      else if delta <? -8 then Some 0.04
      else if 5 <? delta then Some (-0.03)
      else None
  end.

Definition adjust (risk : number) (adjustment : option number) : number :=
  match adjustment with
  | Some a => risk + a
  | None => risk
  end.

(** The risk before it is clamped: the weighted sum with its three
    adjustments. *)
Definition riskBeforeClamp (metrics : AggregatedMetrics) (score : number)
    (trend : list number) : number :=
  adjust
    (adjust (adjust (weightedRisk metrics) (lowFirstRatingBonus metrics))
       (scoreBandBonus score))
    (trendDeltaAdjustment trend).

(** [clamp to [0, 1]], by its cases: a value below 0 becomes 0, a value
    above 1 becomes 1, and a value between them is kept. *)
Definition clampUnit (x : number) : number :=
  if x <? 0 then 0 else if 1 <? x then 1 else x.

Definition churnRiskFormula (metrics : AggregatedMetrics) (score : number)
    (trend : list number) : number :=
  clampUnit (riskBeforeClamp metrics score trend).

(** The value at position [i] of a sequence, if there is one. *)
Definition valueAt (values : list number) (i : nat) : list number :=
  match nth_error values i with
  | Some v => [v]
  | None => []
  end.

(** The centered window of three around position [i], clipped at the two
    ends of the sequence: the value before [i], the value at [i] and the
    value after [i], as far as they exist. *)
Definition window (values : list number) (i : nat) : list number :=
  match i with
  | O => []
  | S before => valueAt values before
  end ++ valueAt values i ++ valueAt values (S i).

(** The average of the values of a window. *)
Definition average (values : list number) : number :=
  fold_left (fun sum v => sum + v) values 0 / of_nat (List.length values).

(** The moving average of the design: at every position the average of
    the clipped window of three, rounded. *)
Definition movingAverage (values : list number) : list number :=
  map (fun i => Math_round (average (window values i)))
    (seq 0 (List.length values)).

(** The pick of rank [rank] as it is displayed: its effectiveness is
    raised by [0.05 x rank] and capped at 0.95. *)
Definition displayed (pick : AiInterventionRecommendation) (rank : nat)
    : AiInterventionRecommendation :=
  {| id := id pick;
     title := title pick;
     effectiveness := Math_min 0.95 (effectiveness pick + 0.05 * of_nat rank);
     effort := effort pick |}.

(** The population variance of a sequence: the mean of the squared
    deviations from the mean; the variance of no value is 0. *)
Definition mean (values : list number) : number :=
  fold_left (fun sum v => sum + v) values 0 / of_nat (List.length values).

Definition populationVariance (values : list number) : number :=
  match values with
  | [] => 0
  | _ =>
      fold_left
        (fun sum v => sum + (v - mean values) * (v - mean values)) values 0
      / of_nat (List.length values)
  end.

(** [clamp(x, lo, hi)], by its cases: a value below [lo] becomes [lo], a
    value above [hi] becomes [hi], and a value between them is kept. *)
Definition clampTo (lo hi x : number) : number :=
  if x <? lo then lo else if hi <? x then hi else x.

End Spec.

(** ** Vocabulary of the statements *)

(** The representation of a positive integer of at most 53 bits. *)
Definition int_repr (s : bool) (p : positive) : spec_float :=
  let '(m, e) := shl_align p 0 (Z.pos (digits2_pos p) - 53) in
  S754_finite s m e.

(** The sign of a number that has one. *)
Definition has_sign (s : bool) (x : spec_float) : Prop :=
  match x with
  | S754_zero s' | S754_infinity s' | S754_finite s' _ _ => s' = s
  | S754_nan => True
  end.

(** A number that is neither a zero nor NaN, with its sign. *)
Definition signed_nonzero (s : bool) (x : spec_float) : Prop :=
  match x with
  | S754_infinity s' | S754_finite s' _ _ => s' = s
  | _ => False
  end.

(** The values that a score can take: the integers 0 to 100, and [-0]. *)
Definition score_values : list number :=
  map (fun n => of_integer false (Z.of_nat n)) (seq 0 101)
  ++ [of_integer true 0].

(** The sums of two scores: the integers 0 to 200. *)
Definition pair_sums : list number :=
  map (fun n => of_integer false (Z.of_nat n)) (seq 0 201).

Definition mem (x : number) (l : list number) : bool :=
  existsb (Leibniz.eqb x) l.

Definition nonEmpty {A : Type} (l : list A) : option (list A) :=
  match l with
  | [] => None
  | _ => Some l
  end.

(** A truncated series for the exponential, for the places that need a
    concrete function in the place of [Math.exp]. *)
Definition exp_series (x : number) : number :=
  1 + x + x * x / 2 + x * x * x / 6.

(** The feature matrix of a batch without tutors. *)
Definition emptyBatch : FeatureMatrix := buildFeatureMatrix [].

(** Every feature that the model reads is a finite number. *)
Definition finiteFeatures (vector : TutorFeatureVector) : Prop :=
  Forall
    (fun key => Number_isFinite (Dict.get (features vector) key ?? 0) = true)
    FEATURE_KEYS.

(** The candidates of [recommendInterventions] before the filter. *)
Definition candidates (vector : TutorFeatureVector)
    (context : InterventionRecommender.InterventionContext)
    : list InterventionRecommender.Scored :=
  map (fun item =>
         {| InterventionRecommender.intervention :=
              InterventionRecommender.build item vector;
            InterventionRecommender.match_score :=
              InterventionRecommender.item_match item vector context |})
    InterventionRecommender.INTERVENTION_LIBRARY.

(** [a] stands before [b] in an order of descending match score. *)
Definition descending (a b : InterventionRecommender.Scored) : Prop :=
  (InterventionRecommender.match_score b
   <=? InterventionRecommender.match_score a) = true.

(** The seven dates of a trend window. *)
Definition trendDates : list string :=
  [ "2025-11-01"; "2025-11-02"; "2025-11-03"; "2025-11-04"; "2025-11-05";
    "2025-11-06"; "2025-11-07" ]%string.

(** The pipeline's output for a tutor without sessions, as it is handed to
    the insight modules: the risk of such a tutor is 0, which
    [Number((0 * 100).toFixed(1))] leaves at 0. *)
Definition zeroSessionTutor : TutorFeatureInput :=
  let metrics := computeMetrics [] in
  let score := computeScore metrics v2 in
  {| tutor_id := "T000";
     name := "Tutor";
     subject := "Math";
     Ai.score := score;
     trend_7d := buildTrendForTutor [] trendDates score v2;
     churn_risk := 0;
     kpis := tutorKpis metrics |}.

(** Two tutors that differ in their dropout rate only. *)
Definition tutorWithDropout (id : string) (rate : number)
    : TutorFeatureInput :=
  {| tutor_id := id;
     name := "Tutor";
     subject := "Math";
     Ai.score := 90;
     trend_7d := [90; 90; 90; 90; 90; 90; 90];
     churn_risk := 0;
     kpis :=
       {| avg_rating := Some 4.5; dropout_rate := rate; tech_issue_rate := 0;
          reschedule_rate := 0; sessions_count := 20;
          first_session_avg_rating := Some 4.5;
          first_session_dropout_rate := 0; first_session_count := 2;
          tutor_initiated_reschedule_rate := 0; no_show_rate := 0 |} |}.


(** A tutor whose trend holds a NaN, and its feature vector: the trend
    statistics are not passed through [safeNumber]. *)
Definition nanTrendTutor : TutorFeatureInput :=
  {| tutor_id := "T003";
     name := "Tutor";
     subject := "Math";
     Ai.score := 90;
     trend_7d := [90; 90; 90; nan; 90; 90; 90];
     churn_risk := 0;
     kpis := tutorKpis (computeMetrics []) |}.

Definition nanVector : TutorFeatureVector := buildFeatureVector nanTrendTutor.

Import InterventionRecommender.

(** ** Vocabulary of the further properties *)

(** A key whose lexicographic order is the order of the numbers. *)
Definition order_key (x : spec_float) : Z * Z * Z :=
  match x with
  | S754_infinity true => (-2, 0, 0)%Z
  | S754_finite true m e => (-1, - e, - Z.pos m)%Z
  | S754_zero _ => (0, 0, 0)%Z
  | S754_nan => (0, 0, 0)%Z
  | S754_finite false m e => (1, e, Z.pos m)%Z
  | S754_infinity false => (2, 0, 0)%Z
  end.

Definition key_lt (a b : Z * Z * Z) : Prop :=
  let '(a1, a2, a3) := a in
  let '(b1, b2, b3) := b in
  (a1 < b1 \/ (a1 = b1 /\ (a2 < b2 \/ (a2 = b2 /\ a3 < b3))))%Z.

Definition isRated (session : SessionRecord) : bool :=
  match rating session with Some _ => true | None => false end.

(** The scores 0 to 100. *)
Definition whole_scores : list number :=
  map (fun n => of_integer false (Z.of_nat n)) (seq 0 101).

(** The features that [buildFeatureVector] passes through [safeNumber]. *)
Definition COERCED_KEYS : list string :=
  [ "dropout_rate"; "tech_issue_rate"; "reschedule_rate"; "sessions_count";
    "avg_rating"; "first_session_avg_rating"; "first_session_dropout_rate";
    "first_session_count"; "tutor_initiated_reschedule_rate"; "no_show_rate";
    "score"; "churn_risk" ]%string.

(** Every key of [keys] has a value in [d]. *)
Definition covers {V : Type} (d : Dict.t V) (keys : list string) : Prop :=
  Forall (fun key => exists v, Dict.get d key = Some v) keys.

(** [bump] without the cap. *)
Definition raise (entry : Scored) (index : nat) : AiInterventionRecommendation :=
  {| id := id (intervention entry);
     title := title (intervention entry);
     effectiveness :=
       effectiveness (intervention entry) + of_nat index * 0.05;
     effort := effort (intervention entry) |}.

(** A tutor whose features call for no intervention. *)
Definition healthy (vector : TutorFeatureVector) : Prop :=
  feature vector "first_session_dropout_rate" = Some 0
  /\ feature vector "tech_issue_rate" = Some 0
  /\ feature vector "tutor_initiated_reschedule_rate" = Some 0
  /\ feature vector "no_show_rate" = Some 0
  /\ (exists r, feature vector "first_session_avg_rating" = Some r
                /\ (3.5 <=? r) = true)
  /\ (exists r, feature vector "avg_rating" = Some r /\ (4.5 <=? r) = true).

(** A vector whose trend fell by twenty points. *)
Definition fallingVector : TutorFeatureVector :=
  buildFeatureVector
    {| tutor_id := "T004"; name := "Tutor"; subject := "Math";
       Ai.score := 70; trend_7d := [90; 88; 85; 80; 76; 72; 70];
       churn_risk := 10;
       kpis :=
         {| avg_rating := Some 4.8; dropout_rate := 0; tech_issue_rate := 0;
            reschedule_rate := 0; sessions_count := 20;
            first_session_avg_rating := Some 4.8;
            first_session_dropout_rate := 0; first_session_count := 2;
            tutor_initiated_reschedule_rate := 0; no_show_rate := 0 |} |}.

Definition decliningContext : InterventionContext :=
  {| churnProbability := 0.5; anomalyScore := 0.1;
     forecastTrajectory := declining |}.

Definition stableContext : InterventionContext :=
  {| churnProbability := 0.1; anomalyScore := 0.1;
     forecastTrajectory := stable |}.

(** The distance that [assignPersona] measures from a tutor to a persona. *)
Definition distanceTo (vector : TutorFeatureVector)
    (persona : AiPersonaProfile) : number :=
  PatternRecognition.euclideanDistance
    (PatternRecognition.normaliseVector vector)
    (PatternRecognition.personaToCentroid persona).

(** The bundle that the orchestrator stores for [vector] when
    [matchedTutor] is the tutor found for it. *)
Definition bundleOf (Math_exp : number -> number) (matrix : FeatureMatrix)
    (model : AiModelArtifacts) (vector : TutorFeatureVector)
    (matchedTutor : TutorFeatureInput) : Orchestrator.TutorAiInsights :=
  let churn := ChurnPredictor.predictChurn Math_exp vector model in
  let anomaly := AnomalyDetector.detectAnomaly vector matrix in
  let forecast :=
    TrendForecaster.forecastTrend (trend_7d matchedTutor)
      (Ai.score matchedTutor) in
  {| Orchestrator.churnProbability := ChurnPredictor.probability churn;
     Orchestrator.churnConfidence := ChurnPredictor.prediction_confidence churn;
     Orchestrator.anomalyScore := AnomalyDetector.score anomaly;
     Orchestrator.forecast := forecast;
     Orchestrator.interventions :=
       recommendInterventions vector
         {| churnProbability := ChurnPredictor.probability churn;
            anomalyScore := AnomalyDetector.score anomaly;
            forecastTrajectory := trajectory forecast |};
     Orchestrator.persona := Some (PatternRecognition.assignPersona vector) |}.

(** The first tutor of the batch with the given id. *)
Definition firstWithId (tutors : list TutorFeatureInput) (key : string)
    : option TutorFeatureInput :=
  find (fun tutor => String.eqb (tutor_id tutor) key) tutors.

(** The number of the sessions that satisfy [p]. *)
Definition countOf (p : SessionRecord -> bool) (sessions : list SessionRecord)
    : nat :=
  List.length (filter p sessions).

(** The sessions counted by the counters of [computeMetrics]. *)
Definition isDropout (session : SessionRecord) : bool :=
  is_dropout (status session).

Definition isReschedule (session : SessionRecord) : bool :=
  is_rescheduled (status session).

Definition isTutorReschedule (session : SessionRecord) : bool :=
  is_rescheduled (status session) && by_tutor (rescheduleInitiator session).

Definition isFirstDropout (session : SessionRecord) : bool :=
  is_dropout (status session) && isFirstSession session.

(** The share of [k] in [n], and 0 when [n] is 0. *)
Definition share (k n : nat) : number :=
  if (n =? 0)%nat then 0 else of_nat k / of_nat n.

(** A first session that the student dropped, a session that the tutor
    rescheduled, and a completed session. *)
Definition sampleSessions : list SessionRecord :=
  [ {| sessionId := "S1"; ScoreTutors.tutorId := "T001"; date := "2025-11-01";
       durationMinutes := 30; rating := None; status := dropout;
       hasTechIssue := true; isFirstSession := true;
       rescheduleInitiator := None; noShow := true |};
    {| sessionId := "S2"; ScoreTutors.tutorId := "T001"; date := "2025-11-02";
       durationMinutes := 60; rating := None; status := rescheduled;
       hasTechIssue := false; isFirstSession := false;
       rescheduleInitiator := Some tutor; noShow := false |};
    {| sessionId := "S3"; ScoreTutors.tutorId := "T001"; date := "2025-11-03";
       durationMinutes := 60; rating := Some 5; status := completed;
       hasTechIssue := false; isFirstSession := false;
       rescheduleInitiator := None; noShow := false |} ]%string.

(** ** scripts/score_tutors.ts: the seeded generator of the synthetic data *)

Module SyntheticData.

(** The 32-bit integer operators: [ToInt32], [ToUint32], [^], [|], [<<],
    [>>>] and [Math.imul], with the wrap-around written out. *)
Definition ToUint32 (z : Z) : Z := (z mod 2 ^ 32)%Z.

Definition ToInt32 (z : Z) : Z :=
  let u := (z mod 2 ^ 32)%Z in
  if (u <? 2 ^ 31)%Z then u else (u - 2 ^ 32)%Z.

Definition int32_xor (a b : Z) : Z := ToInt32 (Z.lxor (ToInt32 a) (ToInt32 b)).

Definition int32_or (a b : Z) : Z := ToInt32 (Z.lor (ToInt32 a) (ToInt32 b)).

Definition int32_shl (a n : Z) : Z :=
  ToInt32 (Z.shiftl (ToInt32 a) (ToUint32 n mod 32)).

Definition uint32_shr (a n : Z) : Z :=
  Z.shiftr (ToUint32 a) (ToUint32 n mod 32).

Definition Math_imul (a b : Z) : Z := ToInt32 (ToUint32 a * ToUint32 b).

(** [input.charCodeAt(i)] for each [i]. *)
Fixpoint charCodes (input : string) : list Z :=
  match input with
  | EmptyString => []
  | String c rest => Z.of_nat (Ascii.nat_of_ascii c) :: charCodes rest
  end.

Definition hashSeed (input : string) : Z :=
  let h := int32_xor 1779033703 (Z.of_nat (String.length input)) in
  let h :=
    fold_left
      (fun h code =>
         let h := Math_imul (int32_xor h code) 3432918353 in
         int32_or (int32_shl h 13) (uint32_shr h 19))
      (charCodes input) h in
  uint32_shr (int32_xor h (uint32_shr h 16)) 0.

(** The seed with which [createRng] starts; [now] is the reading of
    [Date.now()]. *)
Definition createRng (seedInput : option string) (now : Z) : Z :=
  let baseSeed :=
    match seedInput with
    | Some input =>
        if (0 <? String.length input)%nat then hashSeed input
        else Z.rem now 4294967295
    | None => Z.rem now 4294967295
    end in
  uint32_shr baseSeed 0.

(** One call of the generator that [createRng] returns: the new seed and
    the number drawn.  The sums are sums of 32-bit integers, which
    numbers hold exactly. *)
Definition rng (seed : Z) : Z * number :=
  let seed := uint32_shr (seed + 1831565813) 0 in
  let t := Math_imul (int32_xor seed (uint32_shr seed 15)) (int32_or 1 seed) in
  let t :=
    int32_xor t (t + Math_imul (int32_xor t (uint32_shr t 7)) (int32_or 61 t))
  in
  (seed,
   of_integer false (uint32_shr (int32_xor t (uint32_shr t 14)) 0)
   / 4294967296).

(** The first [n] numbers drawn. *)
Fixpoint draws (n : nat) (seed : Z) : list number :=
  match n with
  | O => []
  | S k => let '(seed', value) := rng seed in value :: draws k seed'
  end.

Record WeightedValue (T : Type) := {
  value : T;
  weight : number
}.

Arguments value {T}.
Arguments weight {T}.

(** The loop of [pickWeighted]: [None] when it falls through. *)
Fixpoint pickLoop {T : Type} (threshold : number)
    (options : list (WeightedValue T)) : option T :=
  match options with
  | [] => None
  | option :: rest =>
      if threshold <? weight option then Some (value option)
      else pickLoop (threshold - weight option) rest
  end.

(** [pickWeighted]: the new seed and the value picked; [None] stands for
    the TypeError on an empty array of options. *)
Definition pickWeighted {T : Type} (seed : Z)
    (options : list (WeightedValue T)) : Z * option T :=
  let total := fold_left (fun acc option => acc + weight option) options 0 in
  let '(seed', drawn) := rng seed in
  let threshold := drawn * total in
  match pickLoop threshold options with
  | Some picked => (seed', Some picked)
  | None =>
      match options with
      | [] => (seed', None)
      | first :: rest => (seed', Some (value (last rest first)))
      end
  end.

(** The statuses of the generated sessions, with their weights. *)
Definition STATUS_DISTRIBUTION : list (WeightedValue SessionStatus) :=
  [ {| value := completed; weight := 0.8 |};
    {| value := dropout; weight := 0.1 |};
    {| value := rescheduled; weight := 0.1 |} ].

End SyntheticData.

(** ** scripts/score_tutors.ts: the selection of the tutors at risk *)

Module AtRiskSelection.

(** [Math.floor]: NaN, the infinities, the zeros and the integral values
    are returned as they are. *)
Definition Math_floor (x : number) : number :=
  match Prim2SF x with
  | S754_finite s m e =>
      if (0 <=? e)%Z then x
      else of_integer s (cond_Zopp s (Z.pos m) / 2 ^ (- e))
  | _ => x
  end.

(** The index that [slice] makes of its [end] argument, for an array of
    [len] elements: the number is truncated, counted from the end when it
    is negative, and cut to [0 .. len]. *)
Definition relativeIndex (stop : number) (len : nat) : nat :=
  match Prim2SF stop with
  | S754_nan | S754_zero _ | S754_infinity true => 0
  | S754_infinity false => len
  | S754_finite s m e =>
      let k :=
        Z.to_nat (if (0 <=? e)%Z then Z.pos m * 2 ^ e
                  else Z.pos m / 2 ^ (- e)) in
      if s then (if (k =? 0)%nat then 0 else len - k)%nat
      else Nat.min k len
  end.

Section WithLocale.

(** [a.localeCompare(b)], which depends on the locale of the host. *)
Variable localeCompare : string -> string -> number.

(** The comparator
    [(a, b) => a.score - b.score || a.tutor_id.localeCompare(b.tutor_id)]. *)
Definition byScoreThenId (a b : TutorFeatureInput) : number :=
  or_else (Ai.score a - Ai.score b) (localeCompare (tutor_id a) (tutor_id b)).

Definition firstScore (tutors : list TutorFeatureInput) : number :=
  match tutors with
  | first :: _ => Ai.score first
  | [] => infinity
  end.

(** [selectAtRiskTutors], on the fields of [TutorOutput] that
    [TutorFeatureInput] has. *)
Definition selectAtRiskTutors (tutors : list TutorFeatureInput)
    : list TutorFeatureInput :=
  match tutors with
  | [] => []
  | _ =>
      let below60 := filter (fun tutor => Ai.score tutor <? 60) tutors in
      let bottomCount :=
        Math_max 1 (Math_floor (of_nat (List.length tutors) * 0.2)) in
      let bottom20 :=
        firstn (relativeIndex bottomCount (List.length tutors)) tutors in
      let selected :=
        if (List.length below60 <? List.length bottom20)%nat then below60
        else if (List.length bottom20 <? List.length below60)%nat then bottom20
        else if firstScore below60 <=? firstScore bottom20 then below60
        else bottom20 in
      let ordered := sort byScoreThenId selected in
      slice ordered 0 50
  end.

End WithLocale.

End AtRiskSelection.

(** A comparison of ids by their lengths, for the examples. *)
Definition byLength (a b : string) : number :=
  of_nat (String.length a) - of_nat (String.length b).

(** A tutor with a score of 45, and a batch that holds it. *)
Definition strugglingTutor : TutorFeatureInput :=
  {| tutor_id := "T002"; name := "Tutor"; subject := "Math";
     Ai.score := 45; trend_7d := [50; 49; 48; 47; 46; 45; 45];
     churn_risk := 60; kpis := tutorKpis (computeMetrics []) |}.

Definition threeTutors : list TutorFeatureInput :=
  [ tutorWithDropout "T003" 0; strugglingTutor; zeroSessionTutor ].


(** ** scripts/score_tutors.ts and app/api/tutor/[id]/route.ts: CSV rows *)

Module Csv.

Local Open Scope string_scope.

(** The characters [U+0022], [U+002C] and [U+000A]. *)
Definition quote : Ascii.ascii := Ascii.ascii_of_nat 34.

Definition comma : Ascii.ascii := Ascii.ascii_of_nat 44.

Definition newline : Ascii.ascii := Ascii.ascii_of_nat 10.

(** The white space and the line terminators among the code units below
    256: tab, line feed, vertical tab, form feed, carriage return, space
    and no-break space. *)
Definition isWhiteSpace (c : Ascii.ascii) : bool :=
  existsb (Nat.eqb (Ascii.nat_of_ascii c)) [9; 10; 11; 12; 13; 32; 160]%nat.

Fixpoint trimStart (text : string) : string :=
  match text with
  | String c rest => if isWhiteSpace c then trimStart rest else text
  | EmptyString => EmptyString
  end.

Fixpoint trimEnd (text : string) : string :=
  match text with
  | String c rest =>
      match trimEnd rest with
      | EmptyString => if isWhiteSpace c then EmptyString else String c EmptyString
      | kept => String c kept
      end
  | EmptyString => EmptyString
  end.

(** [text.trim()]. *)
Definition trim (text : string) : string := trimEnd (trimStart text).

(** [text.includes(c)] for a single character. *)
Fixpoint includes (c : Ascii.ascii) (text : string) : bool :=
  match text with
  | String d rest => Ascii.eqb d c || includes c rest
  | EmptyString => false
  end.

(** The [text.replace] of [toCsvRow]: every quote becomes two quotes. *)
Fixpoint doubleQuotes (text : string) : string :=
  match text with
  | String c rest =>
      if Ascii.eqb c quote then String quote (String quote (doubleQuotes rest))
      else String c (doubleQuotes rest)
  | EmptyString => EmptyString
  end.

(** The text that [toCsvRow] writes for one value. *)
Definition cell (text : string) : string :=
  if includes quote text then
    String quote (doubleQuotes text ++ String quote EmptyString)
  else if includes comma text || includes newline text then
    String quote (text ++ String quote EmptyString)
  else text.

(** [toCsvRow], on the texts that [String(value)] makes of the values. *)
Definition toCsvRow (values : list string) : string :=
  String.concat "," (map cell values).

(** The loop of [splitCsvLine]; after a doubled quote it goes on behind
    the second one. *)
Fixpoint splitLoop (line current : string) (inQuotes : bool)
    (result : list string) : list string :=
  match line with
  | EmptyString => (result ++ [trim current])%list
  | String char rest =>
      if inQuotes then
        if Ascii.eqb char quote then
          match rest with
          | String next rest' =>
              if Ascii.eqb next quote then
                splitLoop rest' (current ++ String quote EmptyString) true result
              else splitLoop rest current false result
          | EmptyString => splitLoop rest current false result
          end
        else splitLoop rest (current ++ String char EmptyString) true result
      else if Ascii.eqb char quote then splitLoop rest current true result
      else if Ascii.eqb char comma then
        splitLoop rest EmptyString false (result ++ [trim current])%list
      else splitLoop rest (current ++ String char EmptyString) false result
  end.

Definition splitCsvLine (line : string) : list string :=
  splitLoop line EmptyString false [].

End Csv.

(** A session before the trend window. *)
Definition earlierSession : SessionRecord :=
  {| sessionId := "S0"; ScoreTutors.tutorId := "T001"; date := "2025-10-15";
     durationMinutes := 60; rating := Some 4; status := completed;
     hasTechIssue := false; isFirstSession := true;
     rescheduleInitiator := None; noShow := false |}%string.

(** The pick that [fallingVector] gets first when its forecast declines. *)
Definition momentumPick : AiInterventionRecommendation :=
  {| id := "momentum-boost"; title := "Momentum Boost Sprint";
     effectiveness := 0.55; effort := low |}.

(** A number of magnitude below [2 ^ k]: a zero, or a finite number whose
    mantissa of [d] digits and exponent [e] have [d + e <= k]. *)
Definition below (k : Z) (x : spec_float) : Prop :=
  match x with
  | S754_zero _ => True
  | S754_finite _ m e => (Z.pos (digits2_pos m) + e <= k)%Z
  | _ => False
  end.

(** The mantissa [m] at the exponent [e] stands for a value below
    [2 ^ k]. *)
Definition fits (k m e : Z) : Prop :=
  exists a, (0 <= a /\ m < 2 ^ a /\ a + e <= k)%Z.

(** A number that is not NaN and not negative: a zero, a positive number
    or [+infinity]. *)
Definition unsigned (x : spec_float) : Prop :=
  match x with
  | S754_zero _ | S754_infinity false | S754_finite false _ _ => True
  | _ => False
  end.

(** The denominator of [computeTrendSlope] for a trend of [n] values: it
    depends on the positions alone. *)
Definition slopeDenominator (n : nat) : number :=
  fold_left
    (fun denominator i =>
       denominator + square (of_nat i - (of_nat n - 1) / 2))
    (seq 0 n) 0.

(** A finite positive number that is [1 / 2] at least. *)
Definition atLeastHalf (x : number) : bool :=
  match Prim2SF x with
  | S754_finite false m e => (0 <=? Z.pos (digits2_pos m) + e)%Z
  | _ => false
  end.

(** ** Facts about binary64 numbers *)


Lemma SFcompare_refl x : x <> S754_nan -> SFcompare x x = Some Eq.
Proof.
  destruct x as [s|s| |s m e]; simpl; try congruence; intros _.
  - destruct s; reflexivity.
  - rewrite Z.compare_refl, Pos.compare_cont_refl. destruct s; reflexivity.
Qed.

Lemma SFcompare_antisym x y :
  SFcompare y x = option_map CompOpp (SFcompare x y).
Proof.
  destruct x as [sx|sx| |sx mx ex], y as [sy|sy| |sy my ey]; simpl;
    try reflexivity;
    try (destruct sx; reflexivity); try (destruct sy; reflexivity);
    try (destruct sx, sy; reflexivity).
  rewrite (Z.compare_antisym ex ey).
  destruct sx, sy; simpl; try reflexivity;
    destruct (ex ?= ey)%Z; simpl; try reflexivity;
    rewrite (Pos.compare_cont_antisym mx my Eq); simpl;
    try rewrite CompOpp_involutive; reflexivity.
Qed.

Lemma is_nan_SF x :
  is_nan x = match Prim2SF x with S754_nan => true | _ => false end.
Proof.
  unfold is_nan. rewrite FloatAxioms.eqb_spec. unfold SFeqb.
  destruct (Prim2SF x) eqn:E; try (rewrite SFcompare_refl by discriminate); reflexivity.
Qed.

Lemma is_infinity_SF x :
  is_infinity x = match Prim2SF x with S754_infinity _ => true | _ => false end.
Proof.
  unfold is_infinity. rewrite FloatAxioms.eqb_spec, abs_spec.
  destruct (Prim2SF x) as [s|s| |s m e]; try reflexivity.
Qed.

Lemma is_finite_SF x :
  is_finite x =
  match Prim2SF x with
  | S754_zero _ | S754_finite _ _ _ => true
  | _ => false
  end.
Proof.
  unfold is_finite. rewrite is_nan_SF, is_infinity_SF.
  destruct (Prim2SF x); reflexivity.
Qed.

Lemma is_finite_not_nan x : is_finite x = true -> is_nan x = false.
Proof. rewrite is_finite_SF, is_nan_SF. destruct (Prim2SF x); congruence. Qed.

Lemma ltb_false_leb x y :
  is_nan x = false -> is_nan y = false -> (x <? y) = false -> (y <=? x) = true.
Proof.
  rewrite !is_nan_SF, FloatAxioms.ltb_spec, FloatAxioms.leb_spec. unfold SFltb, SFleb.
  rewrite (SFcompare_antisym (Prim2SF x) (Prim2SF y)).
  intros Hx Hy.
  destruct (Prim2SF x) as [sx|sx| |sx mx ex], (Prim2SF y) as [sy|sy| |sy my ey];
    try discriminate;
    destruct (SFcompare _ _) as [[]|] eqn:E; simpl; try congruence;
    simpl in E; discriminate.
Qed.

Lemma ltb_leb x y : (x <? y) = true -> (x <=? y) = true.
Proof.
  rewrite FloatAxioms.ltb_spec, FloatAxioms.leb_spec. unfold SFltb, SFleb.
  destruct (SFcompare _ _) as [[]|]; congruence.
Qed.

Lemma leb_refl x : is_nan x = false -> (x <=? x) = true.
Proof.
  rewrite is_nan_SF, FloatAxioms.leb_spec. unfold SFleb. intros H.
  rewrite SFcompare_refl; [reflexivity|]. intros E. rewrite E in H. discriminate.
Qed.

Lemma ltb_not_nan_l x y : (x <? y) = true -> is_nan x = false.
Proof.
  rewrite FloatAxioms.ltb_spec, is_nan_SF. unfold SFltb.
  destruct (Prim2SF x); try reflexivity. simpl. discriminate.
Qed.

Lemma ltb_not_nan_r x y : (x <? y) = true -> is_nan y = false.
Proof.
  rewrite FloatAxioms.ltb_spec, is_nan_SF. unfold SFltb.
  destruct (Prim2SF y); try reflexivity. destruct (Prim2SF x); simpl; discriminate.
Qed.


Lemma digits2_pos_size p : digits2_pos p = Pos.size p.
Proof. induction p; simpl; congruence. Qed.

Lemma digits2_pos_bounds p :
  (2 ^ (Z.pos (digits2_pos p) - 1) <= Z.pos p < 2 ^ Z.pos (digits2_pos p))%Z.
Proof.
  induction p as [p IH|p IH|]; simpl digits2_pos.
  - rewrite Pos2Z.inj_succ.
    replace (Z.succ (Z.pos (digits2_pos p)) - 1)%Z with (Z.succ (Z.pos (digits2_pos p) - 1))%Z by lia.
    rewrite !Z.pow_succ_r by lia. lia.
  - rewrite Pos2Z.inj_succ.
    replace (Z.succ (Z.pos (digits2_pos p)) - 1)%Z with (Z.succ (Z.pos (digits2_pos p) - 1))%Z by lia.
    rewrite !Z.pow_succ_r by lia. lia.
  - simpl. lia.
Qed.

Lemma digits2_pos_le p k :
  (0 <= k)%Z -> (Z.pos p < 2 ^ k)%Z -> (Z.pos (digits2_pos p) <= k)%Z.
Proof.
  intros Hk Hp. destruct (digits2_pos_bounds p) as [Hlo _].
  destruct (Z_le_gt_dec (Z.pos (digits2_pos p)) k) as [|Hgt]; [assumption|].
  exfalso.
  assert (2 ^ k <= 2 ^ (Z.pos (digits2_pos p) - 1))%Z by (apply Z.pow_le_mono_r; lia).
  lia.
Qed.

Lemma iter_xO_spec d p : Z.pos (Pos.iter xO p d) = (Z.pos p * 2 ^ Z.pos d)%Z.
Proof.
  induction d as [|d IH] using Pos.peano_ind.
  - simpl. lia.
  - rewrite Pos.iter_succ, Pos2Z.inj_succ, Z.pow_succ_r by lia.
    rewrite Pos2Z.inj_xO, IH. lia.
Qed.

Lemma digits2_pos_iter_xO d p :
  digits2_pos (Pos.iter xO p d) = (digits2_pos p + d)%positive.
Proof.
  induction d as [|d IH] using Pos.peano_ind.
  - simpl. lia.
  - rewrite Pos.iter_succ. simpl. rewrite IH. lia.
Qed.

(** A mantissa that is already canonical is not rounded. *)
Lemma binary_round_aux_canonical s m e :
  bounded prec emax m e = true ->
  binary_round_aux prec emax s (Z.pos m) e loc_Exact = S754_finite s m e.
Proof.
  unfold bounded, canonical_mantissa. intros H.
  apply andb_prop in H. destruct H as [Hc He].
  apply Z.eqb_eq in Hc.
  unfold binary_round_aux, shr_fexp. simpl Zdigits2. rewrite Hc, Z.sub_diag.
  cbn [shr shr_record_of_loc shr_m shr_r shr_s loc_of_shr_record
       round_nearest_even Zdigits2].
  rewrite Hc, Z.sub_diag.
  cbn [shr shr_record_of_loc shr_m]. rewrite He. reflexivity.
Qed.

Lemma fexp_small k : (-1021 <= k <= 53)%Z -> fexp prec emax k = (k - 53)%Z.
Proof. unfold fexp, emin, prec, emax. lia. Qed.


Lemma binary_round_small s p :
  (Z.pos (digits2_pos p) <= 53)%Z ->
  binary_round prec emax s p 0 = int_repr s p
  /\ valid_binary (int_repr s p) = true.
Proof.
  intros Hd. unfold binary_round, int_repr.
  rewrite Z.add_0_r, fexp_small by lia.
  assert (Hb : let '(m, e) := shl_align p 0 (Z.pos (digits2_pos p) - 53) in
               bounded prec emax m e = true).
  { unfold shl_align. rewrite Z.sub_0_r.
    destruct (Z.pos (digits2_pos p) - 53)%Z as [|d|d] eqn:E; try lia.
    - unfold bounded, canonical_mantissa. rewrite Z.add_0_r, fexp_small by lia.
      rewrite E. reflexivity.
    - unfold bounded, canonical_mantissa.
      rewrite digits2_pos_iter_xO, fexp_small by lia.
      apply andb_true_intro. split; [apply Z.eqb_eq; lia|].
      apply Z.leb_le. unfold emax, prec. lia. }
  destruct (shl_align p 0 (Z.pos (digits2_pos p) - 53)) as [m e].
  split; [apply binary_round_aux_canonical; assumption | exact Hb].
Qed.

Lemma int_repr_value s p :
  (Z.pos (digits2_pos p) <= 53)%Z ->
  exists m e, int_repr s p = S754_finite s m e
    /\ (e = Z.pos (digits2_pos p) - 53)%Z
    /\ (Z.pos m = Z.pos p * 2 ^ (- e))%Z.
Proof.
  intros Hd. unfold int_repr, shl_align. rewrite Z.sub_0_r.
  destruct (Z.pos (digits2_pos p) - 53)%Z as [|d|d] eqn:E; try lia.
  - exists p, 0%Z. repeat split. simpl. lia.
  - exists (Pos.iter xO p d), (Z.neg d). repeat split.
    rewrite iter_xO_spec. reflexivity.
Qed.

Lemma Prim2SF_of_integer_pos s p :
  (Z.pos (digits2_pos p) <= 53)%Z ->
  Prim2SF (of_integer s (Z.pos p)) = int_repr false p.
Proof.
  intros Hd. unfold of_integer. simpl binary_normalize.
  destruct (binary_round_small false p Hd) as [-> Hv].
  apply Prim2SF_SF2Prim, Hv.
Qed.

Lemma Prim2SF_of_integer_neg s p :
  (Z.pos (digits2_pos p) <= 53)%Z ->
  Prim2SF (of_integer s (Z.neg p)) = int_repr true p.
Proof.
  intros Hd. unfold of_integer. simpl binary_normalize.
  destruct (binary_round_small true p Hd) as [-> Hv].
  apply Prim2SF_SF2Prim, Hv.
Qed.

Lemma Prim2SF_of_integer_zero s : Prim2SF (of_integer s 0) = S754_zero s.
Proof. destruct s; reflexivity. Qed.

Lemma is_integer_int_repr s p :
  (Z.pos (digits2_pos p) <= 53)%Z ->
  match int_repr s p with
  | S754_finite _ m e => ((0 <=? e) || (Z.pos m mod 2 ^ (- e) =? 0))%Z = true
  | _ => False
  end.
Proof.
  intros Hd. destruct (int_repr_value s p Hd) as (m & e & -> & He & Hm).
  apply orb_true_intro. right. apply Z.eqb_eq. rewrite Hm.
  apply Z.mod_mul. apply Z.pow_nonzero; lia.
Qed.

(** The integer to which [Math.round] rounds is small. *)
Lemma round_half_up_bound s m e :
  (e < 0)%Z -> (Z.pos m < 2 ^ 53)%Z ->
  (- 2 ^ 52 <= round_half_up s m e <= 2 ^ 52)%Z.
Proof.
  intros He Hm. unfold round_half_up.
  set (k := (- e)%Z). assert (Hk : (1 <= k)%Z) by lia.
  assert (H2k : (2 <= 2 ^ k)%Z).
  { change 2%Z with (2 ^ 1)%Z at 1. apply Z.pow_le_mono_r; lia. }
  rewrite Z.pow_add_r by lia. change (2 ^ 1)%Z with 2%Z.
  assert (Hpos : (0 < 2 ^ k * 2)%Z) by lia.
  split.
  - apply Z.div_le_lower_bound; [lia|].
    destruct s; simpl cond_Zopp; nia.
  - apply Z.div_le_upper_bound; [lia|].
    destruct s; simpl cond_Zopp; nia.
Qed.

Lemma valid_mantissa_lt s m e :
  valid_binary (S754_finite s m e) = true -> (Z.pos m < 2 ^ 53)%Z.
Proof.
  simpl. unfold bounded, canonical_mantissa. intros H.
  apply andb_prop in H. destruct H as [Hc _]. apply Z.eqb_eq in Hc.
  destruct (digits2_pos_bounds m) as [_ Hhi].
  assert (Z.pos (digits2_pos m) <= 53)%Z.
  { unfold fexp, emin, prec, emax in Hc. lia. }
  assert (2 ^ Z.pos (digits2_pos m) <= 2 ^ 53)%Z by (apply Z.pow_le_mono_r; lia).
  lia.
Qed.

Lemma Math_round_integer x :
  Number_isFinite (Math_round x) = true ->
  Number_isInteger (Math_round x) = true.
Proof.
  unfold Number_isFinite, Number_isInteger, Math_round.
  destruct (Prim2SF x) as [s0|s0| |s m e] eqn:E.
  - rewrite E. reflexivity.
  - rewrite is_finite_SF, E. discriminate.
  - rewrite is_finite_SF, E. discriminate.
  - destruct (0 <=? e)%Z eqn:He.
    + rewrite E, He. reflexivity.
    + intros _. apply Z.leb_gt in He.
      assert (Hm : (Z.pos m < 2 ^ 53)%Z).
      { apply (valid_mantissa_lt s m e). rewrite <- E. apply Prim2SF_valid. }
      pose proof (round_half_up_bound s m e He Hm) as Hn.
      destruct (round_half_up s m e) as [|p|p].
      * rewrite Prim2SF_of_integer_zero. reflexivity.
      * assert (Hd : (Z.pos (digits2_pos p) <= 53)%Z) by (apply digits2_pos_le; lia).
        rewrite Prim2SF_of_integer_pos by assumption.
        pose proof (is_integer_int_repr false p Hd) as Hi.
        destruct (int_repr false p); tauto.
      * assert (Hd : (Z.pos (digits2_pos p) <= 53)%Z) by (apply digits2_pos_le; lia).
        rewrite Prim2SF_of_integer_neg by assumption.
        pose proof (is_integer_int_repr true p Hd) as Hi.
        destruct (int_repr true p); tauto.
Qed.

(** [x - x] is [+0], or NaN when [x] is not finite. *)
Lemma sub_diag_SF x :
  Prim2SF (x - x) = S754_zero false \/ Prim2SF (x - x) = S754_nan.
Proof.
  rewrite sub_spec. unfold SF64sub.
  destruct (Prim2SF x) as [s|s| |s m e]; simpl.
  - left. destruct s; reflexivity.
  - right. destruct s; reflexivity.
  - now right.
  - left. unfold shl_align. rewrite Z.min_id, Z.sub_diag. reflexivity.
Qed.

Lemma sub_zero_r x : x - 0 = x.
Proof.
  apply Prim2SF_inj. rewrite sub_spec. unfold SF64sub.
  change (Prim2SF 0) with (S754_zero false).
  destruct (Prim2SF x) as [[]|[]| |s m e]; reflexivity.
Qed.

(** The sign of what [binary_round_aux] returns is the sign it is given. *)

Lemma binary_round_aux_sign s m e l :
  has_sign s (binary_round_aux prec emax s m e l).
Proof.
  unfold binary_round_aux.
  destruct (shr_fexp prec emax m e l) as [mrs' e'].
  destruct (shr_fexp prec emax _ e' loc_Exact) as [mrs'' e''].
  destruct (shr_m mrs''); [reflexivity| |exact I].
  destruct (e'' <=? emax - prec)%Z; reflexivity.
Qed.



Lemma truthy_nonzero x : truthy x = true -> (x =? 0) = false.
Proof. unfold truthy. destruct (x =? 0); simpl; congruence. Qed.


(** Multiplying [+0] by a finite number gives a zero, and adding a zero
    to [+0] gives [+0]. *)
Lemma add_zero_mul_zero y :
  is_finite y = true -> 0 + 0 * y = 0.
Proof.
  rewrite is_finite_SF. intros H.
  apply Prim2SF_inj. rewrite add_spec, mul_spec.
  change (Prim2SF 0) with (S754_zero false).
  destruct (Prim2SF y) as [[]|[]| |[] m e]; try discriminate; reflexivity.
Qed.

Lemma zero_mul_not_finite y :
  is_finite y = false -> is_nan (0 + 0 * y) = true.
Proof.
  rewrite is_finite_SF, is_nan_SF, add_spec, mul_spec.
  change (Prim2SF 0) with (S754_zero false).
  destruct (Prim2SF y) as [[]|[]| |[] m e]; try discriminate; reflexivity.
Qed.

Lemma canonical_digits m e :
  bounded prec emax m e = true ->
  (-1074 <= e <= 971)%Z
  /\ (Z.pos (digits2_pos m) <= 53)%Z
  /\ (-1074 < e -> Z.pos (digits2_pos m) = 53)%Z.
Proof.
  unfold bounded, canonical_mantissa, fexp, emin, prec, emax. intros H.
  apply andb_prop in H. destruct H as [Hc He].
  apply Z.eqb_eq in Hc. apply Z.leb_le in He. lia.
Qed.

Lemma Prim2SF_1 : Prim2SF 1 = S754_finite false 4503599627370496 (-52).
Proof. reflexivity. Qed.

Lemma div_eucl_exact a b : (0 < b)%Z -> Z.div_eucl (a * b) b = (a, 0%Z).
Proof.
  intros Hb. pose proof (Z.div_mul a b ltac:(lia)) as Hq.
  pose proof (Z.mod_mul a b ltac:(lia)) as Hr.
  unfold Z.div, Z.modulo in *. destruct (Z.div_eucl (a * b) b). simpl in *.
  congruence.
Qed.

(** Division by one is exact. *)
Lemma div_one x : x / 1 = x.
Proof.
  apply Prim2SF_inj. rewrite div_spec, Prim2SF_1. unfold SF64div, SFdiv.
  pose proof (Prim2SF_valid x) as Hv.
  destruct (Prim2SF x) as [[]|[]| |s m e]; try reflexivity.
  simpl in Hv. pose proof (canonical_digits m e Hv) as (He & Hd & Hn).
  assert (Hs : xorb s false = s) by (destruct s; reflexivity). rewrite Hs.
  unfold SFdiv_core_binary.
  change (Zdigits2 (Z.pos 4503599627370496)) with 53%Z.
  change (Zdigits2 (Z.pos m)) with (Z.pos (digits2_pos m)).
  destruct (Z.eq_dec e (-1074)) as [E|E].
  - (* the smallest exponent: the quotient is the mantissa itself *)
    subst e.
    replace (Z.min _ _) with (-1074)%Z
      by (unfold fexp, emin, prec, emax; lia).
    change (-1074 - -52 - -1074)%Z with 52%Z.
    cbv beta iota zeta.
    rewrite Z.shiftl_mul_pow2 by lia.
    change (2 ^ 52)%Z with 4503599627370496%Z.
    rewrite div_eucl_exact by reflexivity.
    change (new_location 4503599627370496 0) with loc_Exact.
    apply binary_round_aux_canonical, Hv.
  - (* a normal number: the quotient has one more bit, shifted back *)
    assert (Hd53 : Z.pos (digits2_pos m) = 53%Z) by lia.
    rewrite Hd53.
    replace (Z.min _ _) with (e - 1)%Z
      by (unfold fexp, emin, prec, emax; lia).
    replace (e - -52 - (e - 1))%Z with 53%Z by lia.
    cbv beta iota zeta.
    rewrite Z.shiftl_mul_pow2 by lia.
    change (2 ^ 53)%Z with (2 * 4503599627370496)%Z.
    rewrite Z.mul_assoc, div_eucl_exact by reflexivity.
    change (new_location 4503599627370496 0) with loc_Exact.
    replace (Z.pos m * 2)%Z with (Z.pos (m~0)) by lia.
    unfold binary_round_aux, shr_fexp.
    cbn [Zdigits2 digits2_pos]. rewrite Pos2Z.inj_succ, Hd53.
    replace (fexp prec emax (Z.succ 53 + (e - 1)) - (e - 1))%Z with 1%Z
      by (unfold fexp, emin, prec, emax; lia).
    cbn [shr shr_record_of_loc SpecFloat.iter_pos shr_1 shr_m shr_r shr_s
         loc_of_shr_record round_nearest_even Zdigits2 orb].
    replace (e - 1 + 1)%Z with e by lia.
    rewrite Hd53.
    replace (fexp prec emax (53 + e) - e)%Z with 0%Z
      by (unfold fexp, emin, prec, emax; lia).
    cbn [shr shr_m].
    replace (e <=? emax - prec)%Z with true
      by (symmetry; apply Z.leb_le; unfold emax, prec; lia).
    reflexivity.
Qed.

(** *** The sign of a difference *)

Lemma iter_pos_nat {A : Type} (f : A -> A) p : forall x,
  SpecFloat.iter_pos f p x = Nat.iter (Pos.to_nat p) f x.
Proof.
  induction p as [p IH|p IH|]; intros x; simpl SpecFloat.iter_pos.
  - rewrite !IH, Pos2Nat.inj_xI.
    replace (S (2 * Pos.to_nat p)) with (Pos.to_nat p + (Pos.to_nat p + 1))%nat by lia.
    rewrite !Nat.iter_add. reflexivity.
  - rewrite !IH, Pos2Nat.inj_xO.
    replace (2 * Pos.to_nat p)%nat with (Pos.to_nat p + Pos.to_nat p)%nat by lia.
    rewrite Nat.iter_add. reflexivity.
  - reflexivity.
Qed.

Lemma shr_1_m mrs : (0 <= shr_m mrs)%Z -> shr_m (shr_1 mrs) = (shr_m mrs / 2)%Z.
Proof.
  destruct mrs as [m r s]. simpl. intros Hm.
  destruct m as [|[p|p|]|p]; simpl; try lia; try reflexivity.
  - rewrite Pos2Z.inj_xI. apply Z.div_unique with (r := 1%Z); lia.
  - rewrite Pos2Z.inj_xO. apply Z.div_unique with (r := 0%Z); lia.
Qed.

Lemma shr_iter_m k : forall mrs,
  (0 <= shr_m mrs)%Z ->
  shr_m (Nat.iter k shr_1 mrs) = (shr_m mrs / 2 ^ Z.of_nat k)%Z.
Proof.
  induction k as [|k IH]; intros mrs Hm.
  - simpl. rewrite Z.div_1_r. reflexivity.
  - change (Nat.iter (S k) shr_1 mrs) with (shr_1 (Nat.iter k shr_1 mrs)).
    rewrite shr_1_m.
    + rewrite IH by assumption. rewrite Nat2Z.inj_succ, Z.pow_succ_r by lia.
      rewrite Z.div_div by lia. f_equal. lia.
    + rewrite IH by assumption. apply Z.div_pos; lia.
Qed.

Lemma shr_record_of_loc_m m l : shr_m (shr_record_of_loc m l) = m.
Proof. destruct l as [|[]]; reflexivity. Qed.

(** Rounding a positive mantissa whose exponent is not below the smallest
    one never reaches zero. *)
Lemma shr_fexp_pos m e l :
  (-1074 <= e)%Z ->
  (0 < shr_m (fst (shr_fexp prec emax (Z.pos m) e l)))%Z
  /\ (-1074 <= snd (shr_fexp prec emax (Z.pos m) e l))%Z.
Proof.
  intros He. unfold shr_fexp, shr. cbn [Zdigits2].
  destruct (digits2_pos_bounds m) as [Hlo _].
  set (d := Z.pos (digits2_pos m)) in *.
  destruct (fexp prec emax (d + e) - e)%Z as [|n|n] eqn:En; cbn [fst snd].
  - rewrite shr_record_of_loc_m. lia.
  - assert (Hn : Z.pos n = (d - 53)%Z).
    { unfold fexp, emin, prec, emax in En. lia. }
    split; [|lia].
    rewrite iter_pos_nat, shr_iter_m
      by (rewrite shr_record_of_loc_m; lia).
    rewrite shr_record_of_loc_m, positive_nat_Z, Hn.
    apply Z.div_str_pos. split; [apply Z.pow_pos_nonneg; lia|].
    assert (2 ^ (d - 53) <= 2 ^ (d - 1))%Z by (apply Z.pow_le_mono_r; lia).
    lia.
  - rewrite shr_record_of_loc_m. lia.
Qed.

Lemma round_nearest_even_pos m l : (0 < m)%Z -> (0 < round_nearest_even m l)%Z.
Proof.
  intros H. destruct l as [|[]]; simpl; try lia.
  destruct (Z.even m); lia.
Qed.


Lemma binary_round_aux_nonzero s m e l :
  (-1074 <= e)%Z ->
  signed_nonzero s (binary_round_aux prec emax s (Z.pos m) e l).
Proof.
  intros He. unfold binary_round_aux.
  destruct (shr_fexp_pos m e l He) as [H1 H2].
  destruct (shr_fexp prec emax (Z.pos m) e l) as [mrs' e']. cbn [fst snd] in *.
  pose proof (round_nearest_even_pos (shr_m mrs') (loc_of_shr_record mrs') H1) as H3.
  destruct (round_nearest_even (shr_m mrs') (loc_of_shr_record mrs')) as [|m'|m'];
    try lia.
  destruct (shr_fexp_pos m' e' loc_Exact H2) as [H4 _].
  destruct (shr_fexp prec emax (Z.pos m') e' loc_Exact) as [mrs'' e''].
  cbn [fst] in H4.
  destruct (shr_m mrs''); try lia.
  destruct (e'' <=? emax - prec)%Z; reflexivity.
Qed.

Lemma binary_round_nonzero s m e :
  (-1074 <= e)%Z -> signed_nonzero s (binary_round prec emax s m e).
Proof.
  intros He. unfold binary_round, shl_align.
  destruct (fexp prec emax (Z.pos (digits2_pos m) + e) - e)%Z eqn:E;
    apply binary_round_aux_nonzero; try assumption.
  unfold fexp, emin, prec, emax. lia.
Qed.

Lemma binary_round_sign s m e : has_sign s (binary_round prec emax s m e).
Proof.
  unfold binary_round.
  destruct (shl_align m e _) as [mz ez]. apply binary_round_aux_sign.
Qed.

(** The value of an aligned mantissa. *)
Lemma shl_align_value m e ez :
  (ez <= e)%Z ->
  Z.pos (fst (shl_align m e ez)) = (Z.pos m * 2 ^ (e - ez))%Z.
Proof.
  intros H. unfold shl_align.
  destruct (ez - e)%Z as [|d|d] eqn:E; cbn [fst]; try lia.
  - replace (e - ez)%Z with 0%Z by lia. lia.
  - rewrite iter_xO_spec. f_equal. f_equal. lia.
Qed.

(** On valid numbers the comparison of exponents, then of mantissas, is the
    comparison of the aligned mantissas. *)
Lemma compare_aligned m1 e1 m2 e2 :
  bounded prec emax m1 e1 = true -> bounded prec emax m2 e2 = true ->
  match (e1 ?= e2)%Z with
  | Eq => Pos.compare_cont Eq m1 m2
  | Lt => Lt
  | Gt => Gt
  end
  = (Z.pos (fst (shl_align m1 e1 (Z.min e1 e2)))
     ?= Z.pos (fst (shl_align m2 e2 (Z.min e1 e2))))%Z.
Proof.
  intros H1 H2.
  destruct (canonical_digits m1 e1 H1) as (He1 & Hd1 & Hn1).
  destruct (canonical_digits m2 e2 H2) as (He2 & Hd2 & Hn2).
  destruct (digits2_pos_bounds m1) as [Hlo1 Hhi1].
  destruct (digits2_pos_bounds m2) as [Hlo2 Hhi2].
  rewrite !shl_align_value by lia.
  assert (P53 : forall d, (d <= 53 -> 2 ^ d <= 2 ^ 53)%Z)
    by (intros; apply Z.pow_le_mono_r; lia).
  destruct (Z.compare_spec e1 e2) as [E|E|E].
  - subst e2. rewrite Z.min_id, Z.sub_diag, !Z.mul_1_r. reflexivity.
  - rewrite Z.min_l, Z.sub_diag, Z.mul_1_r by lia.
    symmetry. apply Z.compare_lt_iff.
    rewrite Hn2 in Hlo2 by lia. change (2 ^ (53 - 1))%Z with (2 ^ 52)%Z in Hlo2.
    specialize (P53 _ Hd1).
    assert (2 ^ 1 <= 2 ^ (e2 - e1))%Z by (apply Z.pow_le_mono_r; lia).
    change (2 ^ 1)%Z with 2%Z in *.
    assert (2 ^ 53 = 2 * 2 ^ 52)%Z by reflexivity.
    generalize dependent (2 ^ 52)%Z. generalize dependent (2 ^ 53)%Z.
    generalize dependent (2 ^ (e2 - e1))%Z. intros. nia.
  - rewrite Z.min_r, Z.sub_diag, Z.mul_1_r by lia.
    symmetry. apply Z.compare_gt_iff.
    rewrite Hn1 in Hlo1 by lia. change (2 ^ (53 - 1))%Z with (2 ^ 52)%Z in Hlo1.
    specialize (P53 _ Hd2).
    assert (2 ^ 1 <= 2 ^ (e1 - e2))%Z by (apply Z.pow_le_mono_r; lia).
    change (2 ^ 1)%Z with 2%Z in *.
    assert (2 ^ 53 = 2 * 2 ^ 52)%Z by reflexivity.
    generalize dependent (2 ^ 52)%Z. generalize dependent (2 ^ 53)%Z.
    generalize dependent (2 ^ (e1 - e2))%Z. intros. nia.
Qed.

Lemma SFltb_zero_l x :
  SFltb (S754_zero false) x = true <-> signed_nonzero false x.
Proof.
  unfold SFltb. destruct x as [s|[]| |[] m e]; simpl; split;
    congruence || tauto || discriminate.
Qed.

(** [x - y] is positive exactly when [y < x]. *)
Lemma sub_pos_iff x y : (0 <? x - y) = (y <? x).
Proof.
  rewrite !FloatAxioms.ltb_spec, sub_spec. change (Prim2SF 0) with (S754_zero false).
  pose proof (Prim2SF_valid x) as Hx. pose proof (Prim2SF_valid y) as Hy.
  destruct (Prim2SF x) as [sx|sx| |sx mx ex], (Prim2SF y) as [sy|sy| |sy my ey];
    try (destruct sx; reflexivity); try (destruct sy; reflexivity);
    try (destruct sx, sy; reflexivity); try reflexivity.
  simpl in Hx, Hy.
  destruct (canonical_digits mx ex Hx) as (Hex & _).
  destruct (canonical_digits my ey Hy) as (Hey & _).
  unfold SF64sub, SFsub.
  pose proof (compare_aligned my ey mx ex Hy Hx) as Hc.
  rewrite (Z.min_comm ey ex) in Hc.
  set (X := Z.pos (fst (shl_align mx ex (Z.min ex ey)))) in *.
  set (Y := Z.pos (fst (shl_align my ey (Z.min ex ey)))) in *.
  assert (HX : (0 < X)%Z) by (unfold X; lia).
  assert (HY : (0 < Y)%Z) by (unfold Y; lia).
  assert (Hmin : (-1074 <= Z.min ex ey)%Z) by lia.
  set (D := (cond_Zopp sx X - cond_Zopp sy Y)%Z).
  assert (Hsign : SFltb (S754_zero false)
                    (binary_normalize prec emax D (Z.min ex ey) false)
                  = (0 <? D)%Z).
  { unfold binary_normalize. destruct D as [|p|p] eqn:ED.
    - reflexivity.
    - pose proof (binary_round_nonzero false p _ Hmin) as Hr.
      apply SFltb_zero_l in Hr. rewrite Hr. reflexivity.
    - pose proof (binary_round_sign true p (Z.min ex ey)) as Hr.
      destruct (binary_round prec emax true p (Z.min ex ey)) as [s|s| |s m e];
        simpl in Hr; subst; reflexivity. }
  rewrite Hsign. unfold SFltb, SFcompare. subst D.
  assert (Horder : match (ey ?= ex)%Z with
                   | Eq => Pos.compare_cont Eq my mx = (Y ?= X)%Z
                   | Lt => (Y < X)%Z
                   | Gt => (X < Y)%Z
                   end).
  { destruct (ey ?= ex)%Z; [exact Hc| |].
    - apply Z.compare_lt_iff. symmetry. exact Hc.
    - apply Z.compare_gt_iff. symmetry. exact Hc. }
  clear Hc.
  destruct sx, sy; cbn [cond_Zopp];
    destruct (ey ?= ex)%Z; try rewrite Horder;
    try destruct (Z.compare_spec Y X); cbn [CompOpp];
    try match goal with
    | |- _ = (0 <? ?d)%Z => destruct (Z.ltb_spec 0 d)
    end; try reflexivity; try lia.
Qed.

(** ** Properties of the scoring pipeline *)

(** *** Clamping *)

Lemma clampScore_cases v :
  clampScore v = 0 \/ clampScore v = 100
  \/ (clampScore v = v /\ is_finite v = true
      /\ (v <? 0) = false /\ (100 <? v) = false).
Proof.
  unfold clampScore, Number_isFinite.
  destruct (is_finite v) eqn:Hf; simpl; [|now left].
  destruct (v <? 0) eqn:H0; [now left|].
  destruct (100 <? v) eqn:H1; [now right; left|].
  right; right. repeat split; assumption.
Qed.

Lemma clampScore_range v :
  (0 <=? clampScore v) = true /\ (clampScore v <=? 100) = true.
Proof.
  destruct (clampScore_cases v) as [-> | [-> | (-> & Hf & H0 & H1)]];
    [split; reflexivity | split; reflexivity |].
  pose proof (is_finite_not_nan v Hf) as Hn.
  split; apply ltb_false_leb; auto.
Qed.

Lemma clampScore_round_integer x :
  Number_isInteger (clampScore (Math_round x)) = true.
Proof.
  destruct (clampScore_cases (Math_round x)) as [-> | [-> | (-> & Hf & _)]];
    [reflexivity | reflexivity |].
  apply Math_round_integer, Hf.
Qed.

Lemma clamp01_range v :
  (0 <=? clamp01 v) = true /\ (clamp01 v <=? 1) = true.
Proof.
  unfold clamp01, Number_isFinite.
  destruct (is_finite v) eqn:Hf; simpl; [|split; reflexivity].
  destruct (v <? 0) eqn:H0; [split; reflexivity|].
  destruct (1 <? v) eqn:H1; [split; reflexivity|].
  pose proof (is_finite_not_nan v Hf) as Hn.
  split; apply ltb_false_leb; auto.
Qed.

Lemma clamp01_cases value :
  clamp01 value
  = if Number_isFinite value then Spec.clampUnit value else 0.
Proof.
  unfold clamp01, Spec.clampUnit.
  destruct (Number_isFinite value); reflexivity.
Qed.

Lemma computeScore_shape metrics version :
  exists raw, computeScore metrics version = clampScore (Math_round raw).
Proof. destruct version; eexists; reflexivity. Qed.



Lemma of_integer_in_score_values n :
  (0 <= n <= 100)%Z -> In (of_integer false n) score_values.
Proof.
  intros Hn. unfold score_values. apply in_or_app. left.
  replace n with (Z.of_nat (Z.to_nat n)) by lia.
  apply (in_map (fun n => of_integer false (Z.of_nat n))).
  apply in_seq. lia.
Qed.

Lemma Prim2SF_100 : Prim2SF 100 = S754_finite false 7036874417766400 (-46).
Proof. reflexivity. Qed.

Lemma Prim2SF_0 : Prim2SF 0 = S754_zero false.
Proof. reflexivity. Qed.

Lemma float_of_SF x y : Prim2SF x = Prim2SF y -> x = y.
Proof. apply Prim2SF_inj. Qed.

Lemma SFltb_pos_pos m1 e1 m2 e2 :
  SFltb (S754_finite false m1 e1) (S754_finite false m2 e2) =
  match (e1 ?= e2)%Z with
  | Lt => true
  | Gt => false
  | Eq => (m1 <? m2)%positive
  end.
Proof.
  unfold SFltb, SFcompare, Pos.ltb, Pos.compare.
  destruct (e1 ?= e2)%Z; try reflexivity.
Qed.

Lemma clamped_round_in_score_values x :
  In (clampScore (Math_round x)) score_values.
Proof.
  destruct (clampScore_cases (Math_round x)) as [-> | [-> | (-> & Hf & H0 & H1)]].
  - apply (of_integer_in_score_values 0). lia.
  - apply (of_integer_in_score_values 100). lia.
  - revert Hf H0 H1. unfold Math_round.
    rewrite is_finite_SF, !FloatAxioms.ltb_spec, Prim2SF_100, Prim2SF_0.
    destruct (Prim2SF x) as [s0|s0| |s m e] eqn:E.
    + (* a zero *)
      intros _ _ _. rewrite <- (SF2Prim_Prim2SF x), E.
      destruct s0.
      * unfold score_values. apply in_or_app. right. left. reflexivity.
      * apply (of_integer_in_score_values 0). lia.
    + rewrite E. discriminate.
    + rewrite E. discriminate.
    + destruct (0 <=? e)%Z eqn:He.
      * (* an integral value of 2^52 or more *)
        rewrite E. apply Z.leb_le in He.
        destruct s; [discriminate|]. intros _ _.
        rewrite SFltb_pos_pos.
        destruct (Z.compare_spec (-46) e); try discriminate; lia.
      * apply Z.leb_gt in He.
        assert (Hm : (Z.pos m < 2 ^ 53)%Z).
        { apply (valid_mantissa_lt s m e). rewrite <- E. apply Prim2SF_valid. }
        pose proof (round_half_up_bound s m e He Hm) as Hn.
        destruct (round_half_up s m e) as [|p|p].
        -- intros _ _ _. destruct s.
           ++ unfold score_values. apply in_or_app. right. left. reflexivity.
           ++ apply (of_integer_in_score_values 0). lia.
        -- assert (Hd : (Z.pos (digits2_pos p) <= 53)%Z) by (apply digits2_pos_le; lia).
           rewrite Prim2SF_of_integer_pos by assumption.
           destruct (int_repr_value false p Hd) as (m' & e' & -> & He' & Hm').
           intros _ _. rewrite SFltb_pos_pos.
           destruct (digits2_pos_bounds p) as [_ Hhi].
           intros H1.
           change (of_integer s (Z.pos p)) with (of_integer false (Z.pos p)).
           apply of_integer_in_score_values.
           destruct (Z.compare_spec (-46) e') as [Heq|Hlt|Hgt]; try discriminate.
           ++ apply Pos.ltb_ge in H1. subst e'. rewrite <- Heq in Hm'.
              change (- -46)%Z with 46%Z in Hm'. 
              assert (H46 : (7036874417766400 = 100 * 2 ^ 46)%Z) by reflexivity.
              assert (Hpow : (0 < 2 ^ 46)%Z) by reflexivity.
              assert (Hle : (Z.pos m' <= 7036874417766400)%Z)
                by (apply Pos2Z.pos_le_pos, H1).
              rewrite Hm', H46 in Hle. clear - Hle Hpow.
              generalize dependent (2 ^ 46)%Z. intros. nia.
           ++ assert (Z.pos (digits2_pos p) <= 6)%Z by lia.
              assert (2 ^ Z.pos (digits2_pos p) <= 2 ^ 6)%Z by (apply Z.pow_le_mono_r; lia).
              lia.
        -- assert (Hd : (Z.pos (digits2_pos p) <= 53)%Z) by (apply digits2_pos_le; lia).
           rewrite Prim2SF_of_integer_neg by assumption.
           destruct (int_repr_value true p Hd) as (m' & e' & -> & _).
           intros _ H0. discriminate.
Qed.

(** *** Dictionaries *)

Lemma Dict_get_set {V : Type} (d : Dict.t V) k v k' :
  Dict.get (Dict.set d k v) k' =
  if String.eqb k k' then Some v else Dict.get d k'.
Proof.
  induction d as [|[k0 x] rest IH]; simpl.
  - reflexivity.
  - destruct (String.eqb k0 k) eqn:E0; simpl.
    + apply String.eqb_eq in E0. subst k0.
      destruct (String.eqb k k'); reflexivity.
    + rewrite IH. destruct (String.eqb k0 k') eqn:E1; [|reflexivity].
      apply String.eqb_eq in E1. subst k0.
      rewrite String.eqb_sym in E0. rewrite E0. reflexivity.
Qed.

(** *** The trend builder *)



Lemma groupSession_get acc pre session d :
  Dict.get acc d = nonEmpty (Spec.sessionsOn pre d) ->
  Dict.get (groupSession acc session) d
  = nonEmpty (Spec.sessionsOn (pre ++ [session]) d).
Proof.
  intros H. unfold groupSession, Spec.sessionsOn in *.
  rewrite filter_app. simpl.
  destruct (String.eqb (date session) d) eqn:E.
  - apply String.eqb_eq in E. subst d. rewrite H.
    destruct (filter _ pre) as [|x l]; simpl;
      rewrite Dict_get_set, String.eqb_refl; reflexivity.
  - rewrite app_nil_r.
    destruct (Dict.get acc (date session));
      rewrite Dict_get_set, E; exact H.
Qed.

Lemma sessionsByDay_get rest : forall pre acc,
  (forall d, Dict.get acc d = nonEmpty (Spec.sessionsOn pre d)) ->
  forall d, Dict.get (fold_left groupSession rest acc) d
            = nonEmpty (Spec.sessionsOn (pre ++ rest) d).
Proof.
  induction rest as [|s rest IH]; intros pre acc H d; simpl.
  - rewrite app_nil_r. apply H.
  - replace (pre ++ s :: rest) with ((pre ++ [s]) ++ rest)
      by (rewrite <- app_assoc; reflexivity).
    apply IH. intros d'. apply groupSession_get, H.
Qed.

Lemma trend_loop sessions version dates : forall trend lastScore,
  fst (fold_left (trendStep version (fold_left groupSession sessions []))
         dates (trend, lastScore))
  = trend ++ Spec.gapFilled sessions version lastScore dates.
Proof.
  induction dates as [|d rest IH]; intros trend lastScore.
  - simpl. rewrite app_nil_r. reflexivity.
  - cbn [fold_left Spec.gapFilled]. unfold trendStep at 2.
    rewrite (sessionsByDay_get sessions [] [] (fun _ => eq_refl) d).
    cbn [app].
    destruct (Spec.sessionsOn sessions d) as [|x l]; cbn [nonEmpty];
      rewrite IH, <- app_assoc; reflexivity.
Qed.

Lemma rawTrend_gapFilled sessions dates fallbackScore version :
  rawTrend sessions dates fallbackScore version
  = Spec.gapFilled sessions version fallbackScore dates.
Proof. unfold rawTrend. rewrite trend_loop. reflexivity. Qed.

Lemma gapFilled_length sessions version dates : forall previous,
  List.length (Spec.gapFilled sessions version previous dates)
  = List.length dates.
Proof.
  induction dates as [|d rest IH]; intros previous;
    cbn [Spec.gapFilled]; [reflexivity|].
  destruct (Spec.sessionsOn sessions d); cbn [List.length];
    rewrite IH; reflexivity.
Qed.

Lemma smoothTrend_length trend windowSize :
  List.length (smoothTrend trend windowSize) = List.length trend.
Proof.
  unfold smoothTrend. destruct trend as [|a [|b rest]]; try reflexivity.
  rewrite length_map, length_seq. reflexivity.
Qed.

Lemma gapFilled_values sessions version dates : forall previous,
  In previous score_values ->
  Forall (fun v => In v score_values)
    (Spec.gapFilled sessions version previous dates).
Proof.
  induction dates as [|d rest IH]; intros previous Hp;
    cbn [Spec.gapFilled]; [constructor|].
  destruct (Spec.sessionsOn sessions d) as [|x l]; constructor; auto.
  - destruct (computeScore_shape (computeMetrics (x :: l)) version) as [raw ->].
    apply clamped_round_in_score_values.
  - apply IH.
    destruct (computeScore_shape (computeMetrics (x :: l)) version) as [raw ->].
    apply clamped_round_in_score_values.
Qed.



Lemma mem_In x l : mem x l = true -> In x l.
Proof.
  unfold mem. rewrite existsb_exists. intros (y & Hy & E).
  apply Leibniz.eqb_spec in E. subst y. exact Hy.
Qed.

Lemma score_values_integers :
  forallb Number_isInteger score_values = true.
Proof. vm_compute. reflexivity. Qed.

Lemma pair_sums_closed :
  forallb (fun a => forallb (fun b => mem (0 + a + b) pair_sums) score_values)
    score_values = true.
Proof. vm_compute. reflexivity. Qed.

Lemma pair_average_integer :
  forallb (fun s => Number_isInteger (Math_round (s / of_nat 2))) pair_sums
  = true.
Proof. vm_compute. reflexivity. Qed.

Lemma triple_average_integer :
  forallb (fun s => forallb (fun c =>
      Number_isInteger (Math_round ((s + c) / of_nat 3))) score_values)
    pair_sums = true.
Proof. vm_compute. reflexivity. Qed.

Lemma window_average_integer (window : list number) :
  Forall (fun v => In v score_values) window ->
  (List.length window = 2 \/ List.length window = 3)%nat ->
  Number_isInteger
    (Math_round (sum_by (fun val => val) window
                 / of_nat (List.length window))) = true.
Proof.
  intros Hw Hlen.
  destruct window as [|a [|b [|c [|]]]]; simpl in Hlen; try lia.
  - inversion Hw as [|? ? Ha Hw1]; subst. inversion Hw1 as [|? ? Hb _]; subst.
    pose proof pair_sums_closed as H. rewrite forallb_forall in H.
    specialize (H a Ha). rewrite forallb_forall in H. specialize (H b Hb).
    apply mem_In in H.
    pose proof pair_average_integer as H2. rewrite forallb_forall in H2.
    apply (H2 _ H).
  - inversion Hw as [|? ? Ha Hw1]; subst. inversion Hw1 as [|? ? Hb Hw2]; subst.
    inversion Hw2 as [|? ? Hc _]; subst.
    pose proof pair_sums_closed as H. rewrite forallb_forall in H.
    specialize (H a Ha). rewrite forallb_forall in H. specialize (H b Hb).
    apply mem_In in H.
    pose proof triple_average_integer as H3. rewrite forallb_forall in H3.
    specialize (H3 _ H). rewrite forallb_forall in H3.
    apply (H3 c Hc).
Qed.

Lemma In_firstn_inv {A : Type} (x : A) n l : In x (firstn n l) -> In x l.
Proof.
  intros H. rewrite <- (firstn_skipn n l). apply in_or_app. now left.
Qed.

Lemma In_skipn_inv {A : Type} (x : A) n l : In x (skipn n l) -> In x l.
Proof.
  intros H. rewrite <- (firstn_skipn n l). apply in_or_app. now right.
Qed.

Lemma slice_Forall {A : Type} (P : A -> Prop) l start stop :
  Forall P l -> Forall P (slice l start stop).
Proof.
  intros H. unfold slice. rewrite Forall_forall in *. intros x Hx.
  apply H. apply In_firstn_inv in Hx. apply In_skipn_inv in Hx. exact Hx.
Qed.

Lemma smoothTrend_integers trend :
  Forall (fun v => In v score_values) trend ->
  Forall (fun v => Number_isInteger v = true) (smoothTrend trend 3).
Proof.
  intros H. unfold smoothTrend.
  destruct trend as [|a [|b rest]] eqn:Et; [constructor| |].
  - constructor; [|constructor]. inversion H as [|? ? Ha _]; subst.
    pose proof score_values_integers as Hs. rewrite forallb_forall in Hs.
    apply Hs, Ha.
  - rewrite <- Et in *. assert (Hlen : (2 <= List.length trend)%nat)
      by (rewrite Et; simpl; lia).
    clear Et. rewrite Forall_forall. intros v Hv.
    apply in_map_iff in Hv. destruct Hv as (i & <- & Hi).
    apply in_seq in Hi. unfold smoothAt.
    apply window_average_integer.
    + apply slice_Forall, H.
    + unfold slice. rewrite length_firstn, length_skipn.
      change (3 / 2)%nat with 1%nat. lia.
Qed.

(** *** The moving average *)

Lemma valueAt_firstn (values : list number) : forall i,
  Spec.valueAt values i = firstn 1 (skipn i values).
Proof.
  unfold Spec.valueAt.
  induction values as [|a values IH]; intros [|i]; try reflexivity.
  cbn [nth_error skipn]. apply IH.
Qed.

Lemma firstn_succ_skipn {A : Type} k (l : list A) : forall b,
  firstn (S k) (skipn b l) = firstn 1 (skipn b l) ++ firstn k (skipn (S b) l).
Proof.
  induction l as [|a l IH]; intros [|b].
  - cbn. rewrite firstn_nil. reflexivity.
  - cbn. rewrite firstn_nil. reflexivity.
  - reflexivity.
  - cbn [skipn]. rewrite IH. reflexivity.
Qed.

Lemma firstn_min_length {A : Type} k (l : list A) :
  firstn (Nat.min (List.length l) k) l = firstn k l.
Proof.
  destruct (Nat.le_ge_cases k (List.length l)) as [H|H].
  - rewrite Nat.min_r by exact H. reflexivity.
  - rewrite Nat.min_l by exact H. rewrite firstn_all, firstn_all2 by exact H.
    reflexivity.
Qed.

(** The slice that [smoothTrend] averages at position [i] is the clipped
    window of three around [i]. *)
Lemma window_slice (values : list number) i :
  slice values (i - 1) (Nat.min (List.length values) (i + 1 + 1))
  = Spec.window values i.
Proof.
  unfold slice, Spec.window.
  destruct i as [|b]; rewrite !valueAt_firstn.
  - cbn [Nat.sub Nat.add app]. rewrite Nat.sub_0_r.
    change (skipn 0 values) with values at 1.
    rewrite firstn_min_length.
    rewrite <- (firstn_succ_skipn 1 values 0). reflexivity.
  - replace (S b - 1)%nat with b by lia.
    replace (Nat.min (List.length values) (S b + 1 + 1) - b)%nat
      with (Nat.min (List.length (skipn b values)) 3)
      by (rewrite length_skipn; lia).
    rewrite firstn_min_length.
    rewrite (firstn_succ_skipn 2 values b), (firstn_succ_skipn 1 values (S b)).
    reflexivity.
Qed.

Lemma smoothTrend_movingAverage (values : list number) :
  smoothTrend values 3
  = match values with
    | [_] => values
    | _ => Spec.movingAverage values
    end.
Proof.
  destruct values as [|a [|b rest]]; try reflexivity.
  unfold smoothTrend, Spec.movingAverage.
  apply map_ext. intros i. unfold smoothAt.
  change (3 / 2)%nat with 1%nat. cbv zeta. rewrite window_slice. reflexivity.
Qed.

Lemma movingAverage_length values :
  List.length (Spec.movingAverage values) = List.length values.
Proof.
  unfold Spec.movingAverage. rewrite length_map, length_seq. reflexivity.
Qed.

Lemma single_score_average :
  forallb (fun v => v =? Math_round (Spec.average (Spec.window [v] 0)))
    score_values = true.
Proof. vm_compute. reflexivity. Qed.

Lemma integer_eqb_refl v : Number_isInteger v = true -> (v =? v) = true.
Proof.
  unfold Number_isInteger. rewrite FloatAxioms.eqb_spec. unfold SFeqb.
  destruct (Prim2SF v) as [s|s| |s m e] eqn:E; try discriminate; intros _.
  - reflexivity.
  - rewrite SFcompare_refl; [reflexivity|discriminate].
Qed.

Lemma Forall2_diag {A : Type} (R : A -> A -> Prop) (l : list A) :
  Forall (fun a => R a a) l -> Forall2 R l l.
Proof. induction 1; constructor; assumption. Qed.

(** *** Math.max and Math.min *)

Lemma Math_max_spec a b :
  is_nan a = false -> is_nan b = false ->
  (Math_max a b = a \/ Math_max a b = b)
  /\ (a <=? Math_max a b) = true /\ (b <=? Math_max a b) = true.
Proof.
  intros Ha Hb. unfold Math_max. rewrite Ha, Hb. simpl.
  destruct (a <? b) eqn:Hab.
  - repeat split; auto using ltb_leb, leb_refl.
  - destruct (b <? a) eqn:Hba.
    + repeat split; auto using ltb_leb, leb_refl.
    + destruct (is_neg_zero a);
        repeat split; auto using ltb_false_leb, leb_refl.
Qed.

Lemma Math_min_spec a b :
  is_nan a = false -> is_nan b = false ->
  (Math_min a b = a \/ Math_min a b = b)
  /\ (Math_min a b <=? a) = true /\ (Math_min a b <=? b) = true.
Proof.
  intros Ha Hb. unfold Math_min. rewrite Ha, Hb. simpl.
  destruct (a <? b) eqn:Hab.
  - repeat split; auto using ltb_leb, leb_refl.
  - destruct (b <? a) eqn:Hba.
    + repeat split; auto using ltb_leb, leb_refl.
    + destruct (is_neg_zero a);
        repeat split; auto using ltb_false_leb, leb_refl.
Qed.

Lemma clamp_range value min max :
  is_nan min = false -> is_nan max = false -> (min <=? max) = true ->
  (min <=? TrendForecaster.clamp value min max) = true
  /\ (TrendForecaster.clamp value min max <=? max) = true.
Proof.
  intros Hmin Hmax Hle. unfold TrendForecaster.clamp, Number_isFinite.
  destruct (is_finite value) eqn:Hf; simpl.
  - pose proof (is_finite_not_nan value Hf) as Hv.
    destruct (Math_max_spec min value Hmin Hv) as (Hsel & Hlo & _).
    assert (Ht : is_nan (Math_max min value) = false)
      by (destruct Hsel as [-> | ->]; assumption).
    destruct (Math_min_spec max (Math_max min value) Hmax Ht) as (Hsel' & Hhi & _).
    split; [|exact Hhi].
    destruct Hsel' as [-> | ->]; assumption.
  - split; [apply leb_refl|]; assumption.
Qed.

Lemma ltb_asym x y : (x <? y) = true -> (y <? x) = false.
Proof.
  rewrite !FloatAxioms.ltb_spec. unfold SFltb.
  rewrite (SFcompare_antisym (Prim2SF x) (Prim2SF y)).
  destruct (SFcompare (Prim2SF x) (Prim2SF y)) as [[]|];
    cbn; congruence.
Qed.

(** Two numbers of which neither is below the other are the same number,
    unless they are zeros. *)
Lemma not_ltb_eq x y :
  is_nan x = false -> is_nan y = false -> (y =? 0) = false ->
  (x <? y) = false -> (y <? x) = false -> x = y.
Proof.
  rewrite !is_nan_SF, FloatAxioms.eqb_spec, !FloatAxioms.ltb_spec.
  change (Prim2SF 0) with (S754_zero false).
  intros Hx Hy Hz H1 H2. apply Prim2SF_inj. revert Hx Hy Hz H1 H2.
  unfold SFeqb, SFltb, SFcompare.
  destruct (Prim2SF x) as [[]|[]| |[] mx ex], (Prim2SF y) as [[]|[]| |[] my ey];
    intros; try discriminate; try reflexivity.
  - rewrite (Z.compare_antisym ex ey) in H2.
    change (Pos.compare_cont Eq my mx) with (Pos.compare my mx) in H2.
    change (Pos.compare_cont Eq mx my) with (Pos.compare mx my) in H1.
    rewrite (Pos.compare_antisym mx my) in H2.
    destruct (Z.compare_spec ex ey) as [E|E|E]; try discriminate.
    subst. destruct (Pos.compare_spec mx my); try discriminate.
    subst. reflexivity.
  - rewrite (Z.compare_antisym ex ey) in H2.
    change (Pos.compare_cont Eq my mx) with (Pos.compare my mx) in H2.
    change (Pos.compare_cont Eq mx my) with (Pos.compare mx my) in H1.
    rewrite (Pos.compare_antisym mx my) in H2.
    destruct (Z.compare_spec ex ey) as [E|E|E]; try discriminate.
    subst. destruct (Pos.compare_spec mx my); try discriminate.
    subst. reflexivity.
Qed.

Lemma is_neg_zero_nonzero x : (x =? 0) = false -> is_neg_zero x = false.
Proof. intros H. unfold is_neg_zero. rewrite H. reflexivity. Qed.

(** On a finite value the clamp of the forecaster, [Math.min(max,
    Math.max(min, value))], is the clamp by cases. *)
Lemma clamp_finite value lo hi :
  Number_isFinite value = true ->
  is_nan lo = false -> is_nan hi = false ->
  (lo =? 0) = false -> (hi =? 0) = false ->
  (lo <? hi) = true ->
  TrendForecaster.clamp value lo hi = Spec.clampTo lo hi value.
Proof.
  intros Hf Hlo Hhi Hz Hz' Hlt. unfold TrendForecaster.clamp, Spec.clampTo.
  rewrite Hf. cbn [negb]. pose proof (is_finite_not_nan value Hf) as Hv.
  assert (Hmax : Math_max lo value = if value <? lo then lo else value).
  { unfold Math_max. rewrite Hlo, Hv. cbn [orb].
    rewrite (is_neg_zero_nonzero lo Hz).
    destruct (value <? lo) eqn:E1.
    - rewrite (ltb_asym _ _ E1). reflexivity.
    - destruct (lo <? value) eqn:E2; [reflexivity|].
      symmetry. apply not_ltb_eq; assumption. }
  rewrite Hmax. unfold Math_min.
  destruct (value <? lo) eqn:E1.
  - rewrite Hhi, Hlo. cbn [orb]. rewrite (ltb_asym _ _ Hlt), Hlt. reflexivity.
  - rewrite Hhi, Hv. cbn [orb]. rewrite (is_neg_zero_nonzero hi Hz').
    destruct (hi <? value) eqn:E2; [reflexivity|].
    destruct (value <? hi) eqn:E3; reflexivity.
Qed.

(** *** Churn risk *)


Lemma sub_003 x : x - 0.03 = x + (-0.03).
Proof.
  apply Prim2SF_inj. rewrite sub_spec, add_spec.
  destruct (Prim2SF x) as [[]|[]| |s m e]; reflexivity.
Qed.

Lemma last_default {A : Type} (l : list A) a d d' :
  last (a :: l) d = last (a :: l) d'.
Proof.
  revert a. induction l as [|b l IH]; intros a; [reflexivity|].
  change (last (b :: l) d = last (b :: l) d'). apply IH.
Qed.

Lemma sub_diag_tests x :
  (x - x <? -15) = false /\ (x - x <? -8) = false /\ (5 <? x - x) = false.
Proof.
  rewrite !FloatAxioms.ltb_spec.
  destruct (sub_diag_SF x) as [-> | ->]; repeat split; reflexivity.
Qed.

(** The code clamps the risk of the design's formula. *)
Lemma churnRisk_formula metrics score trend :
  computeChurnRisk metrics score trend
  = clamp01 (Spec.riskBeforeClamp metrics score trend).
Proof.
  unfold computeChurnRisk, Spec.riskBeforeClamp. f_equal.
  fold (Spec.weightedRisk metrics).
  set (r0 := Spec.weightedRisk metrics).
  assert (H1 : match firstSessionAvgRating metrics with
               | Some r => if r <? 3.0 then r0 + 0.05 else r0
               | None => r0
               end = Spec.adjust r0 (Spec.lowFirstRatingBonus metrics)).
  { unfold Spec.lowFirstRatingBonus.
    destruct (firstSessionAvgRating metrics) as [r|]; [|reflexivity].
    destruct (r <? 3.0); reflexivity. }
  rewrite H1. set (r1 := Spec.adjust r0 _).
  assert (H2 : (if score <? 50 then r1 + 0.12
                else if score <? 60 then r1 + 0.08
                else if score <? 70 then r1 + 0.04 else r1)
               = Spec.adjust r1 (Spec.scoreBandBonus score)).
  { unfold Spec.scoreBandBonus.
    destruct (score <? 50); [reflexivity|].
    destruct (score <? 60); [reflexivity|].
    destruct (score <? 70); reflexivity. }
  rewrite H2. set (r2 := Spec.adjust r1 _).
  unfold Spec.trendDeltaAdjustment, lastOf, firstOf.
  destruct trend as [|a [|b rest]].
  - reflexivity.
  - (* one value: the delta is zero or NaN *)
    cbn [List.length Nat.leb last hd].
    destruct (sub_diag_tests a) as (-> & -> & ->). reflexivity.
  - cbn [List.length Nat.leb hd].
    rewrite (last_default (b :: rest) a nan a).
    set (delta := last (a :: b :: rest) a - a).
    destruct (delta <? -15); [reflexivity|].
    destruct (delta <? -8); [reflexivity|].
    destruct (5 <? delta); [|reflexivity].
    cbn [Spec.adjust]. apply sub_003.
Qed.

(** C6: for every metrics object, score and trend, [computeChurnRisk] is
    the weighted sum of the four rates, plus 0.05 for a first-session
    average rating below 3.0, plus the score-band bonus, plus the
    adjustment on last minus first of the trend, clamped to [0, 1]: below
    0 it becomes 0, above 1 it becomes 1, and between them it is kept.
    A sum that is not a finite number counts as 0.  In every case the
    result lies between 0 and 1. *)
Theorem C6_churn_risk metrics score trend :
  let risk := Spec.riskBeforeClamp metrics score trend in
  computeChurnRisk metrics score trend
  = (if Number_isFinite risk
     then Spec.churnRiskFormula metrics score trend
     else 0)
  /\ (0 <=? computeChurnRisk metrics score trend) = true
  /\ (computeChurnRisk metrics score trend <=? 1) = true.
Proof.
  intros risk. split.
  - rewrite churnRisk_formula. apply clamp01_cases.
  - unfold computeChurnRisk. apply clamp01_range.
Qed.

(** *** Forecast confidence *)

Lemma computeVariance_population trend :
  TrendForecaster.computeVariance trend = Spec.populationVariance trend.
Proof. destruct trend; reflexivity. Qed.

(** C9: for every trend the forecast confidence is
    [clamp(1 - min(1, variance / 80), 0.2, 0.95)], where the variance is
    the population variance of the trend values, the mean of their
    squared deviations from their mean, and the clamp keeps a value
    between 0.2 and 0.95 and replaces a lower one by 0.2 and a higher one
    by 0.95.  Where [1 - min(1, variance / 80)] is not a finite number
    the confidence is 0.2.  In every case it lies between 0.2 and
    0.95. *)
Theorem C9_forecast_confidence trend currentScore :
  let c := confidence (TrendForecaster.forecastTrend trend currentScore) in
  let steadiness := 1 - Math_min 1 (Spec.populationVariance trend / 80) in
  c = (if Number_isFinite steadiness
       then Spec.clampTo 0.2 0.95 steadiness
       else 0.2)
  /\ (0.2 <=? c) = true /\ (c <=? 0.95) = true.
Proof.
  unfold TrendForecaster.forecastTrend.
  destruct (TrendForecaster.computeLinearRegression trend) as [slope intercept].
  cbn [confidence]. rewrite computeVariance_population. split.
  - destruct (Number_isFinite
                (1 - Math_min 1 (Spec.populationVariance trend / 80))) eqn:Hf.
    + apply clamp_finite; try reflexivity. exact Hf.
    + unfold TrendForecaster.clamp. rewrite Hf. reflexivity.
  - apply clamp_range; reflexivity.
Qed.

(** *** Feature statistics *)




(** *** Persona *)

Lemma persona_loop featureVector personas : forall st,
  (In (fst st) PatternRecognition.PERSONA_LIBRARY) ->
  incl personas PatternRecognition.PERSONA_LIBRARY ->
  In (fst (fold_left (PatternRecognition.personaStep featureVector) personas st))
     PatternRecognition.PERSONA_LIBRARY.
Proof.
  induction personas as [|p rest IH]; intros st Hst Hincl; [exact Hst|].
  cbn [fold_left]. apply IH.
  - unfold PatternRecognition.personaStep. destruct st as [closest minDistance].
    destruct (_ <? minDistance); cbn [fst]; [|exact Hst].
    apply Hincl. now left.
  - intros q Hq. apply Hincl. now right.
Qed.

Lemma assignPersona_in_library vector :
  In (PatternRecognition.assignPersona vector)
     PatternRecognition.PERSONA_LIBRARY.
Proof.
  unfold PatternRecognition.assignPersona. apply persona_loop.
  - cbn. now left.
  - apply incl_refl.
Qed.

(** *** The churn model of an empty batch *)


Lemma initialiseWeights_get keys : forall (acc : Dict.t number) key,
  Dict.get (fold_left (fun weights k => Dict.set weights k 0) keys acc) key
  = if existsb (String.eqb key) keys then Some 0 else Dict.get acc key.
Proof.
  induction keys as [|k rest IH]; intros acc key; [reflexivity|].
  cbn [fold_left existsb]. rewrite IH.
  destruct (existsb (String.eqb key) rest); [rewrite orb_true_r; reflexivity|].
  rewrite orb_false_r, Dict_get_set, (String.eqb_sym k key).
  destruct (String.eqb key k); reflexivity.
Qed.

Lemma emptyBatch_parameters :
  forallb
    (fun key =>
       Leibniz.eqb (Dict.index (ChurnPredictor.initialiseWeights FEATURE_KEYS) key) 0
       && Leibniz.eqb (Dict.index (means (stats emptyBatch)) key) 0
       && Leibniz.eqb (Dict.index (stdDevs (stats emptyBatch)) key) 1)
    FEATURE_KEYS = true.
Proof. vm_compute. reflexivity. Qed.

Lemma normalise_unit value : normaliseFeature value 0 1 = value.
Proof.
  unfold normaliseFeature. change (1 =? 0) with false. cbv iota.
  rewrite sub_zero_r. apply div_one.
Qed.

Lemma linearSum_emptyBatch vector keys :
  incl keys FEATURE_KEYS ->
  Forall
    (fun key => Number_isFinite (Dict.get (features vector) key ?? 0) = true)
    keys ->
  ChurnPredictor.linearSum vector (ChurnPredictor.initialiseWeights FEATURE_KEYS)
    0 (means (stats emptyBatch)) (stdDevs (stats emptyBatch)) keys = 0.
Proof.
  unfold ChurnPredictor.linearSum.
  induction keys as [|k rest IH]; intros Hincl Hfin; [reflexivity|].
  cbn [fold_left]. inversion Hfin as [|? ? Hk Hrest]; subst.
  pose proof emptyBatch_parameters as Hp. rewrite forallb_forall in Hp.
  specialize (Hp k (Hincl k (or_introl eq_refl))).
  apply andb_prop in Hp. destruct Hp as [Hp Hs].
  apply andb_prop in Hp. destruct Hp as [Hw Hm].
  apply Leibniz.eqb_spec in Hw, Hm, Hs.
  unfold ChurnPredictor.normalisedAt. rewrite Hw, Hm, Hs, normalise_unit.
  rewrite add_zero_mul_zero by exact Hk.
  apply IH; [|exact Hrest].
  intros q Hq. apply Hincl. now right.
Qed.

Lemma trained_emptyBatch Math_exp options :
  ChurnPredictor.trainChurnModel Math_exp emptyBatch options
  = {| weights := ChurnPredictor.initialiseWeights FEATURE_KEYS;
       bias := 0;
       featureKeys := FEATURE_KEYS;
       featureMeans := means (stats emptyBatch);
       featureStds := stdDevs (stats emptyBatch) |}.
Proof. reflexivity. Qed.


(** *** Sorting *)

Section Sorting.

Context {A : Type} (compare : A -> A -> number).

Lemma sort_insert_perm x sorted :
  Permutation (sort_insert compare x sorted) (x :: sorted).
Proof.
  induction sorted as [|y rest IH]; cbn [sort_insert]; [reflexivity|].
  destruct (0 <? compare y x); [reflexivity|].
  rewrite IH. apply perm_swap.
Qed.

Lemma sort_loop_perm l : forall acc,
  Permutation (fold_left (fun sorted x => sort_insert compare x sorted) l acc)
    (acc ++ l).
Proof.
  induction l as [|x rest IH]; intros acc; cbn [fold_left].
  - rewrite app_nil_r. reflexivity.
  - rewrite IH, sort_insert_perm.
    change (x :: acc) with ([x] ++ acc).
    rewrite (Permutation_app_comm [x] acc), <- app_assoc. reflexivity.
Qed.

Lemma sort_perm l : Permutation (sort compare l) l.
Proof. unfold sort. apply (sort_loop_perm l []). Qed.

(** The order that the comparator decides: [a] may stand before [b]. *)
Variable R : A -> A -> Prop.
Variable ok : A -> Prop.
Hypothesis before : forall y x, ok y -> ok x ->
  (0 <? compare y x) = true -> R x y.
Hypothesis keep : forall y x, ok y -> ok x ->
  (0 <? compare y x) = false -> R y x.

Lemma sort_insert_hd x y rest :
  R y x -> HdRel R y rest -> HdRel R y (sort_insert compare x rest).
Proof.
  intros Hyx Hhd. destruct rest as [|z rest]; cbn [sort_insert].
  - constructor. exact Hyx.
  - destruct (0 <? compare z x); constructor; [exact Hyx|].
    inversion Hhd; assumption.
Qed.

Lemma sort_insert_sorted x sorted :
  ok x -> Forall ok sorted -> Sorted R sorted ->
  Sorted R (sort_insert compare x sorted).
Proof.
  intros Hx Hok Hs. induction sorted as [|y rest IH]; cbn [sort_insert].
  - repeat constructor.
  - inversion Hok as [|? ? Hy Hrest]; subst.
    inversion Hs as [|? ? Hs' Hhd]; subst.
    destruct (0 <? compare y x) eqn:E.
    + constructor; [exact Hs|]. constructor. apply before; assumption.
    + constructor; [apply IH; assumption|].
      apply sort_insert_hd; [|exact Hhd].
      apply keep; assumption.
Qed.

Lemma sort_loop_sorted l : forall acc,
  Forall ok l -> Forall ok acc -> Sorted R acc ->
  Sorted R (fold_left (fun sorted x => sort_insert compare x sorted) l acc).
Proof.
  induction l as [|x rest IH]; intros acc Hl Hacc Hs; cbn [fold_left];
    [exact Hs|].
  inversion Hl as [|? ? Hx Hrest]; subst.
  apply IH; [exact Hrest| |apply sort_insert_sorted; assumption].
  eapply Permutation_Forall.
  - symmetry. apply sort_insert_perm.
  - constructor; assumption.
Qed.

Lemma sort_sorted l : Forall ok l -> Sorted R (sort compare l).
Proof.
  intros H. unfold sort. apply sort_loop_sorted; [exact H| |]; constructor.
Qed.

End Sorting.

Lemma mapi_length {A B : Type} (f : A -> nat -> B) l :
  List.length (mapi f l) = List.length l.
Proof.
  unfold mapi, indexed. rewrite length_map, length_combine, length_seq. lia.
Qed.

Lemma mapi_In {A B : Type} (f : A -> nat -> B) l y :
  In y (mapi f l) ->
  exists x i, y = f x i /\ In x l /\ (i < List.length l)%nat.
Proof.
  unfold mapi, indexed. intros H. apply in_map_iff in H.
  destruct H as ([i x] & <- & Hin).
  exists x, i. split; [reflexivity|].
  split; [apply (in_combine_r _ _ _ _ Hin)|].
  apply in_combine_l in Hin. apply in_seq in Hin. lia.
Qed.

(** *** Recommendations *)


Lemma capped_effectiveness vector :
  forallb
    (fun item =>
       forallb
         (fun index =>
            Math_min 0.95
              (effectiveness (build item vector) + of_nat index * 0.05)
            <=? 0.95)
         (seq 0 3))
    INTERVENTION_LIBRARY = true.
Proof. vm_compute. reflexivity. Qed.

Lemma kept_not_nan entry :
  (0.05 <? match_score entry) = true -> is_nan (match_score entry) = false.
Proof. apply ltb_not_nan_r. Qed.

Lemma mul_comm x y : x * y = y * x.
Proof.
  apply Prim2SF_inj. rewrite !mul_spec.
  destruct (Prim2SF x) as [sx|sx| |sx mx ex], (Prim2SF y) as [sy|sy| |sy my ey];
    try reflexivity; unfold SF64mul, SFmul; rewrite (xorb_comm sx sy);
    try reflexivity.
  rewrite (Pos.mul_comm mx my), (Z.add_comm ex ey). reflexivity.
Qed.

Lemma bump_displayed entry rank :
  bump entry rank = Spec.displayed (intervention entry) rank.
Proof.
  unfold bump, Spec.displayed. rewrite (mul_comm (of_nat rank) 0.05).
  reflexivity.
Qed.

Lemma nth_error_indexed_map {A B : Type} (f : A -> nat -> B) (l : list A) :
  forall start i,
    nth_error (map (fun p => f (snd p) (fst p))
                 (combine (seq start (List.length l)) l)) i
    = option_map (fun a => f a (start + i)%nat) (nth_error l i).
Proof.
  induction l as [|a l IH]; intros start i.
  - destruct i; reflexivity.
  - destruct i as [|i]; cbn [List.length seq combine map nth_error option_map].
    + rewrite Nat.add_0_r. reflexivity.
    + rewrite IH. rewrite Nat.add_succ_r. reflexivity.
Qed.

Lemma nth_error_mapi {A B : Type} (f : A -> nat -> B) (l : list A) i :
  nth_error (mapi f l) i = option_map (fun a => f a i) (nth_error l i).
Proof. unfold mapi, indexed. apply nth_error_indexed_map. Qed.

(** C7: [recommendInterventions] keeps the candidates whose match score
    exceeds 0.05, orders them by descending match score and takes the
    first three; the pick at rank [rank] is the intervention of the
    candidate at that rank with its effectiveness raised by
    [0.05 x rank] and capped at 0.95.  So at most three picks come back,
    each with an effectiveness of at most 0.95. *)
Theorem C7_recommendations vector context :
  let kept := scoredCandidates vector context in
  let picks := recommendInterventions vector context in
  Permutation kept
    (filter (fun entry => 0.05 <? match_score entry)
       (candidates vector context))
  /\ Sorted descending kept
  /\ (forall rank,
        nth_error picks rank
        = option_map (fun entry => Spec.displayed (intervention entry) rank)
            (nth_error (firstn 3 kept) rank))
  /\ (List.length picks <= 3)%nat
  /\ Forall (fun r => (effectiveness r <=? 0.95) = true) picks.
Proof.
  intros kept picks.
  assert (Hperm : Permutation kept
            (filter (fun entry => 0.05 <? match_score entry)
               (candidates vector context))) by apply sort_perm.
  assert (Hkept : Forall (fun entry => (0.05 <? match_score entry) = true) kept).
  { eapply Permutation_Forall.
    - symmetry. exact Hperm.
    - rewrite Forall_forall. intros e He. apply filter_In in He. apply He. }
  split; [exact Hperm|]. split.
  { apply (sort_sorted byScoreDescending descending
             (fun entry => is_nan (match_score entry) = false)).
    - intros y x _ _. unfold byScoreDescending, descending.
      rewrite sub_pos_iff. apply ltb_leb.
    - intros y x Hy Hx. unfold byScoreDescending, descending.
      rewrite sub_pos_iff. apply ltb_false_leb; assumption.
    - rewrite Forall_forall. intros e He. apply filter_In in He.
      apply kept_not_nan, He. }
  split.
  { intros rank. unfold picks, recommendInterventions, slice.
    rewrite Nat.sub_0_r. cbn [skipn]. fold kept.
    rewrite nth_error_mapi.
    destruct (nth_error (firstn 3 kept) rank) as [entry|]; [|reflexivity].
    cbn [option_map]. rewrite bump_displayed. reflexivity. }
  split.
  { unfold picks, recommendInterventions, slice.
    rewrite mapi_length, length_firstn. lia. }
  rewrite Forall_forall. intros r Hr.
  unfold picks, recommendInterventions, slice in Hr.
  apply mapi_In in Hr. destruct Hr as (entry & i & -> & Hentry & Hi).
  rewrite length_firstn in Hi.
  apply In_firstn_inv in Hentry. cbn [skipn] in Hentry.
  assert (Hc : In entry (candidates vector context)).
  { apply (Permutation_in _ Hperm) in Hentry. apply filter_In in Hentry. apply Hentry. }
  apply in_map_iff in Hc. destruct Hc as (item & <- & Hitem).
  cbn [bump effectiveness intervention].
  pose proof (capped_effectiveness vector) as H. rewrite forallb_forall in H.
  specialize (H item Hitem). rewrite forallb_forall in H.
  apply H. apply in_seq. lia.
Qed.

(** ** The remaining statements *)

(** C4: for every list of session records and both formula versions the
    score is an integer and lies between 0 and 100. *)
Theorem C4_score_integer_in_range sessions version :
  let score := computeScore (computeMetrics sessions) version in
  Number_isInteger score = true
  /\ (0 <=? score) = true /\ (score <=? 100) = true.
Proof.
  intros score. subst score.
  destruct (computeScore_shape (computeMetrics sessions) version) as [raw ->].
  split; [apply clampScore_round_integer | apply clampScore_range].
Qed.

(** C1, as the code has it: without sessions the v2 formula gives 96, the
    100 of a clean record less the volume penalty 4 for fewer than five
    sessions; the v1 formula, which has no such penalty, gives 100. *)
Theorem C1_zero_session_scores :
  computeMetrics [] = zeroMetrics
  /\ computeScore (computeMetrics []) v2 = 96
  /\ computeScore (computeMetrics []) v1 = 100.
Proof. repeat split; vm_compute; reflexivity. Qed.

(** C1 fails as stated: the v2 score of a tutor without sessions is 96,
    which is not 100. *)
Lemma C1_zero_session_v2_is_96 :
  computeScoreV2 (computeMetrics []) = 96 /\ (96 =? 100) = false.
Proof. split; vm_compute; reflexivity. Qed.

(** C5: for every list of sessions and every list of N dates the trend
    builder returns N values.  They come from the daily sequence in which
    a day with sessions has the score of that day's sessions alone and a
    day without carries the previous score, from the seed on: the value
    at each position is the rounded average of the window of three
    around it, clipped at the two ends of the sequence, and a sequence of
    one value is returned as it is.  The moving average keeps the
    length.  Seeded with the tutor's overall score every value is an
    integer, and equal as a number to the moving average at its position,
    for a single date too. *)
Theorem C5_trend_builder sessions dates fallbackScore version :
  let daily := Spec.gapFilled sessions version fallbackScore dates in
  let trend := buildTrendForTutor sessions dates fallbackScore version in
  let overall := computeScore (computeMetrics sessions) version in
  let seeded := buildTrendForTutor sessions dates overall version in
  List.length trend = List.length dates
  /\ trend = match daily with
             | [_] => daily
             | _ => Spec.movingAverage daily
             end
  /\ (forall values,
        List.length (Spec.movingAverage values) = List.length values)
  /\ (forall raw, List.length (smoothTrend raw 3) = List.length raw)
  /\ Forall (fun v => Number_isInteger v = true) seeded
  /\ Forall2 (fun value average => (value =? average) = true) seeded
       (Spec.movingAverage (Spec.gapFilled sessions version overall dates)).
Proof.
  intros daily trend overall seeded.
  subst daily trend seeded. unfold buildTrendForTutor.
  rewrite !rawTrend_gapFilled, smoothTrend_length, gapFilled_length.
  split; [reflexivity|].
  split; [apply smoothTrend_movingAverage|].
  split; [apply movingAverage_length|].
  split; [intros raw; apply smoothTrend_length|].
  assert (Hvalues : Forall (fun v => In v score_values)
                      (Spec.gapFilled sessions version overall dates)).
  { apply gapFilled_values. subst overall.
    destruct (computeScore_shape (computeMetrics sessions) version) as [raw ->].
    apply clamped_round_in_score_values. }
  pose proof (smoothTrend_integers _ Hvalues) as Hint.
  split; [exact Hint|].
  rewrite smoothTrend_movingAverage in *.
  destruct (Spec.gapFilled sessions version overall dates) as [|a [|b rest]].
  - constructor.
  - constructor; [|constructor].
    inversion Hvalues as [|? ? Ha _]; subst.
    pose proof single_score_average as H. rewrite forallb_forall in H.
    apply (H a Ha).
  - apply Forall2_diag. revert Hint. apply Forall_impl.
    intros v. apply integer_eqb_refl.
Qed.


(** The features have to be finite numbers for that: the weight 0 times a
    NaN is NaN, and so is the probability of a vector that holds one. *)
Lemma nan_feature_probability :
  (forallb (fun x => Leibniz.eqb (exp_series x) 1) [0; -0]) = true
  /\ is_nan
       (ChurnPredictor.probability
          (ChurnPredictor.predictChurn exp_series nanVector
             (ChurnPredictor.trainChurnModel exp_series emptyBatch
                ChurnPredictor.noOptions))) = true.
Proof. split; vm_compute; reflexivity. Qed.

Lemma exp_series_zero x : (x =? 0) = true -> exp_series x = 1.
Proof.
  rewrite FloatAxioms.eqb_spec. change (Prim2SF 0) with (S754_zero false).
  intros H. rewrite <- (SF2Prim_Prim2SF x).
  destruct (Prim2SF x) as [[]|[]| |[] m e]; try discriminate;
    vm_compute; reflexivity.
Qed.



(** C2 on the code: for a tutor without sessions the recommender returns
    two interventions, whatever the context, because the null ratings
    have become 0 in the feature vector. *)
Theorem C2_zero_session_recommendations context :
  recommendInterventions (buildFeatureVector zeroSessionTutor) context
  = [ {| id := "quality-lift"; title := "Quality Lift Mentorship";
         effectiveness := 0.58; effort := high |};
      {| id := "first-session-rescue"; title := "First Session Rescue Plan";
         effectiveness := 0.8; effort := medium |} ].
Proof.
  destruct context as [p a t]. destruct t; vm_compute; reflexivity.
Qed.

Lemma insights_loop Math_exp tutors matrix model (P : Orchestrator.TutorAiInsights -> Prop) vs :
  (forall insightsMap vector k v,
      Dict.get (Orchestrator.insightStep Math_exp tutors matrix model insightsMap vector) k = Some v ->
      Dict.get insightsMap k = Some v \/ P v) ->
  forall insightsMap,
    (forall k v, Dict.get insightsMap k = Some v -> P v) ->
    forall k v,
      Dict.get (fold_left (Orchestrator.insightStep Math_exp tutors matrix model) vs insightsMap) k = Some v ->
      P v.
Proof.
  intros Hstep. induction vs as [|vector rest IH]; intros insightsMap Hmap k v;
    cbn [fold_left]; [apply Hmap|].
  apply IH. intros k' v' Hget.
  destruct (Hstep _ _ _ _ Hget) as [H|H]; [apply (Hmap _ _ H)|exact H].
Qed.

(** C10: every insight bundle that the orchestrator produces carries one
    of the four personas of the library; its nullable [persona] field is
    never null. *)
Theorem C10_persona_never_null Math_exp tutors id insight :
  Dict.get (Orchestrator.generateAiInsights Math_exp tutors) id = Some insight ->
  exists persona,
    Orchestrator.persona insight = Some persona
    /\ In persona PatternRecognition.PERSONA_LIBRARY.
Proof.
  unfold Orchestrator.generateAiInsights.
  apply (insights_loop Math_exp tutors _ _
           (fun v => exists persona,
                Orchestrator.persona v = Some persona
                /\ In persona PatternRecognition.PERSONA_LIBRARY)).
  - intros insightsMap vector k v. unfold Orchestrator.insightStep.
    destruct (find _ tutors) as [matchedTutor|]; [|now left].
    rewrite Dict_get_set. destruct (String.eqb (tutorId vector) k); [|now left].
    intros H. injection H as <-. right.
    eexists. split; [reflexivity|]. apply assignPersona_in_library.
  - intros k v H. discriminate.
Qed.

Lemma C10_persona_never_null_witness :
  exists persona,
    option_map Orchestrator.persona
      (Dict.get (Orchestrator.generateAiInsights exp_series [zeroSessionTutor])
         "T000")
    = Some (Some persona)
    /\ In persona PatternRecognition.PERSONA_LIBRARY.
Proof.
  assert (H : exists insight,
             Dict.get (Orchestrator.generateAiInsights exp_series
                         [zeroSessionTutor]) "T000" = Some insight).
  { eexists. vm_compute. reflexivity. }
  destruct H as [insight H].
  destruct (C10_persona_never_null exp_series [zeroSessionTutor] "T000"
              insight H) as (persona & Hp & Hin).
  exists persona. rewrite H. cbn [option_map]. rewrite Hp. split; [reflexivity|exact Hin].
Defined.

(** ** Further properties of the code *)

(** *** The order of binary64 numbers *)

Lemma SFltb_key x y :
  x <> S754_nan -> y <> S754_nan ->
  (SFltb x y = true <-> key_lt (order_key x) (order_key y)).
Proof.
  intros Hx Hy. unfold SFltb, SFcompare.
  destruct x as [sx|[]| |[] mx ex], y as [sy|[]| |[] my ey];
    try congruence; cbn [order_key key_lt];
    try (split; [discriminate|lia]); try (split; [lia|reflexivity]);
    try (split; [intros _; lia|reflexivity]).
  - (* both negative *)
    destruct (Z.compare_spec ex ey) as [E|E|E].
    + subst. change (Pos.compare_cont Eq mx my) with (Pos.compare mx my).
      destruct (Pos.compare_spec mx my); cbn [CompOpp];
        split; try discriminate; try lia; intros _; try lia.
    + split; [discriminate|lia].
    + split; [intros _; lia|reflexivity].
  - destruct (Z.compare_spec ex ey) as [E|E|E].
    + subst. change (Pos.compare_cont Eq mx my) with (Pos.compare mx my).
      destruct (Pos.compare_spec mx my);
        split; try discriminate; try lia; intros _; try lia.
    + split; [intros _; lia|reflexivity].
    + split; [discriminate|lia].
Qed.

Lemma ltb_trans x y z : (x <? y) = true -> (y <? z) = true -> (x <? z) = true.
Proof.
  intros Hxy Hyz.
  pose proof (ltb_not_nan_l _ _ Hxy) as Nx.
  pose proof (ltb_not_nan_r _ _ Hxy) as Ny.
  pose proof (ltb_not_nan_r _ _ Hyz) as Nz.
  rewrite is_nan_SF in Nx, Ny, Nz.
  rewrite FloatAxioms.ltb_spec in *.
  assert (Hx : Prim2SF x <> S754_nan) by (intros E; rewrite E in Nx; discriminate).
  assert (Hy : Prim2SF y <> S754_nan) by (intros E; rewrite E in Ny; discriminate).
  assert (Hz : Prim2SF z <> S754_nan) by (intros E; rewrite E in Nz; discriminate).
  apply (SFltb_key _ _ Hx Hy) in Hxy. apply (SFltb_key _ _ Hy Hz) in Hyz.
  apply (SFltb_key _ _ Hx Hz).
  destruct (order_key (Prim2SF x)) as [[a1 a2] a3],
           (order_key (Prim2SF y)) as [[b1 b2] b3],
           (order_key (Prim2SF z)) as [[c1 c2] c3].
  cbn [key_lt] in *. lia.
Qed.

Lemma leb_not_ltb x y : (x <=? y) = true -> (y <? x) = false.
Proof.
  rewrite FloatAxioms.leb_spec, FloatAxioms.ltb_spec. unfold SFleb, SFltb.
  rewrite (SFcompare_antisym (Prim2SF x) (Prim2SF y)).
  destruct (SFcompare (Prim2SF x) (Prim2SF y)) as [[]|]; simpl; congruence.
Qed.

Lemma ltb_irrefl x : (x <? x) = false.
Proof.
  rewrite FloatAxioms.ltb_spec. unfold SFltb.
  destruct (Prim2SF x) as [s|s| |s m e] eqn:E; try reflexivity;
    rewrite SFcompare_refl by discriminate; reflexivity.
Qed.

(** A number above a positive number is positive. *)
Lemma ltb_pos_trans c x :
  (0 <? c) = true -> (c <? x) = true -> (0 <? x) = true.
Proof. apply ltb_trans. Qed.

(** Adding one to a count that is not negative gives a positive count. *)
Lemma add_one_pos c : (0 <=? c) = true -> (0 <? c + 1) = true.
Proof.
  rewrite FloatAxioms.leb_spec, FloatAxioms.ltb_spec, add_spec.
  change (Prim2SF 0) with (S754_zero false). rewrite Prim2SF_1.
  pose proof (Prim2SF_valid c) as Hv.
  destruct (Prim2SF c) as [s|[]| |[] m e]; try discriminate; try reflexivity.
  intros _. simpl in Hv. destruct (canonical_digits m e Hv) as (He & _).
  unfold SF64add, SFadd.
  set (ez := Z.min e (-52)).
  set (X := Z.pos (fst (shl_align m e ez))).
  set (Y := Z.pos (fst (shl_align 4503599627370496 (-52) ez))).
  cbn [cond_Zopp].
  assert (HX : (0 < X)%Z) by (unfold X; lia).
  assert (HY : (0 < Y)%Z) by (unfold Y; lia).
  destruct (X + Y)%Z as [|p|p] eqn:E; try lia.
  cbn [binary_normalize].
  apply SFltb_zero_l, binary_round_nonzero. unfold ez. lia.
Qed.

Lemma add_zero_l_pos y : (0 <? 0 + y) = (0 <? y).
Proof.
  rewrite !FloatAxioms.ltb_spec, add_spec.
  change (Prim2SF 0) with (S754_zero false).
  destruct (Prim2SF y) as [[]|[]| |[] m e]; reflexivity.
Qed.

(** *** Aggregation *)

Lemma every_from (a : list string) : forall (b : list string) k,
  forallb
    (fun p =>
       match nth_error b (fst p) with
       | Some w => String.eqb (snd p) w
       | None => false
       end)
    (combine (seq k (List.length a)) a) = true ->
  firstn (List.length a) (skipn k b) = a.
Proof.
  induction a as [|x a IH]; intros b k H; [reflexivity|].
  cbn [List.length seq combine forallb fst snd] in H.
  apply andb_prop in H. destruct H as [Hx Hrest].
  destruct (nth_error b k) as [w|] eqn:E; [|discriminate].
  apply String.eqb_eq in Hx. subst w.
  specialize (IH b (S k) Hrest).
  assert (Hs : skipn k b = x :: skipn (S k) b).
  { clear - E. revert b E. induction k as [|k IHk]; intros [|y b] E;
      try discriminate.
    - injection E as ->. reflexivity.
    - cbn [skipn]. apply IHk. exact E. }
  rewrite Hs. cbn [List.length firstn]. rewrite IH. reflexivity.
Qed.

Lemma every_refl (a : list string) : forall pre,
  forallb
    (fun p =>
       match nth_error (pre ++ a) (fst p) with
       | Some w => String.eqb (snd p) w
       | None => false
       end)
    (combine (seq (List.length pre) (List.length a)) a) = true.
Proof.
  induction a as [|x a IH]; intros pre; [reflexivity|].
  cbn [List.length seq combine forallb fst snd].
  rewrite nth_error_app2, Nat.sub_diag by lia. cbn [nth_error].
  rewrite String.eqb_refl. cbn [andb].
  specialize (IH (pre ++ [x])). rewrite <- app_assoc in IH. cbn [app] in IH.
  rewrite length_app in IH. cbn [List.length] in IH.
  rewrite Nat.add_1_r in IH. exact IH.
Qed.

(** X4: [arraysEqual] answers true exactly for equal arrays. *)
Theorem arraysEqual_iff a b : arraysEqual a b = true <-> a = b.
Proof.
  unfold arraysEqual. split.
  - destruct (List.length a =? List.length b)%nat eqn:E; [|discriminate].
    cbn [negb]. intros H. apply Nat.eqb_eq in E.
    apply every_from in H. cbn [skipn] in H. rewrite E, firstn_all in H.
    congruence.
  - intros <-. rewrite Nat.eqb_refl. cbn [negb]. apply (every_refl a []).
Qed.

Lemma ratingCount_loop sessions : forall c,
  (0 <=? ratingCount c) = true ->
  (0 <=? ratingCount (fold_left countSession sessions c)) = true
  /\ (forallb (fun s => negb (isRated s)) sessions = true ->
      ratingCount (fold_left countSession sessions c) = ratingCount c)
  /\ (existsb isRated sessions = true ->
      (0 <? ratingCount (fold_left countSession sessions c)) = true)
  /\ ((0 <? ratingCount c) = true ->
      (0 <? ratingCount (fold_left countSession sessions c)) = true).
Proof.
  induction sessions as [|s rest IH]; intros c Hc.
  - cbn. repeat split; try assumption; auto; discriminate.
  - cbn [fold_left forallb existsb].
    assert (Hstep : ratingCount (countSession c s)
                    = if isRated s then ratingCount c + 1 else ratingCount c).
    { unfold countSession, isRated. cbn [ratingCount]. reflexivity. }
    assert (Hc' : (0 <=? ratingCount (countSession c s)) = true).
    { rewrite Hstep. destruct (isRated s); [|exact Hc].
      apply ltb_leb, add_one_pos, Hc. }
    destruct (IH (countSession c s) Hc') as (H1 & H2 & H3 & H4).
    split; [exact H1|]. split; [|split].
    + intros H. apply andb_prop in H. destruct H as [Hs Hr].
      rewrite (H2 Hr), Hstep. destruct (isRated s); [discriminate|reflexivity].
    + intros H. destruct (isRated s) eqn:Es.
      * apply H4. rewrite Hstep. apply add_one_pos, Hc.
      * apply H3. exact H.
    + intros Hpos. apply H4. rewrite Hstep.
      destruct (isRated s); [apply add_one_pos, Hc|exact Hpos].
Qed.

Lemma computeMetrics_avgRating s rest :
  avgRating (computeMetrics (s :: rest))
  = let c := fold_left countSession (s :: rest) zeroCounters in
    if 0 <? ratingCount c then Some (ratingSum c / ratingCount c) else None.
Proof. reflexivity. Qed.

(** X1: [computeMetrics] reports a null average rating exactly when no
    session of the batch carries a rating. *)
Theorem avgRating_null_iff sessions :
  avgRating (computeMetrics sessions) = None
  <-> Forall (fun session => rating session = None) sessions.
Proof.
  destruct sessions as [|s rest]; [split; [constructor|reflexivity]|].
  rewrite computeMetrics_avgRating. cbv zeta.
  set (sessions := s :: rest).
  destruct (ratingCount_loop sessions zeroCounters eq_refl) as (_ & H2 & H3 & _).
  destruct (existsb isRated sessions) eqn:E.
  - rewrite (H3 eq_refl). split; [discriminate|].
    intros HF. exfalso. apply existsb_exists in E. destruct E as (x & Hx & Hr).
    rewrite Forall_forall in HF. specialize (HF x Hx).
    unfold isRated in Hr. rewrite HF in Hr. discriminate.
  - assert (HF : forallb (fun s => negb (isRated s)) sessions = true).
    { apply forallb_forall. intros x Hx.
      destruct (isRated x) eqn:Ex; [|reflexivity].
      assert (existsb isRated sessions = true)
        by (apply existsb_exists; exists x; auto).
      congruence. }
    rewrite (H2 HF). cbn. split; [|reflexivity]. intros _.
    rewrite Forall_forall. intros x Hx. rewrite forallb_forall in HF.
    specialize (HF x Hx). unfold isRated in HF.
    destruct (rating x); [discriminate|reflexivity].
Qed.

(** *** Smoothing *)

(** X5: [smoothTrend] rounds: on a trend of two or more values every value
    that comes back finite is an integer, whatever the input holds. *)
Theorem smoothTrend_rounds a b rest windowSize :
  Forall (fun v => Number_isFinite v = true -> Number_isInteger v = true)
    (smoothTrend (a :: b :: rest) windowSize).
Proof.
  unfold smoothTrend. rewrite Forall_forall. intros v Hv.
  apply in_map_iff in Hv. destruct Hv as (i & <- & _).
  unfold smoothAt. apply Math_round_integer.
Qed.

Lemma flat_averages :
  forallb
    (fun v =>
       Leibniz.eqb (Math_round ((0 + v + v) / of_nat 2)) v
       && Leibniz.eqb (Math_round ((0 + v + v + v) / of_nat 3)) v)
    whole_scores = true.
Proof. vm_compute. reflexivity. Qed.

Lemma all_equal_repeat {A : Type} (v : A) l :
  Forall (eq v) l -> l = repeat v (List.length l).
Proof.
  induction 1 as [|x l Hx _ IH]; [reflexivity|].
  cbn [List.length repeat]. rewrite <- IH, Hx. reflexivity.
Qed.

Lemma slice_repeat {A : Type} (v : A) n start stop :
  slice (repeat v n) start stop
  = repeat v (List.length (slice (repeat v n) start stop)).
Proof.
  apply all_equal_repeat. apply slice_Forall.
  rewrite Forall_forall. intros x Hx. symmetry. exact (repeat_spec _ _ _ Hx).
Qed.

Lemma smoothTrend_flat v n :
  In v whole_scores -> smoothTrend (repeat v n) 3 = repeat v n.
Proof.
  intros Hv. destruct n as [|[|n]]; try reflexivity.
  set (k := S (S n)).
  assert (Hk : (2 <= k)%nat) by (unfold k; lia).
  unfold smoothTrend. change (repeat v k) with (v :: v :: repeat v n) at 1.
  cbv iota. rewrite repeat_length.
  pose proof flat_averages as Hf. rewrite forallb_forall in Hf.
  specialize (Hf v Hv). apply andb_prop in Hf. destruct Hf as [H2 H3].
  apply Leibniz.eqb_spec in H2, H3.
  assert (Hall : Forall (eq v) (map (smoothAt (repeat v k) (3 / 2)) (seq 0 k))).
  { rewrite Forall_forall. intros x Hx. apply in_map_iff in Hx.
    destruct Hx as (i & <- & Hi). apply in_seq in Hi.
    unfold smoothAt. rewrite slice_repeat.
    assert (Hlen : (List.length (slice (repeat v k) (i - 3 / 2)
                                  (Nat.min (List.length (repeat v k)) (i + 3 / 2 + 1))) = 2
                    \/ List.length (slice (repeat v k) (i - 3 / 2)
                                  (Nat.min (List.length (repeat v k)) (i + 3 / 2 + 1))) = 3)%nat).
    { unfold slice. rewrite length_firstn, length_skipn, repeat_length.
      change (3 / 2)%nat with 1%nat. lia. }
    rewrite repeat_length in *.
    destruct Hlen as [-> | ->]; cbn [repeat sum_by fold_left List.length];
      symmetry; assumption. }
  apply all_equal_repeat in Hall. rewrite Hall.
  rewrite length_map, length_seq. reflexivity.
Qed.

Lemma gapFilled_no_sessions sessions version dates : forall previous,
  Forall (fun d => Spec.sessionsOn sessions d = []) dates ->
  Spec.gapFilled sessions version previous dates
  = repeat previous (List.length dates).
Proof.
  induction dates as [|d rest IH]; intros previous H; [reflexivity|].
  inversion H as [|? ? Hd Hrest]; subst.
  cbn [Spec.gapFilled List.length repeat]. rewrite Hd, IH by assumption.
  reflexivity.
Qed.

(** X6: a tutor without a session on any date of the window gets a flat
    trend: [buildTrendForTutor] repeats the fallback score, an integer
    between 0 and 100, once per date. *)
Theorem flat_trend_without_sessions sessions dates n version :
  (0 <= n <= 100)%Z ->
  Forall (fun d => Forall (fun s => date s <> d) sessions) dates ->
  buildTrendForTutor sessions dates (of_integer false n) version
  = repeat (of_integer false n) (List.length dates).
Proof.
  intros Hn Hdates. unfold buildTrendForTutor.
  rewrite rawTrend_gapFilled, gapFilled_no_sessions.
  - apply smoothTrend_flat. unfold whole_scores.
    replace n with (Z.of_nat (Z.to_nat n)) by lia.
    apply (in_map (fun n => of_integer false (Z.of_nat n))).
    apply in_seq. lia.
  - rewrite Forall_forall in *. intros d Hd. specialize (Hdates d Hd).
    unfold Spec.sessionsOn.
    induction sessions as [|s rest IH]; [reflexivity|].
    inversion Hdates as [|? ? Hs Hrest]; subst. cbn [filter].
    destruct (String.eqb (date s) d) eqn:E.
    + apply String.eqb_eq in E. contradiction.
    + apply IH, Hrest.
Qed.

Lemma flat_trend_without_sessions_witness :
  buildTrendForTutor [earlierSession] trendDates (of_integer false 96) v2
  = repeat (of_integer false 96) 7.
Proof.
  apply (flat_trend_without_sessions [earlierSession] trendDates 96 v2).
  - lia.
  - repeat constructor; discriminate.
Defined.

(** *** The two computations of slope and variance *)

(** X7: the feature engineering and the forecaster agree: [computeTrendSlope]
    is the slope of [computeLinearRegression], and [computeTrendVariance]
    is [computeVariance]. *)
Theorem trend_statistics_agree trend :
  computeTrendSlope trend
  = fst (TrendForecaster.computeLinearRegression trend)
  /\ computeTrendVariance trend = TrendForecaster.computeVariance trend.
Proof.
  split; [|reflexivity].
  unfold computeTrendSlope, TrendForecaster.computeLinearRegression.
  destruct trend as [|y rest]; [reflexivity|].
  set (n := of_nat (List.length (y :: rest))).
  change (fold_left (TrendForecaster.regressionStep ((n - 1) / 2)
            (sum_by (fun value => value) (y :: rest) / n)))
    with (fold_left (slopeStep ((n - 1) / 2)
            (sum_by (fun value => value) (y :: rest) / n))).
  destruct (fold_left (slopeStep ((n - 1) / 2)
              (sum_by (fun value => value) (y :: rest) / n))
              (indexed (y :: rest)) (0, 0)) as [numerator denominator].
  reflexivity.
Qed.

(** *** Feature vectors *)

Lemma safeNumber_finite value : Number_isFinite (safeNumber value) = true.
Proof.
  unfold safeNumber. destruct value as [v|]; [|reflexivity].
  destruct (Number_isFinite v) eqn:E; [exact E|reflexivity].
Qed.

(** X8: [buildFeatureVector] keeps the id of the tutor, fills the features in
    the order of [FEATURE_KEYS], makes every feature that goes through
    [safeNumber] finite, and labels the tutor 0 or 1. *)
Theorem buildFeatureVector_shape tutor :
  let vector := buildFeatureVector tutor in
  tutorId vector = tutor_id tutor
  /\ Dict.keys (features vector) = FEATURE_KEYS
  /\ Forall
       (fun key =>
          exists v, Dict.get (features vector) key = Some v
                    /\ Number_isFinite v = true)
       COERCED_KEYS
  /\ (labelChurn vector = 0 \/ labelChurn vector = 1).
Proof.
  intros vector. split; [reflexivity|]. split; [reflexivity|]. split.
  - repeat constructor; eexists; (split; [reflexivity|apply safeNumber_finite]).
  - subst vector. unfold buildFeatureVector. cbn [labelChurn].
    destruct (_ || _ || _); [now right|now left].
Qed.

(** *** The trained model *)

Lemma set_covers {V : Type} (d : Dict.t V) k v keys :
  covers d keys -> covers (Dict.set d k v) keys.
Proof.
  unfold covers. rewrite !Forall_forall. intros H key Hkey.
  rewrite Dict_get_set. destruct (String.eqb k key); [eexists; reflexivity|].
  apply H, Hkey.
Qed.

Lemma set_loop_covers {V : Type} (f : Dict.t V -> string -> V) keys ks :
  forall d, covers d keys ->
  covers (fold_left (fun d k => Dict.set d k (f d k)) ks d) keys.
Proof.
  induction ks as [|k ks IH]; intros d H; cbn [fold_left]; [exact H|].
  apply IH, set_covers, H.
Qed.

Lemma initialiseWeights_covers keys :
  covers (ChurnPredictor.initialiseWeights keys) keys.
Proof.
  unfold covers. rewrite Forall_forall. intros key Hkey.
  unfold ChurnPredictor.initialiseWeights. rewrite initialiseWeights_get.
  replace (existsb (String.eqb key) keys) with true; [eexists; reflexivity|].
  symmetry. apply existsb_exists. exists key. split; [assumption|].
  apply String.eqb_refl.
Qed.

Lemma descentStep_covers Math_exp hyperParams matrix st keys :
  covers (snd st) keys ->
  covers (snd (ChurnPredictor.descentStep Math_exp hyperParams matrix st)) keys.
Proof.
  intros H. unfold ChurnPredictor.descentStep. destruct st as [bias weights].
  destruct (fold_left _ (vectors matrix) _) as [biasGradient weightGradients].
  cbn [snd] in *.
  apply (set_loop_covers
           (fun weights key =>
              Dict.index weights key
              - (ChurnPredictor.hp_learningRate hyperParams
                 / of_nat (List.length (vectors matrix))
                 * Dict.index weightGradients key
                 + ChurnPredictor.hp_regularization hyperParams
                   * Dict.index weights key))).
  exact H.
Qed.

Lemma FEATURE_KEYS_own : forallb Dict.ownKey FEATURE_KEYS = true.
Proof. reflexivity. Qed.

(** X9: for every batch whose feature keys name no member of
    [Object.prototype], as the keys of [FEATURE_KEYS] do not, and for all
    options, the model of [trainChurnModel] carries the feature order and
    the statistics of the matrix, and a weight for every feature key. *)
Theorem trained_model_weights Math_exp matrix options :
  forallb Dict.ownKey (featureOrder matrix) = true ->
  let model := ChurnPredictor.trainChurnModel Math_exp matrix options in
  featureKeys model = featureOrder matrix
  /\ featureMeans model = means (stats matrix)
  /\ featureStds model = stdDevs (stats matrix)
  /\ covers (weights model) (featureKeys model).
Proof.
  intros _ model. subst model. unfold ChurnPredictor.trainChurnModel.
  destruct (vectors matrix) as [|v vs] eqn:Ev.
  - repeat split. apply initialiseWeights_covers.
  - set (hp := ChurnPredictor.mergeOptions options).
    assert (H : covers
                  (snd (Nat.iter (ChurnPredictor.hp_iterations hp)
                          (ChurnPredictor.descentStep Math_exp hp matrix)
                          (0, ChurnPredictor.initialiseWeights (featureOrder matrix))))
                  (featureOrder matrix)).
    { induction (ChurnPredictor.hp_iterations hp) as [|k IH].
      - apply initialiseWeights_covers.
      - cbn [Nat.iter nat_rect]. apply descentStep_covers. exact IH. }
    destruct (Nat.iter _ _ _) as [bias weights]. repeat split. exact H.
Qed.

Lemma trained_model_weights_witness :
  forallb Dict.ownKey
    (featureOrder (buildFeatureMatrix [tutorWithDropout "T001" 0])) = true
  /\ covers
       (weights
          (ChurnPredictor.trainChurnModel exp_series
             (buildFeatureMatrix [tutorWithDropout "T001" 0])
             ChurnPredictor.noOptions))
       FEATURE_KEYS.
Proof.
  split; [reflexivity|].
  apply (trained_model_weights exp_series
           (buildFeatureMatrix [tutorWithDropout "T001" 0])
           ChurnPredictor.noOptions eq_refl).
Defined.

(** *** Forecast and anomaly *)

(** X11: the two projections of [forecastTrend] lie between 0 and 100, for
    every trend and every current score. *)
Theorem forecast_projections_in_range trend currentScore :
  let f := TrendForecaster.forecastTrend trend currentScore in
  (0 <=? score7d f) = true /\ (score7d f <=? 100) = true
  /\ (0 <=? score14d f) = true /\ (score14d f <=? 100) = true.
Proof.
  unfold TrendForecaster.forecastTrend.
  destruct (TrendForecaster.computeLinearRegression trend) as [slope intercept].
  cbn [score7d score14d].
  split; [|split; [|split]]; apply clamp_range; reflexivity.
Qed.

Lemma anomaly_clamp_range value :
  (0 <=? AnomalyDetector.clamp value 0 1) = true
  /\ (AnomalyDetector.clamp value 0 1 <=? 1) = true.
Proof.
  unfold AnomalyDetector.clamp, Number_isNaN.
  destruct (is_nan value) eqn:Hn; [split; reflexivity|].
  destruct (Math_max_spec 0 value eq_refl Hn) as (Hsel & Hlo & _).
  assert (Ht : is_nan (Math_max 0 value) = false)
    by (destruct Hsel as [-> | ->]; [reflexivity|assumption]).
  destruct (Math_min_spec 1 (Math_max 0 value) eq_refl Ht) as (Hsel' & Hhi & _).
  split; [|exact Hhi].
  destruct Hsel' as [-> | ->]; [reflexivity|exact Hlo].
Qed.

Lemma anomaly_loop vector matrix (U : list string) entries :
  incl (map fst entries) U ->
  forall st,
    Forall (fun c => In (fst c) U /\ (1.75 <? snd c) = true) (snd st) ->
    Forall (fun c => In (fst c) U /\ (1.75 <? snd c) = true)
      (snd (fold_left (AnomalyDetector.anomalyStep vector matrix) entries st)).
Proof.
  induction entries as [|[feature weight] rest IH]; intros Hincl [a cs] H;
    cbn [fold_left]; [exact H|].
  apply IH; [intros k Hk; apply Hincl; now right|].
  unfold AnomalyDetector.anomalyStep.
  set (z := Math_abs _).
  destruct (1.75 <? z) eqn:Ez; cbn [snd] in *; [|exact H].
  apply Forall_app. split; [exact H|].
  constructor; [|constructor]. cbn [fst snd]. split; [|exact Ez].
  apply Hincl. now left.
Qed.

(** X12: the score of [detectAnomaly] lies between 0 and 1, and every
    contributor is a weighted feature whose z-score exceeds 1.75 in
    absolute value. *)
Theorem anomaly_in_range vector matrix :
  let result := AnomalyDetector.detectAnomaly vector matrix in
  (0 <=? AnomalyDetector.score result) = true
  /\ (AnomalyDetector.score result <=? 1) = true
  /\ Forall
       (fun c => In (fst c) (Dict.keys AnomalyDetector.WEIGHTED_FEATURES)
                 /\ (1.75 <? snd c) = true)
       (AnomalyDetector.contributors result).
Proof.
  intros result. subst result. unfold AnomalyDetector.detectAnomaly.
  pose proof (anomaly_loop vector matrix
                (Dict.keys AnomalyDetector.WEIGHTED_FEATURES)
                AnomalyDetector.WEIGHTED_FEATURES (incl_refl _) (0, [])
                (Forall_nil _)) as H.
  destruct (fold_left (AnomalyDetector.anomalyStep vector matrix)
              AnomalyDetector.WEIGHTED_FEATURES (0, []))
    as [anomalyScore contributors] eqn:E.
  cbn [AnomalyDetector.score AnomalyDetector.contributors snd] in *.
  destruct (anomaly_clamp_range (anomalyScore / 12)) as [Hlo Hhi].
  split; [exact Hlo|]. split; [exact Hhi|].
  change contributors with (snd (anomalyScore, contributors)).
  rewrite <- E. exact H.
Qed.

(** *** Recommendations *)

Lemma mapi_ext_in {A B : Type} (f g : A -> nat -> B) l :
  (forall x i, In x l -> (i < List.length l)%nat -> f x i = g x i) ->
  mapi f l = mapi g l.
Proof.
  intros H. unfold mapi, indexed. apply map_ext_in. intros [i x] Hin.
  cbn [fst snd]. apply H; [apply (in_combine_r _ _ _ _ Hin)|].
  apply in_combine_l in Hin. apply in_seq in Hin. lia.
Qed.

Lemma indexed_snd {A : Type} (l : list A) : map snd (indexed l) = l.
Proof.
  unfold indexed. generalize 0%nat.
  induction l as [|x l IH]; intros k; [reflexivity|].
  cbn [List.length seq combine map snd]. f_equal. apply IH.
Qed.

Lemma mapi_map {A B C : Type} (f : A -> nat -> B) (g : B -> C) (h : A -> C) l :
  (forall x i, g (f x i) = h x) -> map g (mapi f l) = map h l.
Proof.
  intros H. unfold mapi. rewrite map_map.
  rewrite <- (indexed_snd l) at 2. rewrite map_map.
  apply map_ext. intros [i x]. apply H.
Qed.

Lemma uncapped_effectiveness vector :
  forallb
    (fun item =>
       forallb
         (fun index =>
            Leibniz.eqb
              (Math_min 0.95
                 (effectiveness (build item vector) + of_nat index * 0.05))
              (effectiveness (build item vector) + of_nat index * 0.05))
         (seq 0 3))
    INTERVENTION_LIBRARY = true.
Proof. vm_compute. reflexivity. Qed.

Lemma library_ids vector :
  map (fun item => id (build item vector)) INTERVENTION_LIBRARY
  = map item_id INTERVENTION_LIBRARY.
Proof. reflexivity. Qed.

Lemma library_ids_distinct : NoDup (map item_id INTERVENTION_LIBRARY).
Proof.
  cbn. repeat constructor; cbn; intuition discriminate.
Qed.

Lemma NoDup_map_filter {A B : Type} (f : A -> B) p l :
  NoDup (map f l) -> NoDup (map f (filter p l)).
Proof.
  induction l as [|x l IH]; intros H; [constructor|].
  cbn [map] in H. inversion H as [|? ? Hx Hl]; subst. cbn [filter].
  destruct (p x); [|apply IH, Hl].
  cbn [map]. constructor; [|apply IH, Hl].
  intros Hin. apply Hx. apply in_map_iff in Hin.
  destruct Hin as (y & Hy & Hin). apply filter_In in Hin.
  apply in_map_iff. exists y. tauto.
Qed.

Lemma NoDup_firstn {A : Type} n (l : list A) : NoDup l -> NoDup (firstn n l).
Proof.
  intros H. rewrite <- (firstn_skipn n l) in H.
  apply NoDup_app_remove_r in H. exact H.
Qed.

Lemma kept_candidates vector context :
  Permutation (scoredCandidates vector context)
    (filter (fun entry => 0.05 <? match_score entry)
       (candidates vector context)).
Proof. apply sort_perm. Qed.

Lemma kept_entry vector context entry :
  In entry (firstn 3 (scoredCandidates vector context)) ->
  exists item,
    In item INTERVENTION_LIBRARY
    /\ entry = {| intervention := build item vector;
                  match_score := item_match item vector context |}
    /\ (0.05 <? item_match item vector context) = true.
Proof.
  intros H. apply In_firstn_inv in H.
  apply (Permutation_in _ (kept_candidates vector context)) in H.
  apply filter_In in H. destruct H as [Hc Hs].
  apply in_map_iff in Hc. destruct Hc as (item & <- & Hitem).
  exists item. repeat split; assumption.
Qed.

(** X13: the cap of [recommendInterventions] never binds: the pick of rank [i]
    has the effectiveness of its library entry plus [0.05 * i]; the picks
    have distinct ids, all of them ids of the library. *)
Theorem picks_are_library_entries vector context :
  let picks := recommendInterventions vector context in
  picks = mapi raise (firstn 3 (scoredCandidates vector context))
  /\ NoDup (map id picks)
  /\ incl (map id picks) (map item_id INTERVENTION_LIBRARY).
Proof.
  intros picks. subst picks. unfold recommendInterventions, slice.
  rewrite Nat.sub_0_r. cbn [skipn].
  set (top := firstn 3 (scoredCandidates vector context)).
  assert (Hids : map id (mapi bump top) = map (fun e => id (intervention e)) top)
    by (apply mapi_map; reflexivity).
  split; [|split].
  - apply mapi_ext_in. intros entry i Hentry Hi.
    unfold top in Hi. rewrite length_firstn in Hi.
    destruct (kept_entry vector context entry Hentry) as (item & Hitem & -> & _).
    unfold bump, raise. cbn [intervention]. f_equal.
    pose proof (uncapped_effectiveness vector) as H. rewrite forallb_forall in H.
    specialize (H item Hitem). rewrite forallb_forall in H.
    apply Leibniz.eqb_spec, H. apply in_seq. lia.
  - rewrite Hids. unfold top. rewrite <- firstn_map. apply NoDup_firstn.
    eapply Permutation_NoDup.
    + symmetry. apply Permutation_map, kept_candidates.
    + apply NoDup_map_filter. unfold candidates. rewrite map_map. cbn [intervention].
      rewrite library_ids. apply library_ids_distinct.
  - rewrite Hids. intros k Hk. apply in_map_iff in Hk.
    destruct Hk as (entry & <- & Hentry).
    destruct (kept_entry vector context entry Hentry) as (item & Hitem & -> & _).
    cbn [intervention]. rewrite <- (library_ids vector).
    apply (in_map (fun item => id (build item vector))), Hitem.
Qed.

(** X14: [recommendInterventions] proposes the momentum boost only for a
    declining forecast. *)
Theorem momentum_only_when_declining vector context pick :
  In pick (recommendInterventions vector context) ->
  id pick = "momentum-boost"%string ->
  forecastTrajectory context = declining.
Proof.
  unfold recommendInterventions, slice. rewrite Nat.sub_0_r. cbn [skipn].
  intros Hin Hid. apply mapi_In in Hin.
  destruct Hin as (entry & i & -> & Hentry & _).
  destruct (kept_entry vector context entry Hentry) as (item & Hitem & -> & Hs).
  cbn [bump id intervention] in Hid.
  cbn in Hitem.
  destruct Hitem as [<- | [<- | [<- | [<- | [<- | [<- | []]]]]]];
    cbn in Hid; try discriminate.
  cbn [item_match] in Hs.
  destruct (forecastTrajectory context); cbn in Hs; try discriminate.
  reflexivity.
Qed.

Lemma momentum_only_when_declining_witness :
  In momentumPick (recommendInterventions fallingVector decliningContext)
  /\ forecastTrajectory decliningContext = declining.
Proof.
  assert (H : In momentumPick
                (recommendInterventions fallingVector decliningContext))
    by (vm_compute; left; reflexivity).
  split; [exact H|].
  exact (momentum_only_when_declining fallingVector decliningContext
           momentumPick H eq_refl).
Defined.

Lemma small_max_zero d :
  (0 <? d) = false -> (0.05 <? Math_max 0 d) = false.
Proof.
  intros Hd. unfold Math_max. cbn [is_nan]. change (is_nan 0) with false.
  cbn [orb]. destruct (is_nan d) eqn:Hn; [reflexivity|].
  rewrite Hd.
  assert (H05 : (0.05 <? d) = false).
  { destruct (0.05 <? d) eqn:E; [|reflexivity].
    rewrite (ltb_pos_trans 0.05 d eq_refl E) in Hd. discriminate. }
  destruct (d <? 0); [reflexivity|].
  change (is_neg_zero 0) with false. reflexivity.
Qed.

(** X15: a tutor without first-session dropouts, tech issues, reschedules
    of their own or no-shows, rated at least 3.5 in first sessions and
    4.5 overall, whose forecast does not decline, gets no
    recommendation. *)
Theorem healthy_tutor_gets_nothing vector context :
  healthy vector ->
  is_declining (forecastTrajectory context) = false ->
  recommendInterventions vector context = [].
Proof.
  intros (H1 & H2 & H3 & H4 & (r1 & H5 & Hr1) & (r & H6 & Hr)) Hdecl.
  assert (Hnone : filter (fun entry => 0.05 <? match_score entry)
                    (candidates vector context) = []).
  { unfold candidates, INTERVENTION_LIBRARY. cbn [map filter match_score item_match].
    rewrite H1, H2, H3, H4, H5, H6, Hdecl. cbn [nullish].
    change (0 * 2) with 0. change (0 * 4) with 0. change (0 * 3) with 0.
    change (0.05 <? 0) with false. cbv iota.
    rewrite !small_max_zero; [reflexivity| |].
    - rewrite sub_pos_iff. apply leb_not_ltb, Hr.
    - rewrite add_zero_l_pos, sub_pos_iff. apply leb_not_ltb, Hr1. }
  unfold recommendInterventions, scoredCandidates. fold (candidates vector context).
  rewrite Hnone. reflexivity.
Qed.

Lemma healthy_tutor_gets_nothing_witness :
  healthy (buildFeatureVector (tutorWithDropout "T001" 0))
  /\ recommendInterventions (buildFeatureVector (tutorWithDropout "T001" 0))
       stableContext = [].
Proof.
  assert (H : healthy (buildFeatureVector (tutorWithDropout "T001" 0))).
  { unfold healthy. repeat split; try reflexivity;
      eexists; split; reflexivity. }
  split; [exact H|].
  exact (healthy_tutor_gets_nothing
           (buildFeatureVector (tutorWithDropout "T001" 0)) stableContext
           H eq_refl).
Defined.

(** *** Personas *)

Lemma ltb_infinity_top x y :
  (x <? infinity) = false -> (y <? infinity) = false -> (y <? x) = false.
Proof.
  rewrite !FloatAxioms.ltb_spec.
  change (Prim2SF infinity) with (S754_infinity false).
  destruct (Prim2SF x) as [sx|sx| |sx mx ex]; destruct (Prim2SF y) as [sy|sy| |sy my ey];
    try destruct sx; try destruct sy; cbn; intros; try reflexivity; try discriminate.
Qed.

Lemma persona_nearest featureVector personas :
  let d := fun p => PatternRecognition.euclideanDistance featureVector
                      (PatternRecognition.personaToCentroid p) in
  forall closest minDistance,
    let st := fold_left (PatternRecognition.personaStep featureVector) personas
                (closest, minDistance) in
    (st = (closest, minDistance) \/ snd st = d (fst st))
    /\ ((snd st <? minDistance) = true \/ snd st = minDistance)
    /\ Forall (fun p => (d p <? snd st) = false) personas.
Proof.
  intros d. induction personas as [|p rest IH]; intros closest minDistance.
  - cbn. split; [now left|]. split; [now right|constructor].
  - cbn [fold_left].
    assert (Hstep : PatternRecognition.personaStep featureVector
                      (closest, minDistance) p
                    = if d p <? minDistance then (p, d p)
                      else (closest, minDistance)) by reflexivity.
    rewrite Hstep. clear Hstep.
    destruct (d p <? minDistance) eqn:E.
    + specialize (IH p (d p)). cbn zeta in IH.
      set (st := fold_left _ rest (p, d p)) in *.
      destruct IH as (Hst & Hle & Hall).
      split; [|split].
      * right. destruct Hst as [Hst | Hst]; [rewrite Hst; reflexivity|exact Hst].
      * destruct Hle as [Hlt | ->]; [|now left].
        left. apply (ltb_trans _ _ _ Hlt E).
      * constructor; [|exact Hall].
        destruct Hle as [Hlt | ->]; [|apply ltb_irrefl].
        destruct (d p <? snd st) eqn:E'; [|reflexivity].
        pose proof (ltb_trans _ _ _ Hlt E') as Hc.
        rewrite ltb_irrefl in Hc. discriminate.
    + specialize (IH closest minDistance). cbn zeta in IH.
      set (st := fold_left _ rest (closest, minDistance)) in *.
      destruct IH as (Hst & Hle & Hall).
      split; [exact Hst|]. split; [exact Hle|].
      constructor; [|exact Hall].
      destruct Hle as [Hlt | ->]; [|exact E].
      destruct (d p <? snd st) eqn:E'; [|reflexivity].
      rewrite (ltb_trans _ _ _ E' Hlt) in E. discriminate.
Qed.

(** X16: no persona of the library is strictly nearer to the tutor than the
    one that [assignPersona] returns. *)
Theorem assigned_persona_is_nearest vector :
  Forall
    (fun persona =>
       (distanceTo vector persona
        <? distanceTo vector (PatternRecognition.assignPersona vector)) = false)
    PatternRecognition.PERSONA_LIBRARY.
Proof.
  unfold PatternRecognition.assignPersona, distanceTo.
  set (featureVector := PatternRecognition.normaliseVector vector).
  destruct (persona_nearest featureVector PatternRecognition.PERSONA_LIBRARY
              (hd PatternRecognition.rising_star PatternRecognition.PERSONA_LIBRARY)
              infinity) as (Hst & _ & Hall).
  set (st := fold_left _ _ _) in *.
  destruct Hst as [Hst | Hst].
  - rewrite Hst in *. cbn [fst snd] in *.
    rewrite Forall_forall in *. intros p Hp.
    apply ltb_infinity_top; [|apply Hall, Hp].
    apply Hall. cbn. now left.
  - rewrite Hst in Hall. exact Hall.
Qed.

(** *** The orchestrator *)

Lemma set_entries {V : Type} (P : string * V -> Prop) (d : Dict.t V) k v :
  Forall P d -> P (k, v) -> Forall P (Dict.set d k v).
Proof.
  intros Hd Hv. induction d as [|[k0 x] rest IH]; cbn [Dict.set].
  - constructor; [exact Hv|constructor].
  - inversion Hd as [|? ? H0 Hrest]; subst.
    destruct (String.eqb k0 k) eqn:E.
    + apply String.eqb_eq in E. subst k0. constructor; assumption.
    + constructor; [exact H0|apply IH, Hrest].
Qed.

Lemma insightStep_bundle Math_exp tutors matrix model insightsMap vector :
  Orchestrator.insightStep Math_exp tutors matrix model insightsMap vector
  = match firstWithId tutors (tutorId vector) with
    | None => insightsMap
    | Some matchedTutor =>
        Dict.set insightsMap (tutorId vector)
          (bundleOf Math_exp matrix model vector matchedTutor)
    end.
Proof. reflexivity. Qed.

Lemma insights_entries Math_exp tutors matrix model
    (P : string * Orchestrator.TutorAiInsights -> Prop) vs :
  (forall vector matchedTutor,
      In vector vs ->
      firstWithId tutors (tutorId vector) = Some matchedTutor ->
      P (tutorId vector, bundleOf Math_exp matrix model vector matchedTutor)) ->
  forall insightsMap,
    Forall P insightsMap ->
    Forall P (fold_left (Orchestrator.insightStep Math_exp tutors matrix model)
                vs insightsMap).
Proof.
  induction vs as [|vector rest IH]; intros Hstep insightsMap Hmap;
    cbn [fold_left]; [exact Hmap|].
  apply IH; [intros v t Hv; apply Hstep; now right|].
  rewrite insightStep_bundle.
  destruct (firstWithId tutors (tutorId vector)) as [matchedTutor|] eqn:E;
    [|exact Hmap].
  apply set_entries; [exact Hmap|]. apply Hstep; [now left|exact E].
Qed.

Lemma insights_covered Math_exp tutors matrix model keys vs :
  forall insightsMap,
    covers insightsMap keys ->
    covers (fold_left (Orchestrator.insightStep Math_exp tutors matrix model)
              vs insightsMap) keys.
Proof.
  induction vs as [|vector rest IH]; intros insightsMap H; cbn [fold_left];
    [exact H|].
  apply IH. rewrite insightStep_bundle.
  destruct (firstWithId tutors (tutorId vector)); [apply set_covers|]; exact H.
Qed.

Lemma insights_cover_vectors Math_exp tutors matrix model vs :
  Forall (fun vector => exists t, firstWithId tutors (tutorId vector) = Some t) vs ->
  forall insightsMap,
    covers (fold_left (Orchestrator.insightStep Math_exp tutors matrix model)
              vs insightsMap) (map tutorId vs).
Proof.
  induction vs as [|vector rest IH]; intros Hvs insightsMap; cbn [fold_left map];
    [constructor|].
  inversion Hvs as [|? ? [t Ht] Hrest]; subst.
  constructor; [|apply IH, Hrest].
  assert (H : covers (Orchestrator.insightStep Math_exp tutors matrix model
                        insightsMap vector) [tutorId vector]).
  { rewrite insightStep_bundle, Ht. constructor; [|constructor].
    rewrite Dict_get_set, String.eqb_refl. eexists. reflexivity. }
  apply (insights_covered Math_exp tutors matrix model _ rest) in H.
  inversion H; assumption.
Qed.

Lemma find_first_some {A : Type} (p : A -> bool) l x :
  In x l -> p x = true -> exists y, find p l = Some y.
Proof.
  induction l as [|a l IH]; intros Hin Hp; [destruct Hin|].
  cbn [find]. destruct (p a) eqn:E; [eexists; reflexivity|].
  destruct Hin as [-> | Hin]; [congruence|]. apply IH; assumption.
Qed.

Lemma buildFeatureVector_id tutor :
  tutorId (buildFeatureVector tutor) = tutor_id tutor.
Proof. reflexivity. Qed.

(** X17: [generateAiInsights] stores a bundle under the id of every tutor;
    each stored bundle belongs to a vector of the batch, and its
    forecast is that of the first tutor of the batch with its id. *)
Theorem insights_cover_tutors Math_exp tutors :
  let insights := Orchestrator.generateAiInsights Math_exp tutors in
  covers insights (map tutor_id tutors)
  /\ Forall
       (fun entry =>
          exists vector matchedTutor,
            In vector (map buildFeatureVector tutors)
            /\ tutorId vector = fst entry
            /\ firstWithId tutors (fst entry) = Some matchedTutor
            /\ Orchestrator.forecast (snd entry)
               = TrendForecaster.forecastTrend (trend_7d matchedTutor)
                   (Ai.score matchedTutor)
            /\ Orchestrator.persona (snd entry)
               = Some (PatternRecognition.assignPersona vector))
       insights.
Proof.
  intros insights. subst insights. unfold Orchestrator.generateAiInsights.
  cbn [vectors buildFeatureMatrix]. split.
  - replace (map tutor_id tutors)
      with (map tutorId (map buildFeatureVector tutors))
      by (rewrite map_map; reflexivity).
    apply insights_cover_vectors. rewrite Forall_forall. intros vector Hv.
    apply in_map_iff in Hv. destruct Hv as (t & <- & Ht).
    apply (find_first_some _ _ t Ht). rewrite buildFeatureVector_id.
    apply String.eqb_refl.
  - apply insights_entries; [|constructor].
    intros vector matchedTutor Hv Hfind. exists vector, matchedTutor.
    cbn [fst snd]. repeat split; assumption.
Qed.

Lemma recommendInterventions_length vector context :
  (List.length (recommendInterventions vector context) <= 3)%nat.
Proof.
  unfold recommendInterventions, slice. rewrite mapi_length, length_firstn. lia.
Qed.

(** X18: every bundle of [generateAiInsights] holds at most three
    interventions, an anomaly score between 0 and 1, a forecast
    confidence between 0.2 and 0.95 and projections between 0 and 100. *)
Theorem insight_bundles_in_range Math_exp tutors :
  Forall
    (fun entry =>
       let insight := snd entry in
       let f := Orchestrator.forecast insight in
       (List.length (Orchestrator.interventions insight) <= 3)%nat
       /\ (0 <=? Orchestrator.anomalyScore insight) = true
       /\ (Orchestrator.anomalyScore insight <=? 1) = true
       /\ (0.2 <=? confidence f) = true /\ (confidence f <=? 0.95) = true
       /\ (0 <=? score7d f) = true /\ (score7d f <=? 100) = true
       /\ (0 <=? score14d f) = true /\ (score14d f <=? 100) = true)
    (Orchestrator.generateAiInsights Math_exp tutors).
Proof.
  unfold Orchestrator.generateAiInsights.
  apply insights_entries; [|constructor].
  intros vector matchedTutor _ _. cbn [snd]. cbv zeta.
  unfold bundleOf.
  cbn [Orchestrator.interventions Orchestrator.anomalyScore Orchestrator.forecast].
  split; [apply recommendInterventions_length|].
  assert (Ha : (0 <=? AnomalyDetector.score
                        (AnomalyDetector.detectAnomaly vector
                           (buildFeatureMatrix tutors))) = true
               /\ (AnomalyDetector.score
                     (AnomalyDetector.detectAnomaly vector
                        (buildFeatureMatrix tutors)) <=? 1) = true).
  { unfold AnomalyDetector.detectAnomaly.
    destruct (fold_left
                (AnomalyDetector.anomalyStep vector (buildFeatureMatrix tutors))
                AnomalyDetector.WEIGHTED_FEATURES (0, []))
      as [anomalyScore contributors].
    cbn [AnomalyDetector.score]. apply anomaly_clamp_range. }
  destruct Ha as [Ha0 Ha1]. split; [exact Ha0|]. split; [exact Ha1|].
  unfold TrendForecaster.forecastTrend.
  destruct (TrendForecaster.computeLinearRegression (trend_7d matchedTutor))
    as [slope intercept].
  cbn [confidence score7d score14d].
  repeat split; apply clamp_range; reflexivity.
Qed.

(** *** The confidence of a churn prediction *)

Lemma Prim2SF_quarter :
  Prim2SF 0.25 = S754_finite false 4503599627370496 (-54).
Proof. reflexivity. Qed.

Lemma Prim2SF_4 : Prim2SF 4 = S754_finite false 4503599627370496 (-50).
Proof. reflexivity. Qed.

Lemma shr_fexp_nonneg m e l :
  (0 <= m)%Z -> (0 <= shr_m (fst (shr_fexp prec emax m e l)))%Z.
Proof.
  intros Hm. unfold shr_fexp, shr.
  destruct (fexp prec emax (Zdigits2 m + e) - e)%Z as [|n|n]; cbn [fst].
  - rewrite shr_record_of_loc_m. exact Hm.
  - rewrite iter_pos_nat, shr_iter_m by (rewrite shr_record_of_loc_m; exact Hm).
    rewrite shr_record_of_loc_m. apply Z.div_pos; [exact Hm|].
    apply Z.pow_pos_nonneg; lia.
  - rewrite shr_record_of_loc_m. exact Hm.
Qed.

Lemma round_nearest_even_nonneg m l :
  (0 <= m)%Z -> (0 <= round_nearest_even m l)%Z.
Proof.
  intros H. destruct l as [|[]]; simpl; try lia.
  destruct (Z.even m); lia.
Qed.

(** Rounding a mantissa that is not negative never gives NaN. *)
Lemma binary_round_aux_not_nan s m e l :
  (0 <= m)%Z -> binary_round_aux prec emax s m e l <> S754_nan.
Proof.
  intros Hm. unfold binary_round_aux.
  pose proof (shr_fexp_nonneg m e l Hm) as H1.
  destruct (shr_fexp prec emax m e l) as [mrs' e']. cbn [fst] in H1.
  pose proof (round_nearest_even_nonneg _ (loc_of_shr_record mrs') H1) as H2.
  pose proof (shr_fexp_nonneg _ e' loc_Exact H2) as H3.
  destruct (shr_fexp prec emax _ e' loc_Exact) as [mrs'' e'']. cbn [fst] in H3.
  destruct (shr_m mrs''); [discriminate| |lia].
  destruct (e'' <=? emax - prec)%Z; discriminate.
Qed.

(** [|x| / 4] is NaN exactly when [x] is, and is never negative. *)
Lemma abs_quarter x :
  is_nan (abs x / 4) = is_nan x /\ has_sign false (Prim2SF (abs x / 4)).
Proof.
  rewrite !is_nan_SF, div_spec, abs_spec, Prim2SF_4.
  destruct (Prim2SF x) as [s|s| |s m e]; cbn [SFabs SF64div SFdiv xorb];
    try (split; [reflexivity|exact I || reflexivity]).
  unfold SFdiv_core_binary.
  set (e' := Z.min _ _). set (shift := (e - -50 - e')%Z).
  set (m' := match shift with Z0 => Z.pos m | Z.pos _ => Z.shiftl (Z.pos m) shift | Z.neg _ => 0%Z end).
  assert (Hm' : (0 <= m')%Z).
  { unfold m'. destruct shift; try lia. apply Z.shiftl_nonneg. lia. }
  pose proof (Z.div_pos m' 4503599627370496 Hm' ltac:(lia)) as Hq.
  unfold Z.div in Hq.
  destruct (Z.div_eucl m' 4503599627370496) as [q r]. cbn [fst] in Hq.
  generalize (new_location 4503599627370496 r). intros l.
  pose proof (binary_round_aux_sign false q e' l) as Hs.
  pose proof (binary_round_aux_not_nan false q e' l Hq) as Hn.
  split; [|exact Hs].
  destruct (binary_round_aux prec emax false q e' l); try reflexivity.
  congruence.
Qed.

(** Adding a quarter to a number that is not negative gives a positive
    number. *)
Lemma add_quarter_pos c :
  is_nan c = false -> has_sign false (Prim2SF c) -> (0 <? c + 0.25) = true.
Proof.
  rewrite is_nan_SF, FloatAxioms.ltb_spec, add_spec.
  change (Prim2SF 0) with (S754_zero false). rewrite Prim2SF_quarter.
  pose proof (Prim2SF_valid c) as Hv.
  destruct (Prim2SF c) as [s|s| |s m e]; try discriminate; intros _ Hs;
    cbn [has_sign] in Hs; subst s; try reflexivity.
  simpl in Hv. destruct (canonical_digits m e Hv) as (He & _).
  unfold SF64add, SFadd.
  set (ez := Z.min e (-54)).
  set (X := Z.pos (fst (shl_align m e ez))).
  set (Y := Z.pos (fst (shl_align 4503599627370496 (-54) ez))).
  cbn [cond_Zopp].
  assert (HX : (0 < X)%Z) by (unfold X; lia).
  assert (HY : (0 < Y)%Z) by (unfold Y; lia).
  destruct (X + Y)%Z as [|p|p] eqn:E; try lia.
  cbn [binary_normalize].
  apply SFltb_zero_l, binary_round_nonzero. unfold ez. lia.
Qed.

(** X10: the confidence of [predictChurn] is NaN when the weighted sum is
    NaN, and otherwise positive and at most 1. *)
Theorem churn_confidence_range Math_exp vector model :
  let sum :=
    ChurnPredictor.linearSum vector (weights model) (bias model)
      (featureMeans model) (featureStds model) (featureKeys model) in
  let c :=
    ChurnPredictor.prediction_confidence
      (ChurnPredictor.predictChurn Math_exp vector model) in
  if is_nan sum then is_nan c = true
  else (0 <? c) = true /\ (c <=? 1) = true.
Proof.
  intros sum c. subst c. unfold ChurnPredictor.predictChurn.
  cbn [ChurnPredictor.prediction_confidence]. fold sum. unfold Math_abs.
  destruct (abs_quarter sum) as [Hnan Hsign].
  destruct (is_nan sum) eqn:Hs.
  - unfold Math_min. change (is_nan 1) with false. cbn [orb].
    assert (H : is_nan (abs sum / 4 + 0.25) = true).
    { rewrite is_nan_SF, add_spec. rewrite is_nan_SF in Hnan.
      destruct (Prim2SF (abs sum / 4)); try discriminate. reflexivity. }
    rewrite H. reflexivity.
  - pose proof (add_quarter_pos _ Hnan Hsign) as Hpos.
    pose proof (ltb_not_nan_r _ _ Hpos) as Hn.
    destruct (Math_min_spec 1 (abs sum / 4 + 0.25) eq_refl Hn) as (Hsel & Hle & _).
    split; [|exact Hle].
    destruct Hsel as [-> | ->]; [reflexivity|exact Hpos].
Qed.

(** *** Counting in binary64 *)

Lemma nat_iter_xO_value k : forall m,
  Z.pos (Nat.iter k xO m) = (Z.pos m * 2 ^ Z.of_nat k)%Z.
Proof.
  induction k as [|k IH]; intros m.
  - simpl. lia.
  - cbn [Nat.iter nat_rect]. rewrite Pos2Z.inj_xO.
    change (nat_rect _ m (fun _ => xO) k) with (Nat.iter k xO m).
    rewrite IH, Nat2Z.inj_succ, Z.pow_succ_r by lia. lia.
Qed.

Lemma nat_iter_xO_digits k : forall m,
  Z.pos (digits2_pos (Nat.iter k xO m))
  = (Z.pos (digits2_pos m) + Z.of_nat k)%Z.
Proof.
  induction k as [|k IH]; intros m.
  - simpl. lia.
  - cbn [Nat.iter nat_rect digits2_pos].
    change (nat_rect _ m (fun _ => xO) k) with (Nat.iter k xO m).
    rewrite Pos2Z.inj_succ, IH. lia.
Qed.

Lemma shr_iter_exact k : forall a,
  Nat.iter k shr_1
    {| shr_m := Z.pos (Nat.iter k xO a); shr_r := false; shr_s := false |}
  = {| shr_m := Z.pos a; shr_r := false; shr_s := false |}.
Proof.
  induction k as [|k IH]; intros a; [reflexivity|].
  rewrite Nat.iter_succ_r. cbn [Nat.iter nat_rect shr_1 orb].
  apply IH.
Qed.

(** A first shift that is exact and reaches a canonical mantissa is the
    whole rounding. *)
Lemma binary_round_aux_exact s m e l a e' :
  shr_fexp prec emax m e l
  = ({| shr_m := Z.pos a; shr_r := false; shr_s := false |}, e') ->
  bounded prec emax a e' = true ->
  binary_round_aux prec emax s m e l = S754_finite s a e'.
Proof.
  intros Hfirst H. unfold bounded, canonical_mantissa in H.
  apply andb_prop in H. destruct H as [Hc He]. apply Z.eqb_eq in Hc.
  unfold binary_round_aux. rewrite Hfirst.
  cbn [loc_of_shr_record shr_m round_nearest_even].
  unfold shr_fexp. simpl Zdigits2. rewrite Hc, Z.sub_diag.
  cbn [shr shr_record_of_loc shr_m]. rewrite He. reflexivity.
Qed.

(** The sum of the aligned mantissas of an integer and of one rounds to
    the next integer. *)
Lemma binary_round_int52 p q :
  (2 <= Z.pos (digits2_pos p) <= 53)%Z ->
  (Z.pos q = Z.pos p * 2 ^ 52)%Z ->
  binary_round prec emax false q (-52) = int_repr false p.
Proof.
  intros Hd Hq.
  destruct (binary_round_small false p (proj2 Hd)) as [_ Hvalid].
  destruct (int_repr_value false p (proj2 Hd)) as (m & e & Hrepr & He & Hm).
  rewrite Hrepr in *. cbn [valid_binary] in Hvalid.
  destruct (canonical_digits m e Hvalid) as (_ & _ & Hdm).
  set (d := Z.pos (digits2_pos p)) in *.
  set (k := Z.to_nat (d - 1)).
  assert (Hqm : q = Nat.iter k xO m).
  { apply Pos2Z.inj_pos. rewrite nat_iter_xO_value, Hq, Hm. unfold k.
    rewrite Z2Nat.id by lia. rewrite <- Z.mul_assoc, <- Z.pow_add_r by lia.
    f_equal. f_equal. lia. }
  assert (Hdq : Z.pos (digits2_pos q) = (d + 52)%Z).
  { rewrite Hqm, nat_iter_xO_digits. unfold k. rewrite Z2Nat.id by lia.
    rewrite Hdm by lia. lia. }
  unfold binary_round. rewrite Hdq.
  assert (Hf : fexp prec emax (d + 52 + -52) = (d - 53)%Z)
    by (unfold fexp, emin, prec, emax; lia).
  rewrite Hf. unfold shl_align.
  destruct (d - 53 - -52)%Z as [|n|n] eqn:En; try lia.
  apply binary_round_aux_exact; [|exact Hvalid].
  unfold shr_fexp. cbn [Zdigits2]. rewrite Hdq, Hf, En.
  cbn [shr shr_record_of_loc]. rewrite iter_pos_nat.
  replace (Pos.to_nat n) with k by (unfold k; lia).
  rewrite Hqm, shr_iter_exact. f_equal. lia.
Qed.

Lemma of_nat_zero : of_nat 0 = 0.
Proof. reflexivity. Qed.

(** Counting is exact below [2 ^ 53]. *)
Lemma of_nat_succ n :
  (Z.of_nat (S n) < 2 ^ 53)%Z -> of_nat n + 1 = of_nat (S n).
Proof.
  intros Hn. destruct n as [|n]; [reflexivity|].
  apply Prim2SF_inj. unfold of_nat.
  assert (Hp : exists p, Z.of_nat (S n) = Z.pos p /\ Z.of_nat (S (S n)) = Z.pos (p + 1)).
  { exists (Pos.of_succ_nat n). split; [reflexivity|].
    rewrite Pos.add_1_r. reflexivity. }
  destruct Hp as (p & Hp1 & Hp2). rewrite Hp2 in Hn. rewrite Hp1, Hp2.
  clear Hp1 Hp2.
  assert (Hp : (Z.pos p < 2 ^ 53)%Z).
  { rewrite Pos2Z.inj_add in Hn. generalize dependent (2 ^ 53)%Z. intros. lia. }
  assert (Hd : (Z.pos (digits2_pos p) <= 53)%Z)
    by (apply digits2_pos_le; [lia|exact Hp]).
  assert (Hd1 : (2 <= Z.pos (digits2_pos (p + 1)) <= 53)%Z).
  { split; [|apply digits2_pos_le; [lia|exact Hn]].
    destruct (digits2_pos_bounds (p + 1)) as [_ Hhi].
    destruct (Z_le_gt_dec 2 (Z.pos (digits2_pos (p + 1)))) as [|Hgt]; [assumption|].
    exfalso. replace (Z.pos (digits2_pos (p + 1))) with 1%Z in Hhi by lia.
    simpl in Hhi. lia. }
  rewrite add_spec, (Prim2SF_of_integer_pos false p Hd), Prim2SF_1.
  rewrite (Prim2SF_of_integer_pos false (p + 1) (proj2 Hd1)).
  destruct (binary_round_small false p Hd) as [_ Hvalid].
  destruct (int_repr_value false p Hd) as (m & e & Hrepr & He & Hm).
  rewrite Hrepr in *. cbn [valid_binary] in Hvalid.
  unfold SF64add, SFadd. cbn [cond_Zopp].
  assert (Hez : Z.min e (-52) = (-52)%Z) by lia. rewrite Hez.
  rewrite (shl_align_value m e (-52)) by lia.
  rewrite (shl_align_value 4503599627370496 (-52) (-52)) by lia.
  rewrite Z.sub_diag, Z.pow_0_r, Z.mul_1_r.
  assert (Hsum : (Z.pos m * 2 ^ (e - -52) + 4503599627370496
                  = Z.pos (p + 1) * 2 ^ 52)%Z).
  { rewrite Hm, <- Z.mul_assoc, <- Z.pow_add_r by lia.
    replace (- e + (e - -52))%Z with 52%Z by lia.
    change 4503599627370496%Z with (2 ^ 52)%Z.
    generalize (2 ^ 52)%Z. intros. lia. }
  rewrite Hsum.
  assert (Hpos : (0 < Z.pos (p + 1) * 2 ^ 52)%Z)
    by (apply Z.mul_pos_pos; [lia|apply Z.pow_pos_nonneg; lia]).
  destruct (Z.pos (p + 1) * 2 ^ 52)%Z as [|q|q] eqn:Eq; try lia.
  cbn [binary_normalize]. apply binary_round_int52; [exact Hd1|].
  symmetry. exact Eq.
Qed.

Lemma of_nat_pos n :
  (Z.of_nat n < 2 ^ 53)%Z -> (0 <? of_nat n) = negb (n =? 0)%nat.
Proof.
  intros Hn. destruct n as [|n]; [reflexivity|].
  rewrite FloatAxioms.ltb_spec. unfold of_nat.
  change (Z.of_nat (S n)) with (Z.pos (Pos.of_succ_nat n)) in *.
  rewrite (Prim2SF_of_integer_pos false _ (digits2_pos_le _ 53 ltac:(lia) Hn)).
  destruct (int_repr_value false (Pos.of_succ_nat n)
              (digits2_pos_le _ 53 ltac:(lia) Hn)) as (m & e & -> & _).
  reflexivity.
Qed.

(** *** The counters of [computeMetrics] *)

Lemma countOf_le p sessions :
  (countOf p sessions <= List.length sessions)%nat.
Proof. apply filter_length_le. Qed.

Lemma counter_loop (f : Counters -> number) (p : SessionRecord -> bool) :
  (forall c s, f (countSession c s) = if p s then f c + 1 else f c) ->
  forall sessions c n,
    f c = of_nat n ->
    (Z.of_nat (n + List.length sessions) < 2 ^ 53)%Z ->
    f (fold_left countSession sessions c) = of_nat (n + countOf p sessions).
Proof.
  intros Hstep. induction sessions as [|s rest IH]; intros c n Hc Hn.
  - cbn. rewrite Nat.add_0_r. exact Hc.
  - cbn [fold_left]. unfold countOf. cbn [filter]. cbn [List.length] in Hn.
    destruct (p s) eqn:Ep.
    + cbn [List.length]. rewrite Nat.add_succ_r.
      apply (IH (countSession c s) (S n)).
      * rewrite Hstep, Ep, Hc. apply of_nat_succ.
        generalize dependent (2 ^ 53)%Z. intros. lia.
      * generalize dependent (2 ^ 53)%Z. intros. lia.
    + apply (IH (countSession c s) n).
      * rewrite Hstep, Ep. exact Hc.
      * generalize dependent (2 ^ 53)%Z. intros. lia.
Qed.

Lemma counter_total (f : Counters -> number) (p : SessionRecord -> bool)
    sessions :
  (forall c s, f (countSession c s) = if p s then f c + 1 else f c) ->
  f zeroCounters = 0 ->
  (Z.of_nat (List.length sessions) < 2 ^ 53)%Z ->
  f (fold_left countSession sessions zeroCounters)
  = of_nat (countOf p sessions).
Proof.
  intros Hstep H0 Hn.
  apply (counter_loop f p Hstep sessions zeroCounters 0%nat); assumption.
Qed.

Lemma computeMetrics_nonempty s rest :
  let sessions := s :: rest in
  computeMetrics sessions
  = let c := fold_left countSession sessions zeroCounters in
    let total := of_nat (List.length sessions) in
    {| avgRating :=
         if 0 <? ratingCount c then Some (ratingSum c / ratingCount c)
         else None;
       dropoutRate := if 0 <? total then dropouts c / total else 0;
       techIssueRate := if 0 <? total then techIssues c / total else 0;
       rescheduleRate := if 0 <? total then reschedules c / total else 0;
       sessionsCount := total;
       firstSessionAvgRating :=
         if 0 <? firstSessionRatingCount c
         then Some (firstSessionRatingSum c / firstSessionRatingCount c)
         else None;
       firstSessionDropoutRate :=
         if 0 <? firstSessions c
         then firstSessionDropouts c / firstSessions c else 0;
       firstSessionCount := firstSessions c;
       tutorInitiatedRescheduleRate :=
         if 0 <? reschedules c
         then tutorInitiatedReschedules c / reschedules c else 0;
       tutorInitiatedRescheduleCount := tutorInitiatedReschedules c;
       noShowRate := if 0 <? total then noShows c / total else 0;
       noShowCount := noShows c |}.
Proof. reflexivity. Qed.

Lemma share_of_counts k n :
  (Z.of_nat n < 2 ^ 53)%Z ->
  (if 0 <? of_nat n then of_nat k / of_nat n else 0) = share k n.
Proof.
  intros Hn. rewrite (of_nat_pos n Hn). unfold share.
  destruct (n =? 0)%nat; reflexivity.
Qed.

Lemma countOf_bound p sessions :
  (Z.of_nat (List.length sessions) < 2 ^ 53)%Z ->
  (Z.of_nat (countOf p sessions) < 2 ^ 53)%Z.
Proof.
  intros Hn. pose proof (countOf_le p sessions).
  generalize dependent (2 ^ 53)%Z. intros. lia.
Qed.

(** X2: for fewer than [2 ^ 53] sessions the counts that [computeMetrics]
    reports are exact: the number of sessions, of first sessions, of
    no-shows and of reschedules that the tutor initiated. *)
Theorem computeMetrics_counts sessions :
  (Z.of_nat (List.length sessions) < 2 ^ 53)%Z ->
  let metrics := computeMetrics sessions in
  sessionsCount metrics = of_nat (List.length sessions)
  /\ firstSessionCount metrics = of_nat (countOf isFirstSession sessions)
  /\ noShowCount metrics = of_nat (countOf noShow sessions)
  /\ tutorInitiatedRescheduleCount metrics
     = of_nat (countOf isTutorReschedule sessions).
Proof.
  intros Hn metrics. subst metrics.
  destruct sessions as [|s rest]; [repeat split|].
  rewrite computeMetrics_nonempty. cbv zeta.
  cbn [sessionsCount firstSessionCount noShowCount tutorInitiatedRescheduleCount].
  split; [reflexivity|].
  split; [|split].
  - apply (counter_total firstSessions isFirstSession); auto.
  - apply (counter_total noShows noShow); auto.
  - apply (counter_total tutorInitiatedReschedules isTutorReschedule); auto.
Qed.

Lemma computeMetrics_counts_witness :
  let metrics := computeMetrics sampleSessions in
  sessionsCount metrics = of_nat 3
  /\ firstSessionCount metrics = of_nat 1
  /\ noShowCount metrics = of_nat 1
  /\ tutorInitiatedRescheduleCount metrics = of_nat 1.
Proof. exact (computeMetrics_counts sampleSessions eq_refl). Defined.

(** X3: for fewer than [2 ^ 53] sessions every rate that [computeMetrics]
    reports is the quotient of two exact counts, and 0 when its
    denominator counts nothing: dropouts, tech issues, reschedules and
    no-shows over all sessions, first-session dropouts over first
    sessions, tutor-initiated reschedules over reschedules. *)
Theorem computeMetrics_rates sessions :
  (Z.of_nat (List.length sessions) < 2 ^ 53)%Z ->
  let metrics := computeMetrics sessions in
  let total := List.length sessions in
  dropoutRate metrics = share (countOf isDropout sessions) total
  /\ techIssueRate metrics = share (countOf hasTechIssue sessions) total
  /\ rescheduleRate metrics = share (countOf isReschedule sessions) total
  /\ noShowRate metrics = share (countOf noShow sessions) total
  /\ firstSessionDropoutRate metrics
     = share (countOf isFirstDropout sessions)
         (countOf isFirstSession sessions)
  /\ tutorInitiatedRescheduleRate metrics
     = share (countOf isTutorReschedule sessions)
         (countOf isReschedule sessions).
Proof.
  intros Hn metrics total. subst metrics total.
  destruct sessions as [|s rest]; [repeat split|].
  rewrite computeMetrics_nonempty. cbv zeta.
  cbn [dropoutRate techIssueRate rescheduleRate noShowRate
       firstSessionDropoutRate tutorInitiatedRescheduleRate].
  set (sessions := s :: rest) in *.
  rewrite (counter_total dropouts isDropout sessions) by auto.
  rewrite (counter_total techIssues hasTechIssue sessions) by auto.
  rewrite (counter_total reschedules isReschedule sessions) by auto.
  rewrite (counter_total noShows noShow sessions) by auto.
  rewrite (counter_total firstSessionDropouts isFirstDropout sessions) by auto.
  rewrite (counter_total firstSessions isFirstSession sessions) by auto.
  rewrite (counter_total tutorInitiatedReschedules isTutorReschedule sessions)
    by auto.
  rewrite !share_of_counts by (assumption || apply countOf_bound, Hn).
  repeat split.
Qed.

Lemma computeMetrics_rates_witness :
  let metrics := computeMetrics sampleSessions in
  dropoutRate metrics = share 1 3
  /\ techIssueRate metrics = share 1 3
  /\ rescheduleRate metrics = share 1 3
  /\ noShowRate metrics = share 1 3
  /\ firstSessionDropoutRate metrics = share 1 1
  /\ tutorInitiatedRescheduleRate metrics = share 1 1.
Proof. exact (computeMetrics_rates sampleSessions eq_refl). Defined.

Import SyntheticData.

(** *** The seeded generator *)

Lemma Prim2SF_pow32 :
  Prim2SF 4294967296 = S754_finite false 4503599627370496 (-20).
Proof. reflexivity. Qed.

(** Dividing an integer below [2 ^ 32] by [2 ^ 32] shifts its exponent. *)
Lemma div_pow32 m e :
  bounded prec emax m e = true -> (-1041 <= e)%Z ->
  SFdiv prec emax (S754_finite false m e)
    (S754_finite false 4503599627370496 (-20))
  = S754_finite false m (e - 32).
Proof.
  intros Hv He0. unfold SFdiv.
  pose proof (canonical_digits m e Hv) as (He & Hd & Hn).
  cbn [xorb]. unfold SFdiv_core_binary.
  change (Zdigits2 (Z.pos 4503599627370496)) with 53%Z.
  change (Zdigits2 (Z.pos m)) with (Z.pos (digits2_pos m)).
  assert (Hd53 : Z.pos (digits2_pos m) = 53%Z) by lia.
  rewrite Hd53.
  replace (Z.min _ _) with (e - 33)%Z
    by (unfold fexp, emin, prec, emax; lia).
  replace (e - -20 - (e - 33))%Z with 53%Z by lia.
  cbv beta iota zeta.
  rewrite Z.shiftl_mul_pow2 by lia.
  change (2 ^ 53)%Z with (2 * 4503599627370496)%Z.
  rewrite Z.mul_assoc, div_eucl_exact by reflexivity.
  change (new_location 4503599627370496 0) with loc_Exact.
  replace (Z.pos m * 2)%Z with (Z.pos (m~0)) by lia.
  unfold binary_round_aux, shr_fexp.
  cbn [Zdigits2 digits2_pos]. rewrite Pos2Z.inj_succ, Hd53.
  replace (fexp prec emax (Z.succ 53 + (e - 33)) - (e - 33))%Z with 1%Z
    by (unfold fexp, emin, prec, emax; lia).
  cbn [shr shr_record_of_loc SpecFloat.iter_pos shr_1 shr_m shr_r shr_s
       loc_of_shr_record round_nearest_even Zdigits2 orb].
  replace (e - 33 + 1)%Z with (e - 32)%Z by lia.
  rewrite Hd53.
  replace (fexp prec emax (53 + (e - 32)) - (e - 32))%Z with 0%Z
    by (unfold fexp, emin, prec, emax; lia).
  cbn [shr shr_m].
  replace (e - 32 <=? emax - prec)%Z with true
    by (symmetry; apply Z.leb_le; unfold emax, prec; lia).
  reflexivity.
Qed.

Lemma unit_fraction u :
  (0 <= u < 2 ^ 32)%Z ->
  (0 <=? of_integer false u / 4294967296) = true
  /\ (of_integer false u / 4294967296 <? 1) = true.
Proof.
  intros Hu. destruct u as [|p|p]; [split; reflexivity| |lia].
  assert (Hd : (Z.pos (digits2_pos p) <= 32)%Z) by (apply digits2_pos_le; lia).
  assert (Hd53 : (Z.pos (digits2_pos p) <= 53)%Z) by lia.
  rewrite FloatAxioms.leb_spec, FloatAxioms.ltb_spec, div_spec.
  rewrite (Prim2SF_of_integer_pos false p Hd53), Prim2SF_pow32, Prim2SF_1.
  destruct (binary_round_small false p Hd53) as [_ Hvalid].
  destruct (int_repr_value false p Hd53) as (m & e & Hrepr & He & Hm).
  rewrite Hrepr in *. cbn [valid_binary] in Hvalid.
  unfold SF64div. rewrite div_pow32 by (assumption || lia).
  split; [reflexivity|].
  rewrite SFltb_pos_pos.
  destruct (e - 32 ?= -52)%Z eqn:E; try reflexivity;
    [apply Z.compare_eq in E | apply Z.compare_gt_iff in E]; lia.
Qed.

Lemma uint32_shr_range a n : (0 <= uint32_shr a n < 2 ^ 32)%Z.
Proof.
  unfold uint32_shr, ToUint32.
  pose proof (Z.mod_pos_bound a (2 ^ 32) eq_refl) as Ha.
  pose proof (Z.mod_pos_bound (n mod 2 ^ 32) 32 eq_refl) as Hn.
  rewrite Z.shiftr_div_pow2 by lia.
  split; [apply Z.div_pos; [lia|apply Z.pow_pos_nonneg; lia]|].
  apply Z.div_lt_upper_bound; [apply Z.pow_pos_nonneg; lia|].
  assert (1 <= 2 ^ ((n mod 2 ^ 32) mod 32))%Z
    by (apply (Z.pow_le_mono_r 2 0); lia).
  generalize dependent (2 ^ 32)%Z. intros. nia.
Qed.

Lemma draws_unit_interval n : forall seed,
  Forall (fun value => (0 <=? value) = true /\ (value <? 1) = true)
    (draws n seed).
Proof.
  induction n as [|k IH]; intros seed; [constructor|].
  cbn [draws]. unfold rng. constructor; [|apply IH].
  apply unit_fraction, uint32_shr_range.
Qed.

(** X19: the generator of [createRng] starts from a seed of 32 bits, whatever
    the seed text and the clock, and every number that it draws is at
    least 0 and below 1. *)
Theorem rng_unit_interval seedInput now n :
  let seed := createRng seedInput now in
  (0 <= seed < 2 ^ 32)%Z
  /\ Forall (fun value => (0 <=? value) = true /\ (value <? 1) = true)
       (draws n seed).
Proof.
  split; [apply uint32_shr_range|apply draws_unit_interval].
Qed.

(** *** Numbers that are not negative *)

Lemma not_negative_SF x :
  (x <? 0) = false <->
  match Prim2SF x with
  | S754_infinity true | S754_finite true _ _ => False
  | _ => True
  end.
Proof.
  rewrite FloatAxioms.ltb_spec. change (Prim2SF 0) with (S754_zero false).
  destruct (Prim2SF x) as [[]|[]| |[] m e]; cbn; split; intros;
    try reflexivity; try exact I; try discriminate; try contradiction.
Qed.

Lemma SFadd_positives mx ex my ey :
  has_sign false
    (SFadd prec emax (S754_finite false mx ex) (S754_finite false my ey)).
Proof.
  unfold SFadd. cbn [cond_Zopp].
  match goal with
  | |- context [(Z.pos ?a + Z.pos ?b)%Z] =>
      change (Z.pos a + Z.pos b)%Z with (Z.pos (a + b))
  end.
  cbn [binary_normalize]. apply binary_round_sign.
Qed.

Lemma add_not_negative x y :
  (x <? 0) = false -> (y <? 0) = false -> (x + y <? 0) = false.
Proof.
  rewrite !not_negative_SF, add_spec.
  destruct (Prim2SF x) as [[]|[]| |[] mx ex], (Prim2SF y) as [[]|[]| |[] my ey];
    try (cbn; tauto).
  intros _ _. unfold SF64add.
  pose proof (SFadd_positives mx ex my ey) as Hs.
  destruct (SFadd prec emax _ _) as [s|s| |s m e]; cbn in Hs; subst; exact I.
Qed.

Lemma mul_not_negative x y :
  (x <? 0) = false -> (y <? 0) = false -> (x * y <? 0) = false.
Proof.
  rewrite !not_negative_SF, mul_spec.
  destruct (Prim2SF x) as [[]|[]| |[] mx ex], (Prim2SF y) as [[]|[]| |[] my ey];
    try (cbn; tauto).
  intros _ _. unfold SF64mul, SFmul. cbn [xorb].
  pose proof (binary_round_aux_sign false (Z.pos (mx * my)) (ex + ey) loc_Exact) as Hs.
  destruct (binary_round_aux prec emax false (Z.pos (mx * my)) (ex + ey) loc_Exact)
    as [s|s| |s m e]; cbn in Hs; subst; exact I.
Qed.

(** A number above one that is not negative is positive. *)
Lemma above_not_negative x w :
  (x <? 0) = false -> (x <? w) = true -> (0 <? w) = true.
Proof.
  rewrite not_negative_SF, !FloatAxioms.ltb_spec.
  change (Prim2SF 0) with (S754_zero false).
  destruct (Prim2SF x) as [[]|[]| |[] mx ex], (Prim2SF w) as [[]|[]| |[] mw ew];
    cbn; intros; try reflexivity; try discriminate; try contradiction.
Qed.

Lemma SFltb_zero_r x :
  SFltb x (S754_zero false) = true <-> signed_nonzero true x.
Proof.
  unfold SFltb. destruct x as [s|[]| |[] m e]; simpl; split;
    congruence || tauto || discriminate.
Qed.

(** [x - y] is negative exactly when [x < y]. *)
Lemma sub_neg_iff x y : (x - y <? 0) = (x <? y).
Proof.
  rewrite !FloatAxioms.ltb_spec, sub_spec. change (Prim2SF 0) with (S754_zero false).
  pose proof (Prim2SF_valid x) as Hx. pose proof (Prim2SF_valid y) as Hy.
  destruct (Prim2SF x) as [sx|sx| |sx mx ex], (Prim2SF y) as [sy|sy| |sy my ey];
    try (destruct sx; reflexivity); try (destruct sy; reflexivity);
    try (destruct sx, sy; reflexivity); try reflexivity.
  simpl in Hx, Hy.
  destruct (canonical_digits mx ex Hx) as (Hex & _).
  destruct (canonical_digits my ey Hy) as (Hey & _).
  unfold SF64sub, SFsub.
  pose proof (compare_aligned mx ex my ey Hx Hy) as Hc.
  set (X := Z.pos (fst (shl_align mx ex (Z.min ex ey)))) in *.
  set (Y := Z.pos (fst (shl_align my ey (Z.min ex ey)))) in *.
  assert (HX : (0 < X)%Z) by (unfold X; lia).
  assert (HY : (0 < Y)%Z) by (unfold Y; lia).
  assert (Hmin : (-1074 <= Z.min ex ey)%Z) by lia.
  set (D := (cond_Zopp sx X - cond_Zopp sy Y)%Z).
  assert (Hsign : SFltb (binary_normalize prec emax D (Z.min ex ey) false)
                    (S754_zero false)
                  = (D <? 0)%Z).
  { unfold binary_normalize. destruct D as [|p|p] eqn:ED.
    - reflexivity.
    - pose proof (binary_round_sign false p (Z.min ex ey)) as Hr.
      destruct (binary_round prec emax false p (Z.min ex ey)) as [s|s| |s m e];
        simpl in Hr; subst; reflexivity.
    - pose proof (binary_round_nonzero true p _ Hmin) as Hr.
      apply SFltb_zero_r in Hr. rewrite Hr. reflexivity. }
  rewrite Hsign. unfold SFltb, SFcompare. subst D.
  assert (Horder : match (ex ?= ey)%Z with
                   | Eq => Pos.compare_cont Eq mx my = (X ?= Y)%Z
                   | Lt => (X < Y)%Z
                   | Gt => (Y < X)%Z
                   end).
  { destruct (ex ?= ey)%Z; [exact Hc| |].
    - apply Z.compare_lt_iff. symmetry. exact Hc.
    - apply Z.compare_gt_iff. symmetry. exact Hc. }
  clear Hc.
  destruct sx, sy; cbn [cond_Zopp];
    destruct (ex ?= ey)%Z; try rewrite Horder;
    try destruct (Z.compare_spec X Y); cbn [CompOpp];
    try match goal with
    | |- (?d <? 0)%Z = _ => destruct (Z.ltb_spec d 0)
    end; try reflexivity; try lia.
Qed.

(** *** Weighted picks *)

Lemma total_not_negative {T : Type} (options : list (WeightedValue T)) :
  Forall (fun option => (weight option <? 0) = false) options ->
  forall acc, (acc <? 0) = false ->
  (fold_left (fun acc option => acc + weight option) options acc <? 0) = false.
Proof.
  induction 1 as [|o rest Ho _ IH]; intros acc Hacc; [exact Hacc|].
  cbn [fold_left]. apply IH, add_not_negative; assumption.
Qed.

Lemma pickLoop_positive {T : Type} (options : list (WeightedValue T)) :
  forall threshold picked,
    (threshold <? 0) = false ->
    pickLoop threshold options = Some picked ->
    exists option,
      In option options /\ picked = value option
      /\ (0 <? weight option) = true.
Proof.
  induction options as [|o rest IH]; intros threshold picked Ht Hpick;
    [discriminate|].
  cbn [pickLoop] in Hpick. destruct (threshold <? weight o) eqn:E.
  - injection Hpick as <-. exists o. split; [now left|]. split; [reflexivity|].
    apply (above_not_negative threshold); assumption.
  - destruct (IH (threshold - weight o) picked) as (o' & Hin & Hv & Hw);
      [rewrite sub_neg_iff; exact E|exact Hpick|].
    exists o'. split; [now right|]. split; assumption.
Qed.

Lemma last_In_nonempty {A : Type} (l : list A) a d : In (last (a :: l) d) (a :: l).
Proof.
  revert a. induction l as [|b l IH]; intros a; [now left|].
  right. apply (IH b).
Qed.

Lemma last_In {A : Type} (l : list A) d : In (last l d) (d :: l).
Proof.
  destruct l as [|a l]; [now left|]. right. apply last_In_nonempty.
Qed.

(** X20: with weights that are not negative, [pickWeighted] draws one number
    and returns the value of a listed option whose weight is positive,
    or else of the last option. *)
Theorem pickWeighted_respects_weights {T : Type} seed
    (first : WeightedValue T) rest :
  let options := first :: rest in
  Forall (fun option => (weight option <? 0) = false) options ->
  fst (pickWeighted seed options) = fst (rng seed)
  /\ exists option,
       In option options
       /\ snd (pickWeighted seed options) = Some (value option)
       /\ ((0 <? weight option) = true \/ option = last rest first).
Proof.
  intros options Hw. unfold pickWeighted.
  pose proof (draws_unit_interval 1 seed) as Hdraw. cbn [draws] in Hdraw.
  destruct (rng seed) as [seed' drawn]. inversion Hdraw as [|? ? [Hlo _] _]; subst.
  set (total := fold_left _ options 0).
  assert (Ht : (drawn * total <? 0) = false).
  { apply mul_not_negative.
    - destruct (drawn <? 0) eqn:E; [|reflexivity].
      rewrite (leb_not_ltb _ _ Hlo) in E. discriminate.
    - apply total_not_negative; [exact Hw|reflexivity]. }
  destruct (pickLoop (drawn * total) options) as [picked|] eqn:Hpick.
  - split; [reflexivity|].
    destruct (pickLoop_positive options _ picked Ht Hpick) as (o & Hin & -> & Hpos).
    exists o. repeat split; [exact Hin|now left].
  - split; [reflexivity|]. exists (last rest first).
    split; [apply last_In|]. split; [reflexivity|now right].
Qed.

Lemma pickWeighted_respects_weights_witness :
  Forall (fun option => (weight option <? 0) = false) STATUS_DISTRIBUTION
  /\ fst (pickWeighted 2024 STATUS_DISTRIBUTION) = fst (rng 2024)
  /\ exists option,
       In option STATUS_DISTRIBUTION
       /\ snd (pickWeighted 2024 STATUS_DISTRIBUTION) = Some (value option)
       /\ ((0 <? weight option) = true
           \/ option = {| value := rescheduled; weight := 0.1 |}).
Proof.
  assert (H : Forall (fun option => (weight option <? 0) = false)
                STATUS_DISTRIBUTION) by (repeat constructor).
  split; [exact H|].
  exact (pickWeighted_respects_weights 2024
           {| value := completed; weight := 0.8 |}
           [ {| value := dropout; weight := 0.1 |};
             {| value := rescheduled; weight := 0.1 |} ] H).
Defined.

Import AtRiskSelection.

(** *** [Math.floor] and the end of a slice *)

Lemma of_integer_small s z :
  (Z.abs z < 2 ^ 53)%Z ->
  match Prim2SF (of_integer s z) with
  | S754_zero s' => z = 0%Z /\ s' = s
  | S754_finite s' _ _ => s' = (z <? 0)%Z
  | _ => False
  end.
Proof.
  intros Hz. destruct z as [|p|p].
  - rewrite Prim2SF_of_integer_zero. split; reflexivity.
  - assert (Hd : (Z.pos (digits2_pos p) <= 53)%Z) by (apply digits2_pos_le; lia).
    rewrite (Prim2SF_of_integer_pos s p Hd).
    destruct (int_repr_value false p Hd) as (m & e & -> & _). reflexivity.
  - assert (Hd : (Z.pos (digits2_pos p) <= 53)%Z) by (apply digits2_pos_le; lia).
    rewrite (Prim2SF_of_integer_neg s p Hd).
    destruct (int_repr_value true p Hd) as (m & e & -> & _). reflexivity.
Qed.

(** [Math.floor] gives NaN for NaN only, and keeps a number that is not
    negative so. *)
Lemma Math_floor_sign x :
  is_nan (Math_floor x) = is_nan x
  /\ ((x <? 0) = false -> (Math_floor x <? 0) = false).
Proof.
  rewrite !not_negative_SF, !is_nan_SF. unfold Math_floor.
  pose proof (Prim2SF_valid x) as Hv.
  destruct (Prim2SF x) as [s|s| |s m e] eqn:Ex; rewrite ?Ex;
    try (split; [reflexivity|tauto]).
  destruct (0 <=? e)%Z eqn:Ee; [rewrite Ex; split; [reflexivity|tauto]|].
  apply Z.leb_gt in Ee. cbn [valid_binary] in Hv.
  pose proof (valid_mantissa_lt s m e Hv) as Hm.
  assert (Hpow : (0 < 2 ^ (- e))%Z) by (apply Z.pow_pos_nonneg; lia).
  assert (Hq : (Z.abs (cond_Zopp s (Z.pos m) / 2 ^ (- e)) < 2 ^ 53
                /\ (s = false -> 0 <= cond_Zopp s (Z.pos m) / 2 ^ (- e)))%Z).
  { destruct s; cbn [cond_Zopp].
    - split; [|discriminate].
      assert (- Z.pos m <= Z.neg m / 2 ^ (- e))%Z.
      { apply Z.div_le_lower_bound; [exact Hpow|].
        assert (1 <= 2 ^ (- e))%Z by lia.
        generalize dependent (2 ^ (- e))%Z. intros. nia. }
      assert (Z.neg m / 2 ^ (- e) < 0)%Z
        by (apply Z.div_lt_upper_bound; [exact Hpow|lia]).
      generalize dependent (2 ^ 53)%Z. intros. lia.
    - assert (0 <= Z.pos m / 2 ^ (- e))%Z by (apply Z.div_pos; lia).
      assert (Z.pos m / 2 ^ (- e) <= Z.pos m)%Z.
      { apply Z.div_le_upper_bound; [exact Hpow|].
        assert (1 <= 2 ^ (- e))%Z by lia.
        generalize dependent (2 ^ (- e))%Z. intros. nia. }
      split; [|intros _; assumption].
      generalize dependent (2 ^ 53)%Z. intros. lia. }
  destruct Hq as [Hq Hpos].
  pose proof (of_integer_small s _ Hq) as H.
  destruct (Prim2SF (of_integer s _)) as [s'|s'| |s' m' e'];
    try contradiction; (split; [reflexivity|]).
  - tauto.
  - destruct s; [tauto|]. intros _. subst s'.
    specialize (Hpos eq_refl).
    destruct (Z.ltb_spec (cond_Zopp false (Z.pos m) / 2 ^ (- e)) 0); [lia|exact I].
Qed.

Lemma fifth_of_length n :
  (Z.of_nat n < 2 ^ 53)%Z ->
  is_nan (of_nat n * 0.2) = false.
Proof.
  intros Hn. rewrite is_nan_SF, mul_spec.
  pose proof (of_integer_small false (Z.of_nat n) ltac:(lia)) as H.
  unfold of_nat.
  change (Prim2SF 0.2) with (S754_finite false 7205759403792794 (-55)).
  destruct (Prim2SF (of_integer false (Z.of_nat n))) as [s|s| |s m e];
    try contradiction; [reflexivity|].
  unfold SF64mul, SFmul.
  pose proof (binary_round_aux_not_nan (xorb s false)
                (Z.pos (m * 7205759403792794)) (e + -55) loc_Exact ltac:(lia)) as Hr.
  destruct (binary_round_aux prec emax _ _ _ _); congruence.
Qed.

(** The end of a slice that is at least 1 keeps an element of an array
    that has one. *)
Lemma relativeIndex_positive stop len :
  (1 <=? stop) = true -> (1 <= len)%nat -> (1 <= relativeIndex stop len)%nat.
Proof.
  rewrite FloatAxioms.leb_spec, Prim2SF_1. unfold relativeIndex.
  pose proof (Prim2SF_valid stop) as Hv.
  destruct (Prim2SF stop) as [[]|[]| |[] m e]; try discriminate; intros H Hlen;
    [exact Hlen|].
  cbn [valid_binary] in Hv.
  destruct (canonical_digits m e Hv) as (He & Hd & Hn).
  destruct (digits2_pos_bounds m) as [Hlo _].
  assert (Hexp : (-52 <= e)%Z).
  { unfold SFleb, SFcompare in H.
    destruct (Z.compare_spec (-52) e); try lia; try discriminate. }
  assert (Hk : (1 <= (if (0 <=? e)%Z then Z.pos m * 2 ^ e
                      else Z.pos m / 2 ^ (- e)))%Z).
  { destruct (0 <=? e)%Z eqn:Ee.
    - apply Z.leb_le in Ee.
      assert (1 <= 2 ^ e)%Z by (apply (Z.pow_le_mono_r 2 0); lia).
      generalize dependent (2 ^ e)%Z. intros. nia.
    - apply Z.leb_gt in Ee. rewrite Hn in Hlo by lia.
      apply Z.div_le_lower_bound; [apply Z.pow_pos_nonneg; lia|].
      assert (2 ^ (- e) <= 2 ^ (53 - 1))%Z by (apply Z.pow_le_mono_r; lia).
      lia. }
  apply Nat.min_glb; [|exact Hlen].
  apply Nat2Z.inj_le. rewrite Z2Nat.id by lia. exact Hk.
Qed.

Lemma bottom_nonempty n :
  (1 <= n)%nat -> (Z.of_nat n < 2 ^ 53)%Z ->
  (1 <= relativeIndex (Math_max 1%float (Math_floor (of_nat n * 0.2)%float)) n)%nat.
Proof.
  intros Hn Hbound. apply relativeIndex_positive; [|exact Hn].
  destruct (Math_floor_sign (of_nat n * 0.2)) as [Hnan _].
  rewrite (fifth_of_length n Hbound) in Hnan.
  destruct (Math_max_spec 1 _ eq_refl Hnan) as (_ & H & _). exact H.
Qed.

(** *** The tutors at risk *)

Lemma filter_nil_iff {A : Type} (p : A -> bool) l :
  filter p l = [] <-> Forall (fun x => p x = false) l.
Proof.
  induction l as [|x l IH]; cbn [filter]; [split; [constructor|reflexivity]|].
  destruct (p x) eqn:E; split.
  - discriminate.
  - intros H. inversion H; congruence.
  - intros H. constructor; [exact E|apply IH, H].
  - intros H. inversion H. apply IH. assumption.
Qed.

Lemma length_nil_iff {A : Type} (l : list A) : l = [] <-> List.length l = 0%nat.
Proof. destruct l; split; (reflexivity || discriminate). Qed.

(** The group that [selectAtRiskTutors] keeps is one of its two
    candidates, and it is empty only if no tutor is below 60. *)
Lemma selected_group (tutors below60 bottom20 selected : list TutorFeatureInput) :
  (1 <= List.length bottom20)%nat ->
  selected =
    (if (List.length below60 <? List.length bottom20)%nat then below60
     else if (List.length bottom20 <? List.length below60)%nat then bottom20
     else if firstScore below60 <=? firstScore bottom20 then below60
     else bottom20) ->
  (selected = below60 \/ selected = bottom20)
  /\ (selected = [] <-> below60 = []).
Proof.
  intros Hb ->.
  destruct (Nat.ltb_spec (List.length below60) (List.length bottom20)) as [H1|H1].
  - split; [now left|reflexivity].
  - destruct (Nat.ltb_spec (List.length bottom20) (List.length below60)) as [H2|H2].
    + split; [now right|]. rewrite !length_nil_iff. lia.
    + destruct (firstScore below60 <=? firstScore bottom20).
      * split; [now left|reflexivity].
      * split; [now right|]. rewrite !length_nil_iff. lia.
Qed.

(** X21: [selectAtRiskTutors] returns no tutor exactly when no tutor scores
    below 60; it returns at most 50 tutors, all of them from its input,
    and either all below 60 or all from a leading part of the input. *)
Theorem selectAtRiskTutors_selection localeCompare tutors :
  (Z.of_nat (List.length tutors) < 2 ^ 53)%Z ->
  let atRisk := selectAtRiskTutors localeCompare tutors in
  (atRisk = [] <-> Forall (fun tutor => (Ai.score tutor <? 60) = false) tutors)
  /\ (List.length atRisk <= 50)%nat
  /\ incl atRisk tutors
  /\ (Forall (fun tutor => (Ai.score tutor <? 60) = true) atRisk
      \/ exists count, (1 <= count)%nat /\ incl atRisk (firstn count tutors)).
Proof.
  intros Hbound atRisk. subst atRisk.
  destruct tutors as [|first rest].
  { cbn. split; [split; [constructor|reflexivity]|]. split; [lia|].
    split; [intros x []|]. left. constructor. }
  unfold selectAtRiskTutors. cbv iota zeta.
  set (tutors := first :: rest) in *.
  set (below60 := filter (fun tutor => Ai.score tutor <? 60) tutors).
  set (count := relativeIndex _ (List.length tutors)).
  set (bottom20 := firstn count tutors).
  set (selected := if (List.length below60 <? List.length bottom20)%nat then _ else _).
  assert (Hcount : (1 <= count)%nat)
    by (apply bottom_nonempty; [cbn; lia|exact Hbound]).
  assert (Hbottom : (1 <= List.length bottom20)%nat).
  { unfold bottom20. rewrite length_firstn. cbn [List.length tutors]. lia. }
  destruct (selected_group tutors below60 bottom20 selected Hbottom eq_refl)
    as [Hsel Hnil].
  pose proof (sort_perm (byScoreThenId localeCompare) selected) as Hperm.
  set (ordered := sort (byScoreThenId localeCompare) selected) in *.
  unfold slice. rewrite Nat.sub_0_r. cbn [skipn].
  assert (Hin : incl (firstn 50 ordered) selected).
  { intros t Ht. apply In_firstn_inv in Ht.
    apply (Permutation_in _ Hperm), Ht. }
  split; [|split; [|split]].
  - rewrite <- (filter_nil_iff (fun tutor => Ai.score tutor <? 60) tutors).
    fold below60. rewrite <- Hnil.
    rewrite !length_nil_iff, length_firstn, <- (Permutation_length Hperm). lia.
  - rewrite length_firstn. lia.
  - intros t Ht. apply Hin in Ht. destruct Hsel as [-> | ->].
    + apply filter_In in Ht. apply Ht.
    + apply In_firstn_inv in Ht. exact Ht.
  - destruct Hsel as [Hs | Hs].
    + left. rewrite Forall_forall. intros t Ht. apply Hin in Ht.
      rewrite Hs in Ht. apply filter_In in Ht. apply Ht.
    + right. exists count. split; [exact Hcount|].
      intros t Ht. apply Hin in Ht. rewrite Hs in Ht. exact Ht.
Qed.

Lemma selectAtRiskTutors_selection_witness :
  let atRisk := selectAtRiskTutors byLength threeTutors in
  (atRisk = []
   <-> Forall (fun tutor => (Ai.score tutor <? 60) = false) threeTutors)
  /\ (List.length atRisk <= 50)%nat
  /\ incl atRisk threeTutors
  /\ (Forall (fun tutor => (Ai.score tutor <? 60) = true) atRisk
      \/ exists count,
           (1 <= count)%nat /\ incl atRisk (firstn count threeTutors)).
Proof. exact (selectAtRiskTutors_selection byLength threeTutors eq_refl). Defined.








Import Csv.

(** *** Writing and reading a row *)

Lemma append_nil_r (s : string) : (s ++ EmptyString)%string = s.
Proof. induction s as [|c s IH]; cbn; [reflexivity|]. rewrite IH. reflexivity. Qed.

Lemma append_assoc (a b c : string) :
  ((a ++ b) ++ c)%string = (a ++ (b ++ c))%string.
Proof. induction a as [|x a IH]; cbn; [reflexivity|]. rewrite IH. reflexivity. Qed.

Lemma append_char (current : string) c v :
  ((current ++ String c EmptyString) ++ v)%string
  = (current ++ String c v)%string.
Proof. rewrite append_assoc. reflexivity. Qed.

(** Outside quotes, a text without quote and comma is read as it is. *)
Lemma splitLoop_plain v : forall current tail result,
  includes quote v = false -> includes comma v = false ->
  splitLoop (v ++ tail) current false result
  = splitLoop tail (current ++ v) false result.
Proof.
  induction v as [|c v IH]; intros current tail result Hq Hc.
  - cbn. rewrite append_nil_r. reflexivity.
  - cbn [includes] in Hq, Hc.
    apply orb_false_elim in Hq. destruct Hq as [Hq1 Hq2].
    apply orb_false_elim in Hc. destruct Hc as [Hc1 Hc2].
    cbn [append splitLoop]. rewrite Hq1, Hc1, IH by assumption.
    rewrite append_char. reflexivity.
Qed.

(** Inside quotes, the doubled text is read back up to the closing
    quote, when no quote follows it. *)
Lemma splitLoop_quoted v : forall current tail result,
  match tail with
  | String next _ => Ascii.eqb next quote = false
  | EmptyString => True
  end ->
  splitLoop (doubleQuotes v ++ String quote tail) current true result
  = splitLoop tail (current ++ v) false result.
Proof.
  induction v as [|c v IH]; intros current tail result Htail.
  - cbn [doubleQuotes append splitLoop].
    change (Ascii.eqb quote quote) with true. cbv iota.
    rewrite append_nil_r.
    destruct tail as [|next rest]; [reflexivity|]. rewrite Htail. reflexivity.
  - cbn [doubleQuotes]. destruct (Ascii.eqb c quote) eqn:E.
    + apply Ascii.eqb_eq in E. subst c.
      cbn [append splitLoop]. change (Ascii.eqb quote quote) with true.
      cbv iota. rewrite IH by assumption. rewrite append_char. reflexivity.
    + cbn [append splitLoop]. rewrite E, IH by assumption.
      rewrite append_char. reflexivity.
Qed.

Lemma doubleQuotes_plain v : includes quote v = false -> doubleQuotes v = v.
Proof.
  induction v as [|c v IH]; intros H; [reflexivity|].
  cbn [includes] in H. apply orb_false_elim in H. destruct H as [H1 H2].
  cbn [doubleQuotes]. rewrite H1, IH by assumption. reflexivity.
Qed.

(** A cell is read back as the value, up to the next comma or the end. *)
Lemma splitLoop_cell v tail result :
  match tail with
  | String next _ => Ascii.eqb next quote = false
  | EmptyString => True
  end ->
  splitLoop (cell v ++ tail) EmptyString false result
  = splitLoop tail v false result.
Proof.
  intros Htail. unfold cell.
  destruct (includes quote v) eqn:Hq.
  - cbn [append splitLoop]. change (Ascii.eqb quote quote) with true. cbv iota.
    rewrite append_assoc. cbn [append].
    apply (splitLoop_quoted v EmptyString tail result Htail).
  - destruct (includes comma v || includes newline v) eqn:Hc.
    + cbn [append splitLoop]. change (Ascii.eqb quote quote) with true. cbv iota.
      rewrite append_assoc. cbn [append].
      rewrite <- (doubleQuotes_plain v Hq) at 1.
      apply (splitLoop_quoted v EmptyString tail result Htail).
    + apply orb_false_elim in Hc. destruct Hc as [Hc _].
      apply (splitLoop_plain v EmptyString tail result Hq Hc).
Qed.

Lemma toCsvRow_cons first second rest :
  toCsvRow (first :: second :: rest)
  = (cell first ++ String comma (toCsvRow (second :: rest)))%string.
Proof. reflexivity. Qed.

Lemma splitLoop_row rest : forall first result,
  splitLoop (toCsvRow (first :: rest)) EmptyString false result
  = (result ++ map trim (first :: rest))%list.
Proof.
  induction rest as [|second rest IH]; intros first result.
  - change (toCsvRow [first]) with (cell first).
    rewrite <- (append_nil_r (cell first)).
    rewrite splitLoop_cell by exact I. reflexivity.
  - rewrite toCsvRow_cons, splitLoop_cell by reflexivity.
    cbn [splitLoop]. change (Ascii.eqb comma quote) with false.
    change (Ascii.eqb comma comma) with true. cbv iota.
    rewrite IH, <- app_assoc. reflexivity.
Qed.

(** X23: [splitCsvLine] reads back what [toCsvRow] writes: for every row of
    one or more texts it returns the texts, each trimmed, whatever
    quotes, commas and line feeds they hold. *)
Theorem csv_row_round_trip first rest :
  splitCsvLine (toCsvRow (first :: rest)) = map trim (first :: rest).
Proof. unfold splitCsvLine. apply splitLoop_row. Qed.

(** *** The magnitude of binary64 numbers *)

Lemma fits_weaken k k' m e : (k <= k')%Z -> fits k m e -> fits k' m e.
Proof. intros H (a & H1 & H2 & H3). exists a. lia. Qed.

Lemma Zdigits2_le m a : (0 <= m)%Z -> (0 <= a)%Z -> (m < 2 ^ a)%Z -> (Zdigits2 m <= a)%Z.
Proof.
  intros Hm Ha H. destruct m as [|p|p]; cbn [Zdigits2]; try lia.
  apply digits2_pos_le; assumption.
Qed.

Lemma shr_fexp_fits m e l k :
  (0 <= m)%Z -> fits k m e ->
  (0 <= shr_m (fst (shr_fexp prec emax m e l)))%Z
  /\ fits (Z.max k (-1074)) (shr_m (fst (shr_fexp prec emax m e l)))
       (snd (shr_fexp prec emax m e l)).
Proof.
  intros Hm (a & Ha & Hlt & Hk). unfold shr_fexp, shr.
  pose proof (Zdigits2_le m a Hm Ha Hlt) as Hd.
  set (d := Zdigits2 m) in *.
  destruct (fexp prec emax (d + e) - e)%Z as [|n|n] eqn:En; cbn [fst snd].
  - rewrite shr_record_of_loc_m. split; [assumption|]. exists a. lia.
  - rewrite iter_pos_nat, shr_iter_m by (rewrite shr_record_of_loc_m; lia).
    rewrite shr_record_of_loc_m, positive_nat_Z.
    assert (Hp : (0 < 2 ^ Z.pos n)%Z) by (apply Z.pow_pos_nonneg; lia).
    split; [apply Z.div_pos; lia|].
    destruct (Z_le_gt_dec (Z.pos n) a) as [Hle|Hgt].
    + exists (a - Z.pos n)%Z. split; [lia|]. split; [|lia].
      apply Z.div_lt_upper_bound; [lia|].
      rewrite <- Z.pow_add_r by lia. replace (Z.pos n + (a - Z.pos n))%Z with a by lia.
      exact Hlt.
    + exists 0%Z. split; [lia|]. split.
      * rewrite Z.div_small; [lia|]. split; [lia|].
        assert (2 ^ a <= 2 ^ Z.pos n)%Z by (apply Z.pow_le_mono_r; lia). lia.
      * unfold fexp, emin, prec, emax in En. lia.
  - rewrite shr_record_of_loc_m. split; [assumption|]. exists a. lia.
Qed.

Lemma round_nearest_even_bounds m l :
  (m <= round_nearest_even m l <= m + 1)%Z.
Proof.
  destruct l as [|[]]; simpl; try lia. destruct (Z.even m); lia.
Qed.

(** Rounding a value below [2 ^ k] gives a number below [2 ^ (k + 1)],
    and no infinity. *)
Lemma binary_round_aux_below s m e l k :
  (0 <= m)%Z -> fits k m e -> (-1074 <= k <= 971)%Z ->
  below (k + 1) (binary_round_aux prec emax s m e l).
Proof.
  intros Hm Hfit Hk. unfold binary_round_aux.
  destruct (shr_fexp_fits m e l k Hm Hfit) as [H1 H2].
  destruct (shr_fexp prec emax m e l) as [mrs' e']. cbn [fst snd] in *.
  rewrite Z.max_l in H2 by lia.
  pose proof (round_nearest_even_bounds (shr_m mrs') (loc_of_shr_record mrs')) as Hr.
  set (m2 := round_nearest_even (shr_m mrs') (loc_of_shr_record mrs')) in *.
  assert (Hfit2 : fits (k + 1) m2 e').
  { destruct H2 as (a & Ha & Hlt & Hke). exists (a + 1)%Z.
    split; [lia|]. split; [|lia].
    rewrite Z.pow_add_r by lia. lia. }
  destruct (shr_fexp_fits m2 e' loc_Exact (k + 1) ltac:(lia) Hfit2) as [H3 H4].
  destruct (shr_fexp prec emax m2 e' loc_Exact) as [mrs'' e'']. cbn [fst snd] in *.
  rewrite Z.max_l in H4 by lia.
  destruct (shr_m mrs'') as [|p|p]; [exact I| |lia].
  destruct H4 as (a & Ha & Hlt & Hke).
  assert (Ha1 : (1 <= a)%Z).
  { destruct (Z.eq_dec a 0) as [->|]; [simpl in Hlt; lia|lia]. }
  replace (e'' <=? emax - prec)%Z with true
    by (symmetry; apply Z.leb_le; unfold emax, prec; lia).
  cbn [below]. pose proof (digits2_pos_le p a Ha Hlt). lia.
Qed.

Lemma below_weaken k k' x : (k <= k')%Z -> below k x -> below k' x.
Proof. intros H. destruct x; cbn [below]; try tauto. lia. Qed.

Lemma below_finite k x : below k (Prim2SF x) -> is_finite x = true.
Proof. rewrite is_finite_SF. destruct (Prim2SF x); cbn [below]; tauto. Qed.

Lemma SFmul_below a b x y :
  below a x -> below b y -> (-1074 <= a + b <= 971)%Z ->
  below (a + b + 1) (SFmul prec emax x y).
Proof.
  intros Hx Hy Hk.
  destruct x as [sx|sx| |sx mx ex], y as [sy|sy| |sy my ey];
    cbn [below] in *; try tauto; try exact I.
  unfold SFmul. apply binary_round_aux_below; [lia| |assumption].
  destruct (digits2_pos_bounds mx) as [_ Hmx].
  destruct (digits2_pos_bounds my) as [_ Hmy].
  exists (Z.pos (digits2_pos mx) + Z.pos (digits2_pos my))%Z.
  split; [lia|]. split; [|lia].
  rewrite Z.pow_add_r by lia. rewrite Pos2Z.inj_mul.
  apply Z.mul_lt_mono_nonneg; lia.
Qed.

Lemma binary_round_below s m e k :
  fits k (Z.pos m) e -> (-1074 <= k <= 971)%Z ->
  below (k + 1) (binary_round prec emax s m e).
Proof.
  intros (a & Ha & Hlt & Hke) Hk. unfold binary_round, shl_align.
  destruct (fexp prec emax (Z.pos (digits2_pos m) + e) - e)%Z as [|d|d] eqn:E.
  - apply binary_round_aux_below; [lia| |assumption]. exists a. lia.
  - apply binary_round_aux_below; [lia| |assumption]. exists a. lia.
  - apply binary_round_aux_below; [lia| |assumption].
    exists (a + Z.pos d)%Z. split; [lia|]. split; [|lia].
    rewrite iter_xO_spec, Z.pow_add_r by lia.
    apply Z.mul_lt_mono_pos_r; [apply Z.pow_pos_nonneg; lia|assumption].
Qed.

Lemma binary_normalize_below m e k :
  fits k (Z.abs m) e -> (-1074 <= k <= 971)%Z ->
  below (k + 1) (binary_normalize prec emax m e false).
Proof.
  intros Hfit Hk. destruct m as [|p|p]; cbn [binary_normalize Z.abs] in *.
  - exact I.
  - apply binary_round_below; assumption.
  - apply binary_round_below; assumption.
Qed.

Lemma aligned_lt m e ez a :
  (ez <= e)%Z -> (Z.pos (digits2_pos m) + e <= a)%Z ->
  (Z.pos (fst (shl_align m e ez)) < 2 ^ (a - ez))%Z.
Proof.
  intros He Ha. rewrite shl_align_value by assumption.
  destruct (digits2_pos_bounds m) as [_ Hm].
  assert (2 ^ Z.pos (digits2_pos m) * 2 ^ (e - ez) <= 2 ^ (a - ez))%Z.
  { rewrite <- Z.pow_add_r by lia. apply Z.pow_le_mono_r; lia. }
  assert (0 < 2 ^ (e - ez))%Z by (apply Z.pow_pos_nonneg; lia).
  nia.
Qed.

Lemma SFadd_below a x y :
  below a x -> below a y -> (-1074 <= a + 1 <= 971)%Z ->
  below (a + 2) (SFadd prec emax x y).
Proof.
  intros Hx Hy Hk.
  destruct x as [sx|sx| |sx mx ex], y as [sy|sy| |sy my ey];
    cbn [below] in *; try tauto.
  - destruct sx, sy; exact I.
  - cbn [SFadd below]. lia.
  - cbn [SFadd below]. lia.
  - unfold SFadd.
    replace (a + 2)%Z with (a + 1 + 1)%Z by lia.
    apply binary_normalize_below; [|assumption].
    set (ez := Z.min ex ey).
    pose proof (aligned_lt mx ex ez a ltac:(lia) Hx) as H1.
    pose proof (aligned_lt my ey ez a ltac:(lia) Hy) as H2.
    set (px := Z.pos (fst (shl_align mx ex ez))) in *.
    set (py := Z.pos (fst (shl_align my ey ez))) in *.
    assert (Hpx : (0 < px)%Z) by (subst px; lia).
    assert (Hpy : (0 < py)%Z) by (subst py; lia).
    exists (a - ez + 1)%Z.
    assert (Hd : (1 <= Z.pos (digits2_pos mx))%Z) by lia.
    split; [lia|]. split; [|lia].
    rewrite Z.pow_add_r by lia. change (2 ^ 1)%Z with 2%Z.
    destruct sx, sy; cbn [cond_Zopp]; lia.
Qed.

Lemma SFdiv_core_fits m1 e1 m2 e2 a b :
  (Z.pos (digits2_pos m1) + e1 <= a)%Z ->
  (b <= Z.pos (digits2_pos m2) + e2)%Z ->
  (-1074 <= a - b + 1)%Z ->
  let '(q, e, _) := SFdiv_core_binary prec emax (Z.pos m1) e1 (Z.pos m2) e2 in
  (0 <= q)%Z /\ fits (a - b + 1) q e.
Proof.
  intros Ha Hb Hk. unfold SFdiv_core_binary. cbn [Zdigits2].
  destruct (digits2_pos_bounds m1) as [_ Hm1].
  destruct (digits2_pos_bounds m2) as [Hm2 _].
  set (d1 := Z.pos (digits2_pos m1)) in *.
  set (d2 := Z.pos (digits2_pos m2)) in *.
  set (e' := Z.min (fexp prec emax (d1 + e1 - (d2 + e2))) (e1 - e2)).
  assert (He'1 : (e' <= e1 - e2)%Z) by (subst e'; lia).
  assert (He'2 : (e' <= Z.max (a - b - 53) (-1074))%Z).
  { subst e'. unfold fexp, emin, prec, emax. lia. }
  set (s := (e1 - e2 - e')%Z).
  assert (Hs : (0 <= s)%Z) by (subst s; lia).
  set (m' := match s with
             | 0%Z => Z.pos m1
             | Z.pos _ => Z.shiftl (Z.pos m1) s
             | Z.neg _ => 0%Z
             end).
  assert (Hm' : m' = (Z.pos m1 * 2 ^ s)%Z).
  { subst m'. destruct s as [|p|p] eqn:Es; try lia.
    rewrite Z.shiftl_mul_pow2 by lia. reflexivity. }
  assert (Hps : (0 < 2 ^ s)%Z) by (apply Z.pow_pos_nonneg; lia).
  assert (Hlt : (m' < 2 ^ (d1 + s))%Z).
  { rewrite Hm', Z.pow_add_r by (subst d1; lia). nia. }
  assert (Hm'0 : (0 <= m')%Z) by (rewrite Hm'; lia).
  pose proof (Z_div_mod m' (Z.pos m2) ltac:(lia)) as Hdiv.
  change IntDef.Z.div_eucl with Z.div_eucl.
  destruct (Z.div_eucl m' (Z.pos m2)) as [q r]. destruct Hdiv as [Hq Hr].
  assert (Hq0 : (0 <= q)%Z) by nia.
  split; [assumption|].
  destruct (Z_le_gt_dec 0 (d1 + s - d2 + 1)) as [HA|HA].
  - exists (d1 + s - d2 + 1)%Z. split; [lia|]. split; [|subst s; lia].
    assert (H2 : (2 ^ (d1 + s) = 2 ^ (d2 - 1) * 2 ^ (d1 + s - d2 + 1))%Z).
    { rewrite <- Z.pow_add_r by (subst d2; lia). f_equal. lia. }
    assert (0 < 2 ^ (d1 + s - d2 + 1))%Z by (apply Z.pow_pos_nonneg; lia).
    nia.
  - exists 0%Z. split; [lia|]. split; [|lia].
    assert (2 ^ (d1 + s) <= 2 ^ (d2 - 1))%Z by (apply Z.pow_le_mono_r; subst d1; lia).
    change (2 ^ 0)%Z with 1%Z. nia.
Qed.

Lemma SFdiv_below a b x sy my ey :
  below a x ->
  (b <= Z.pos (digits2_pos my) + ey)%Z ->
  (-1074 <= a - b + 1 <= 971)%Z ->
  below (a - b + 2) (SFdiv prec emax x (S754_finite sy my ey)).
Proof.
  intros Hx Hb Hk.
  destruct x as [sx|sx| |sx mx ex]; cbn [below] in *; try tauto.
  unfold SFdiv.
  pose proof (SFdiv_core_fits mx ex my ey a b Hx Hb ltac:(lia)) as H.
  destruct (SFdiv_core_binary prec emax (Z.pos mx) ex (Z.pos my) ey) as [[q e] l].
  destruct H as [Hq Hfit].
  replace (a - b + 2)%Z with (a - b + 1 + 1)%Z by lia.
  apply binary_round_aux_below; assumption.
Qed.


(** *** The churn risk of the metrics of a session list *)

Lemma of_nat_below n :
  (Z.of_nat n < 2 ^ 53)%Z -> below 53 (Prim2SF (of_nat n)).
Proof.
  intros Hn. destruct n as [|n]; [exact I|].
  unfold of_nat.
  change (Z.of_nat (S n)) with (Z.pos (Pos.of_succ_nat n)) in *.
  set (p := Pos.of_succ_nat n) in *.
  assert (Hd : (Z.pos (digits2_pos p) <= 53)%Z) by (apply digits2_pos_le; lia).
  rewrite (Prim2SF_of_integer_pos false p Hd).
  unfold int_repr, shl_align. rewrite Z.sub_0_r.
  destruct (Z.pos (digits2_pos p) - 53)%Z as [|d|d] eqn:E; try lia.
  - cbn [below]. lia.
  - cbn [below]. rewrite digits2_pos_iter_xO. lia.
Qed.

Lemma of_nat_magnitude n :
  (n <> 0)%nat -> (Z.of_nat n < 2 ^ 53)%Z ->
  exists m e, Prim2SF (of_nat n) = S754_finite false m e
              /\ (1 <= Z.pos (digits2_pos m) + e)%Z.
Proof.
  intros Hn0 Hn. destruct n as [|n]; [congruence|].
  unfold of_nat.
  change (Z.of_nat (S n)) with (Z.pos (Pos.of_succ_nat n)) in *.
  set (p := Pos.of_succ_nat n) in *.
  assert (Hd : (Z.pos (digits2_pos p) <= 53)%Z) by (apply digits2_pos_le; lia).
  rewrite (Prim2SF_of_integer_pos false p Hd).
  unfold int_repr, shl_align. rewrite Z.sub_0_r.
  destruct (Z.pos (digits2_pos p) - 53)%Z as [|d|d] eqn:E; try lia.
  - eexists _, _. split; [reflexivity|]. lia.
  - eexists _, _. split; [reflexivity|]. rewrite digits2_pos_iter_xO. lia.
Qed.

Lemma share_below k n :
  (Z.of_nat k < 2 ^ 53)%Z -> (Z.of_nat n < 2 ^ 53)%Z ->
  below 54 (Prim2SF (share k n)).
Proof.
  intros Hk Hn. unfold share.
  destruct (n =? 0)%nat eqn:E; [exact I|].
  apply Nat.eqb_neq in E.
  destruct (of_nat_magnitude n E Hn) as (m & e & Hy & Hmag).
  rewrite div_spec, Hy.
  apply (SFdiv_below 53 1 _ false m e); [apply of_nat_below, Hk|exact Hmag|lia].
Qed.

Lemma mul_below a b x y :
  below a (Prim2SF x) -> below b (Prim2SF y) -> (-1074 <= a + b <= 971)%Z ->
  below (a + b + 1) (Prim2SF (x * y)).
Proof. intros. rewrite mul_spec. apply SFmul_below; assumption. Qed.

Lemma add_below a x y :
  below a (Prim2SF x) -> below a (Prim2SF y) -> (-1074 <= a + 1 <= 971)%Z ->
  below (a + 2) (Prim2SF (x + y)).
Proof. intros. rewrite add_spec. apply SFadd_below; assumption. Qed.

Lemma adjust_below a risk adjustment :
  below a (Prim2SF risk) ->
  (forall v, adjustment = Some v -> below a (Prim2SF v)) ->
  (-1074 <= a + 1 <= 971)%Z ->
  below (a + 2) (Prim2SF (Spec.adjust risk adjustment)).
Proof.
  intros Hr Ha Hk. destruct adjustment as [v|]; cbn [Spec.adjust].
  - apply add_below; auto.
  - apply (below_weaken a); [lia|assumption].
Qed.

Lemma rates_are_shares sessions :
  (Z.of_nat (List.length sessions) < 2 ^ 53)%Z ->
  let metrics := computeMetrics sessions in
  let total := List.length sessions in
  dropoutRate metrics = share (countOf isDropout sessions) total
  /\ noShowRate metrics = share (countOf noShow sessions) total
  /\ firstSessionDropoutRate metrics
     = share (countOf isFirstDropout sessions)
         (countOf isFirstSession sessions)
  /\ tutorInitiatedRescheduleRate metrics
     = share (countOf isTutorReschedule sessions)
         (countOf isReschedule sessions).
Proof.
  intros Hn metrics total. subst metrics total.
  destruct sessions as [|s rest]; [repeat split|].
  rewrite computeMetrics_nonempty. cbv zeta.
  cbn [dropoutRate noShowRate firstSessionDropoutRate
       tutorInitiatedRescheduleRate].
  set (sessions := s :: rest) in *.
  rewrite (counter_total dropouts isDropout sessions) by auto.
  rewrite (counter_total reschedules isReschedule sessions) by auto.
  rewrite (counter_total noShows noShow sessions) by auto.
  rewrite (counter_total firstSessionDropouts isFirstDropout sessions) by auto.
  rewrite (counter_total firstSessions isFirstSession sessions) by auto.
  rewrite (counter_total tutorInitiatedReschedules isTutorReschedule sessions)
    by auto.
  rewrite !share_of_counts by (assumption || apply countOf_bound, Hn).
  repeat split.
Qed.

Lemma risk_below sessions score trend :
  (Z.of_nat (List.length sessions) < 2 ^ 53)%Z ->
  below 67
    (Prim2SF (Spec.riskBeforeClamp (computeMetrics sessions) score trend)).
Proof.
  intros Hn.
  destruct (rates_are_shares sessions Hn) as (Hd & Hs & Hf & Ht).
  cbv zeta in *.
  assert (Hshare : forall k n, (n <= List.length sessions)%nat ->
            (k <= List.length sessions)%nat ->
            below 54 (Prim2SF (share k n))).
  { intros k n Hk' Hn'. apply share_below;
      generalize dependent (2 ^ 53)%Z; intros; lia. }
  assert (Hc : forall p, (countOf p sessions <= List.length sessions)%nat)
    by (intros p; apply countOf_le).
  unfold Spec.riskBeforeClamp, Spec.weightedRisk.
  rewrite Hd, Hs, Hf, Ht.
  assert (H4 : below 0 (Prim2SF 0.4)) by (vm_compute; discriminate).
  assert (H3 : below 0 (Prim2SF 0.3)) by (vm_compute; discriminate).
  assert (H2 : below 0 (Prim2SF 0.2)) by (vm_compute; discriminate).
  assert (H1 : below 0 (Prim2SF 0.1)) by (vm_compute; discriminate).
  replace 67%Z with (61 + 2 + 2 + 2)%Z by reflexivity.
  apply adjust_below; [apply adjust_below; [apply adjust_below|..]|..];
    try lia.
  - replace 61%Z with (59 + 2)%Z by reflexivity.
    apply add_below; [|apply (below_weaken 55); [lia|];
                        apply (mul_below 54 0); auto; lia|lia].
    replace 59%Z with (57 + 2)%Z by reflexivity.
    apply add_below; [|apply (below_weaken 55); [lia|];
                        apply (mul_below 54 0); auto; lia|lia].
    replace 57%Z with (55 + 2)%Z by reflexivity.
    apply add_below; [apply (mul_below 54 0); auto; lia
                     |apply (mul_below 54 0); auto; lia|lia].
  - intros v Hv. unfold Spec.lowFirstRatingBonus in Hv.
    destruct (firstSessionAvgRating _) as [r|]; [|discriminate].
    destruct (r <? 3.0); inversion Hv. vm_compute. discriminate.
  - intros v Hv. unfold Spec.scoreBandBonus in Hv.
    destruct (score <? 50); [inversion Hv; vm_compute; discriminate|].
    destruct (score <? 60); [inversion Hv; vm_compute; discriminate|].
    destruct (score <? 70); [inversion Hv; vm_compute; discriminate|].
    discriminate.
  - intros v Hv. unfold Spec.trendDeltaAdjustment in Hv.
    destruct trend as [|first rest]; [discriminate|].
    cbv zeta in Hv.
    destruct (_ <? -15); [inversion Hv; vm_compute; discriminate|].
    destruct (_ <? -8); [inversion Hv; vm_compute; discriminate|].
    destruct (5 <? _); [inversion Hv; vm_compute; discriminate|].
    discriminate.
Qed.

(** X24: for fewer than [2 ^ 53] sessions the risk of the metrics that
    [computeMetrics] reports is a finite number before it is clamped, so
    [computeChurnRisk] is the formula of the design with its clamp to
    [0, 1]. *)
Theorem churn_risk_of_sessions sessions score trend :
  (Z.of_nat (List.length sessions) < 2 ^ 53)%Z ->
  let metrics := computeMetrics sessions in
  Number_isFinite (Spec.riskBeforeClamp metrics score trend) = true
  /\ computeChurnRisk metrics score trend
     = Spec.churnRiskFormula metrics score trend.
Proof.
  intros Hn metrics. subst metrics.
  assert (Hf : Number_isFinite
                 (Spec.riskBeforeClamp (computeMetrics sessions) score trend)
               = true).
  { apply (below_finite 67), risk_below, Hn. }
  split; [exact Hf|].
  rewrite churnRisk_formula, clamp01_cases, Hf. reflexivity.
Qed.

Lemma churn_risk_of_sessions_witness :
  let metrics := computeMetrics sampleSessions in
  Number_isFinite (Spec.riskBeforeClamp metrics 40 [90; 70]) = true
  /\ computeChurnRisk metrics 40 [90; 70]
     = Spec.churnRiskFormula metrics 40 [90; 70].
Proof. exact (churn_risk_of_sessions sampleSessions 40 [90; 70] eq_refl). Defined.

(** *** Sums, quotients and squares that are not NaN *)

Lemma binary_normalize_not_nan m e :
  binary_normalize prec emax m e false <> S754_nan.
Proof.
  destruct m as [|p|p]; cbn [binary_normalize]; [discriminate| |];
    unfold binary_round; destruct (shl_align p e _) as [mz ez];
    apply binary_round_aux_not_nan; lia.
Qed.

Lemma add_number acc v :
  is_nan acc = false -> is_finite v = true -> is_nan (acc + v) = false.
Proof.
  rewrite !is_nan_SF, is_finite_SF, add_spec. unfold SF64add.
  destruct (Prim2SF acc) as [sa|sa| |sa ma ea], (Prim2SF v) as [sv|sv| |sv mv ev];
    try discriminate; intros _ _; try reflexivity.
  - destruct sa, sv; reflexivity.
  - unfold SFadd.
    pose proof (binary_normalize_not_nan
                  (cond_Zopp sa (Z.pos (fst (shl_align ma ea (Z.min ea ev))))
                   + cond_Zopp sv (Z.pos (fst (shl_align mv ev (Z.min ea ev)))))
                  (Z.min ea ev)) as H.
    destruct (binary_normalize _ _ _ _ _); congruence.
Qed.

Lemma sub_number v m :
  is_finite v = true -> is_nan m = false -> is_nan (v - m) = false.
Proof.
  rewrite !is_nan_SF, is_finite_SF, sub_spec. unfold SF64sub.
  destruct (Prim2SF v) as [sv|sv| |sv mv ev], (Prim2SF m) as [sm|sm| |sm mm em];
    try discriminate; intros _ _; try reflexivity.
  - destruct sv, sm; reflexivity.
  - unfold SFsub.
    pose proof (binary_normalize_not_nan
                  (cond_Zopp sv (Z.pos (fst (shl_align mv ev (Z.min ev em))))
                   - cond_Zopp sm (Z.pos (fst (shl_align mm em (Z.min ev em)))))
                  (Z.min ev em)) as H.
    destruct (binary_normalize _ _ _ _ _); congruence.
Qed.

Lemma SFdiv_core_nonneg m1 e1 m2 e2 :
  (0 <= fst (fst (SFdiv_core_binary prec emax (Z.pos m1) e1 (Z.pos m2) e2)))%Z.
Proof.
  unfold SFdiv_core_binary.
  set (s := (e1 - e2 - _)%Z).
  set (m' := match s with
             | 0%Z => Z.pos m1
             | Z.pos _ => Z.shiftl (Z.pos m1) s
             | Z.neg _ => 0%Z
             end).
  assert (Hm' : (0 <= m')%Z).
  { subst m'. destruct s as [|p|p]; try lia. apply Z.shiftl_nonneg. lia. }
  pose proof (Z_div_mod m' (Z.pos m2) ltac:(lia)) as Hdiv.
  change IntDef.Z.div_eucl with Z.div_eucl.
  destruct (Z.div_eucl m' (Z.pos m2)) as [q r]. cbn [fst].
  destruct Hdiv as [Hq Hr]. nia.
Qed.

Lemma SFdiv_finite_cases sx mx ex sy my ey :
  match SFdiv prec emax (S754_finite sx mx ex) (S754_finite sy my ey) with
  | S754_nan => False
  | S754_zero s | S754_infinity s | S754_finite s _ _ => s = xorb sx sy
  end.
Proof.
  unfold SFdiv.
  pose proof (SFdiv_core_nonneg mx ex my ey) as Hq.
  destruct (SFdiv_core_binary prec emax (Z.pos mx) ex (Z.pos my) ey) as [[q e] l].
  cbn [fst] in Hq.
  pose proof (binary_round_aux_not_nan (xorb sx sy) q e l Hq) as Hn.
  pose proof (binary_round_aux_sign (xorb sx sy) q e l) as Hs.
  destruct (binary_round_aux prec emax (xorb sx sy) q e l); cbn in Hs;
    congruence.
Qed.

Lemma div_number x y m e :
  is_nan x = false -> Prim2SF y = S754_finite false m e ->
  is_nan (x / y) = false.
Proof.
  rewrite !is_nan_SF, div_spec. intros Hx ->. unfold SF64div.
  destruct (Prim2SF x) as [sx|sx| |sx mx ex]; try discriminate; try reflexivity.
  pose proof (SFdiv_finite_cases sx mx ex false m e) as H.
  destruct (SFdiv prec emax _ _); [reflexivity..|contradiction|reflexivity].
Qed.

Lemma div_unsigned x y m e :
  unsigned (Prim2SF x) -> Prim2SF y = S754_finite false m e ->
  unsigned (Prim2SF (x / y)).
Proof.
  rewrite div_spec. intros Hx ->. unfold SF64div.
  destruct (Prim2SF x) as [sx|[]| |[] mx ex]; cbn [unsigned] in Hx;
    try contradiction; try exact I.
  pose proof (SFdiv_finite_cases false mx ex false m e) as H.
  destruct (SFdiv prec emax _ _) as [s|s| |s m' e']; cbn in H;
    try contradiction; subst; exact I.
Qed.

Lemma square_unsigned x :
  is_nan x = false -> unsigned (Prim2SF (x * x)).
Proof.
  rewrite is_nan_SF, mul_spec. unfold SF64mul, SFmul.
  destruct (Prim2SF x) as [s|s| |s m e]; try discriminate; intros _.
  - exact I.
  - destruct s; exact I.
  - rewrite xorb_nilpotent.
    pose proof (binary_round_aux_sign false (Z.pos (m * m)) (e + e) loc_Exact) as Hs.
    pose proof (binary_round_aux_not_nan false (Z.pos (m * m)) (e + e) loc_Exact
                  ltac:(lia)) as Hn.
    destruct (binary_round_aux prec emax false _ _ _) as [s'|s'| |s' m' e'];
      cbn in Hs; try congruence; subst; exact I.
Qed.

Lemma add_unsigned x y :
  unsigned (Prim2SF x) -> unsigned (Prim2SF y) -> unsigned (Prim2SF (x + y)).
Proof.
  rewrite add_spec. unfold SF64add.
  destruct (Prim2SF x) as [sx|[]| |[] mx ex], (Prim2SF y) as [sy|[]| |[] my ey];
    cbn [unsigned]; try contradiction; intros _ _; try exact I.
  - destruct sx, sy; exact I.
  - pose proof (SFadd_positives mx ex my ey) as Hs.
    assert (Hn : SFadd prec emax (S754_finite false mx ex) (S754_finite false my ey)
                 <> S754_nan).
    { unfold SFadd. apply binary_normalize_not_nan. }
    destruct (SFadd prec emax _ _) as [s|s| |s m e]; cbn in Hs;
      try congruence; subst; exact I.
Qed.

Lemma SFsub_below a x y :
  below a x -> below a y -> (-1074 <= a + 1 <= 971)%Z ->
  below (a + 2) (SFsub prec emax x y).
Proof.
  intros Hx Hy Hk.
  destruct x as [sx|sx| |sx mx ex], y as [sy|sy| |sy my ey];
    cbn [below] in *; try tauto.
  - destruct sx, sy; exact I.
  - cbn [SFsub below]. lia.
  - cbn [SFsub below]. lia.
  - unfold SFsub.
    replace (a + 2)%Z with (a + 1 + 1)%Z by lia.
    apply binary_normalize_below; [|assumption].
    set (ez := Z.min ex ey).
    pose proof (aligned_lt mx ex ez a ltac:(lia) Hx) as H1.
    pose proof (aligned_lt my ey ez a ltac:(lia) Hy) as H2.
    set (px := Z.pos (fst (shl_align mx ex ez))) in *.
    set (py := Z.pos (fst (shl_align my ey ez))) in *.
    assert (Hpx : (0 < px)%Z) by (subst px; lia).
    assert (Hpy : (0 < py)%Z) by (subst py; lia).
    exists (a - ez + 1)%Z.
    assert (Hd : (1 <= Z.pos (digits2_pos mx))%Z) by lia.
    split; [lia|]. split; [|lia].
    rewrite Z.pow_add_r by lia. change (2 ^ 1)%Z with 2%Z.
    destruct sx, sy; cbn [cond_Zopp]; lia.
Qed.

Lemma unsigned_not_nan x : unsigned (Prim2SF x) -> is_nan x = false.
Proof. rewrite is_nan_SF. destruct (Prim2SF x); cbn [unsigned]; tauto. Qed.

(** A number that is not negative and not above 1 is below [2 ^ 1]. *)
Lemma unsigned_not_above_one v :
  unsigned (Prim2SF v) -> (1 <? v) = false -> below 1 (Prim2SF v).
Proof.
  rewrite FloatAxioms.ltb_spec, Prim2SF_1.
  pose proof (Prim2SF_valid v) as Hv.
  destruct (Prim2SF v) as [s|[]| |[] m e]; cbn [unsigned below];
    try contradiction; intros _ H; try exact I; try discriminate.
  rewrite SFltb_pos_pos in H.
  destruct (canonical_digits m e Hv) as (_ & Hd & _).
  destruct (Z.compare_spec (-52) e); try discriminate; lia.
Qed.

Lemma min_one_below w :
  unsigned (Prim2SF w) -> below 1 (Prim2SF (Math_min 1 w)).
Proof.
  intros Hw. unfold Math_min. rewrite (unsigned_not_nan w Hw).
  change (is_nan 1) with false. cbn [orb].
  destruct (1 <? w) eqn:E; [vm_compute; discriminate|].
  change (is_neg_zero 1) with false.
  destruct (w <? 1); apply unsigned_not_above_one; assumption.
Qed.

(** *** The variance of finite values *)

Lemma sum_number (values : list number) :
  Forall (fun v => Number_isFinite v = true) values ->
  forall acc, is_nan acc = false ->
    is_nan (fold_left (fun sum v => sum + v) values acc) = false.
Proof.
  induction 1 as [|v values Hv _ IH]; intros acc Hacc; [exact Hacc|].
  cbn [fold_left]. apply IH, add_number; assumption.
Qed.

Lemma squares_unsigned (values : list number) mu :
  Forall (fun v => Number_isFinite v = true) values ->
  is_nan mu = false ->
  forall acc, unsigned (Prim2SF acc) ->
    unsigned
      (Prim2SF
         (fold_left (fun sum v => sum + (v - mu) * (v - mu)) values acc)).
Proof.
  intros Hvalues Hmu. induction Hvalues as [|v values Hv _ IH]; intros acc Hacc;
    [exact Hacc|].
  cbn [fold_left]. apply IH, add_unsigned; [assumption|].
  apply square_unsigned, sub_number; assumption.
Qed.

Lemma variance_unsigned (trend : list number) :
  (Z.of_nat (List.length trend) < 2 ^ 53)%Z ->
  Forall (fun v => Number_isFinite v = true) trend ->
  unsigned (Prim2SF (Spec.populationVariance trend)).
Proof.
  intros Hn Hvalues. unfold Spec.populationVariance.
  destruct trend as [|a rest] eqn:Et; [exact I|]. rewrite <- Et in *.
  assert (Hlen : List.length trend <> 0%nat) by (rewrite Et; discriminate).
  clear Et.
  destruct (of_nat_magnitude _ Hlen Hn) as (m & e & Hy & _).
  apply (div_unsigned _ _ m e); [|exact Hy].
  apply squares_unsigned; [assumption| |exact I].
  unfold Spec.mean. apply (div_number _ _ m e); [|exact Hy].
  apply sum_number; [assumption|reflexivity].
Qed.

Lemma steadiness_finite (trend : list number) :
  (Z.of_nat (List.length trend) < 2 ^ 53)%Z ->
  Forall (fun v => Number_isFinite v = true) trend ->
  Number_isFinite (1 - Math_min 1 (Spec.populationVariance trend / 80)) = true.
Proof.
  intros Hn Hvalues. apply (below_finite 3). rewrite sub_spec.
  apply (SFsub_below 1); [vm_compute; discriminate| |lia].
  apply min_one_below.
  apply (div_unsigned _ _ 5629499534213120 (-46));
    [apply variance_unsigned; assumption|reflexivity].
Qed.

(** X25: for a trend of fewer than [2 ^ 53] finite values the value
    [1 - min(1, variance / 80)] is a finite number, so the forecast
    confidence is that value clamped to [0.2, 0.95]. *)
Theorem confidence_of_finite_trend trend currentScore :
  (Z.of_nat (List.length trend) < 2 ^ 53)%Z ->
  Forall (fun v => Number_isFinite v = true) trend ->
  let steadiness := 1 - Math_min 1 (Spec.populationVariance trend / 80) in
  Number_isFinite steadiness = true
  /\ confidence (TrendForecaster.forecastTrend trend currentScore)
     = Spec.clampTo 0.2 0.95 steadiness.
Proof.
  intros Hn Hvalues steadiness. subst steadiness.
  pose proof (steadiness_finite trend Hn Hvalues) as Hf.
  split; [exact Hf|].
  unfold TrendForecaster.forecastTrend.
  destruct (TrendForecaster.computeLinearRegression trend) as [slope intercept].
  cbn [confidence]. rewrite computeVariance_population.
  apply clamp_finite; try reflexivity. exact Hf.
Qed.

Lemma confidence_of_finite_trend_witness :
  let steadiness := 1 - Math_min 1 (Spec.populationVariance [90; 70; 80] / 80) in
  Number_isFinite steadiness = true
  /\ confidence (TrendForecaster.forecastTrend [90; 70; 80] 80)
     = Spec.clampTo 0.2 0.95 steadiness.
Proof.
  apply (confidence_of_finite_trend [90; 70; 80] 80); [reflexivity|].
  repeat constructor.
Defined.

(** *** Sums of numbers of bounded magnitude *)

Lemma sum_below {A : Type} (f : A -> number) (l : list A) : forall a acc,
  below a (Prim2SF acc) ->
  Forall (fun v => below a (Prim2SF (f v))) l ->
  (-1074 <= a)%Z -> (a + 2 * Z.of_nat (List.length l) <= 971)%Z ->
  below (a + 2 * Z.of_nat (List.length l))
    (Prim2SF (fold_left (fun acc v => acc + f v) l acc)).
Proof.
  induction l as [|v l IH]; intros a acc Hacc Hl Ha Hk.
  - cbn [fold_left List.length]. apply (below_weaken a); [lia|assumption].
  - cbn [fold_left]. inversion Hl as [|? ? Hv Hrest]; subst.
    cbn [List.length] in *.
    replace (a + 2 * Z.of_nat (S (List.length l)))%Z
      with (a + 2 + 2 * Z.of_nat (List.length l))%Z by lia.
    apply IH; try lia.
    + apply add_below; [assumption|assumption|lia].
    + revert Hrest. apply Forall_impl. intros x. apply below_weaken. lia.
Qed.

Lemma div_count_below a x n :
  below a (Prim2SF x) -> (n <> 0)%nat -> (Z.of_nat n < 2 ^ 53)%Z ->
  (-1074 <= a <= 971)%Z ->
  below (a + 1) (Prim2SF (x / of_nat n)).
Proof.
  intros Hx Hn0 Hn Ha.
  destruct (of_nat_magnitude n Hn0 Hn) as (m & e & Hy & Hmag).
  rewrite div_spec, Hy. replace (a + 1)%Z with (a - 1 + 2)%Z by lia.
  apply SFdiv_below; [assumption|exact Hmag|lia].
Qed.

Lemma sub_below a x y :
  below a (Prim2SF x) -> below a (Prim2SF y) -> (-1074 <= a + 1 <= 971)%Z ->
  below (a + 2) (Prim2SF (x - y)).
Proof. intros. rewrite sub_spec. apply SFsub_below; assumption. Qed.

Lemma small_count n : (n <= 101)%nat -> (Z.of_nat n < 2 ^ 53)%Z.
Proof.
  intros Hn. assert (H53 : (101 < 2 ^ 53)%Z) by reflexivity.
  generalize dependent (2 ^ 53)%Z. intros. lia.
Qed.

Lemma score_value_below v : In v score_values -> below 53 (Prim2SF v).
Proof.
  unfold score_values. intros H. apply in_app_or in H. destruct H as [H|H].
  - apply in_map_iff in H. destruct H as (n & <- & Hn). apply in_seq in Hn.
    apply (of_nat_below n), small_count. lia.
  - destruct H as [<-|[]]. exact I.
Qed.

(** *** The trend statistics of a short trend of scores *)

Lemma variance_below (trend : list number) :
  Forall (fun v => In v score_values) trend ->
  (List.length trend <= 7)%nat ->
  below 156 (Prim2SF (computeTrendVariance trend)).
Proof.
  intros Hvalues Hlen. unfold computeTrendVariance.
  destruct trend as [|a rest] eqn:Et; [exact I|]. rewrite <- Et in *.
  assert (Hn0 : List.length trend <> 0%nat) by (rewrite Et; discriminate).
  clear Et. cbv zeta.
  assert (Hb : Forall (fun v => below 53 (Prim2SF v)) trend).
  { revert Hvalues. apply Forall_impl. apply score_value_below. }
  remember (Z.of_nat (List.length trend)) as L eqn:EL.
  assert (HL : (0 <= L <= 7)%Z) by lia.
  assert (Hmean : below (54 + 2 * L)
                    (Prim2SF (sum_by (fun value => value) trend
                              / of_nat (List.length trend)))).
  { replace (54 + 2 * L)%Z with (53 + 2 * L + 1)%Z by lia.
    apply div_count_below; [|assumption|apply small_count; lia|lia].
    replace (53 + 2 * L)%Z
      with (53 + 2 * Z.of_nat (List.length trend))%Z by lia.
    apply (sum_below (fun value : number => value));
      [exact I|assumption|lia|lia]. }
  set (mean := sum_by (fun value => value) trend / of_nat (List.length trend)) in *.
  apply (below_weaken (113 + 4 * L + 2 * L + 1)); [lia|].
  apply div_count_below; [|assumption|apply small_count; lia|lia].
  replace (113 + 4 * L + 2 * L)%Z
    with (113 + 4 * L + 2 * Z.of_nat (List.length trend))%Z by lia.
  apply (sum_below (fun value : number => square (value - mean)));
    [exact I| |lia|lia].
  revert Hb. apply Forall_impl. intros v Hv. unfold square.
  replace (113 + 4 * L)%Z with ((56 + 2 * L) + (56 + 2 * L) + 1)%Z by lia.
  assert (Hd : below (56 + 2 * L) (Prim2SF (v - mean))).
  { replace (56 + 2 * L)%Z with (54 + 2 * L + 2)%Z by lia.
    apply sub_below; [|assumption|lia].
    apply (below_weaken 53); [lia|assumption]. }
  apply mul_below; try assumption. lia.
Qed.

Lemma last_In_trend (trend : list number) d :
  trend <> [] -> In (last trend d) trend.
Proof.
  induction trend as [|a [|b rest] IH]; intros H; [congruence|now left|].
  right. apply IH. discriminate.
Qed.

Lemma velocity_below (trend : list number) :
  Forall (fun v => In v score_values) trend ->
  below 55 (Prim2SF (computeTrendVelocity trend)).
Proof.
  intros Hvalues. unfold computeTrendVelocity.
  destruct (List.length trend <? 2)%nat eqn:E; [exact I|].
  destruct trend as [|a rest]; [discriminate|].
  rewrite Forall_forall in Hvalues.
  apply (sub_below 53); [| |lia]; apply score_value_below, Hvalues.
  - apply last_In_trend. discriminate.
  - now left.
Qed.

Lemma slope_fold xMean yMean (l : list number) : forall start numerator denominator,
  fold_left (slopeStep xMean yMean) (combine (seq start (List.length l)) l)
    (numerator, denominator)
  = (fold_left
       (fun acc (iy : nat * number) =>
          acc + (of_nat (fst iy) - xMean) * (snd iy - yMean))
       (combine (seq start (List.length l)) l) numerator,
     fold_left (fun acc i => acc + square (of_nat i - xMean))
       (seq start (List.length l)) denominator).
Proof.
  induction l as [|y l IH]; intros start numerator denominator; [reflexivity|].
  cbn [List.length seq combine fold_left]. unfold slopeStep at 2.
  apply IH.
Qed.

Lemma computeTrendSlope_parts (trend : list number) :
  trend <> [] ->
  let n := of_nat (List.length trend) in
  let xMean := (n - 1) / 2 in
  let yMean := sum_by (fun value => value) trend / n in
  let numerator :=
    fold_left
      (fun acc (iy : nat * number) =>
         acc + (of_nat (fst iy) - xMean) * (snd iy - yMean))
      (indexed trend) 0 in
  computeTrendSlope trend
  = if slopeDenominator (List.length trend) =? 0 then 0
    else numerator / slopeDenominator (List.length trend).
Proof.
  intros Hne. destruct trend as [|a rest]; [congruence|].
  unfold computeTrendSlope. cbv beta iota zeta. unfold indexed.
  rewrite slope_fold. reflexivity.
Qed.

Lemma slopeDenominator_short :
  forallb
    (fun n => (slopeDenominator n =? 0) || atLeastHalf (slopeDenominator n))
    (seq 1 7) = true.
Proof. vm_compute. reflexivity. Qed.

Lemma slope_below (trend : list number) :
  Forall (fun v => In v score_values) trend ->
  (List.length trend <= 7)%nat ->
  below 150 (Prim2SF (computeTrendSlope trend)).
Proof.
  intros Hvalues Hlen.
  destruct trend as [|a rest] eqn:Et; [exact I|]. rewrite <- Et in *.
  assert (Hne : trend <> []) by (rewrite Et; discriminate).
  assert (Hn0 : List.length trend <> 0%nat) by (rewrite Et; discriminate).
  clear Et. rewrite (computeTrendSlope_parts trend Hne). cbv zeta.
  pose proof slopeDenominator_short as Hden. rewrite forallb_forall in Hden.
  specialize (Hden (List.length trend) ltac:(apply in_seq; lia)).
  destruct (slopeDenominator (List.length trend) =? 0) eqn:Ez; [exact I|].
  cbn [orb] in Hden. unfold atLeastHalf in Hden.
  destruct (Prim2SF (slopeDenominator (List.length trend)))
    as [s|s| |[] m e] eqn:Ed; try discriminate.
  apply Z.leb_le in Hden.
  assert (Hb : Forall (fun v : number => below 53 (Prim2SF v)) trend).
  { revert Hvalues. apply Forall_impl. apply score_value_below. }
  remember (Z.of_nat (List.length trend)) as L eqn:EL.
  assert (HL : (0 <= L <= 7)%Z) by lia.
  set (n := of_nat (List.length trend)).
  assert (Hcount : below 53 (Prim2SF n))
    by (apply of_nat_below, small_count; lia).
  assert (HxMean : below 55 (Prim2SF ((n - 1) / 2))).
  { rewrite div_spec.
    change (Prim2SF 2) with (S754_finite false 4503599627370496 (-51)).
    replace 55%Z with (55 - 2 + 2)%Z by lia.
    apply SFdiv_below; [|cbn; lia|lia].
    rewrite sub_spec. apply (SFsub_below 53); [assumption|exact I +
      (vm_compute; discriminate)|lia]. }
  assert (HyMean : below (54 + 2 * L)
                     (Prim2SF (sum_by (fun value => value) trend / n))).
  { replace (54 + 2 * L)%Z with (53 + 2 * L + 1)%Z by lia.
    apply div_count_below; [|assumption|apply small_count; lia|lia].
    replace (53 + 2 * L)%Z
      with (53 + 2 * Z.of_nat (List.length trend))%Z by lia.
    apply (sum_below (fun value : number => value));
      [exact I|assumption|lia|lia]. }
  set (xMean := (n - 1) / 2) in *.
  set (yMean := sum_by (fun value => value) trend / n) in *.
  rewrite div_spec, Ed.
  apply (below_weaken (114 + 4 * L - 0 + 2)); [lia|].
  apply SFdiv_below; [|exact Hden|lia].
  replace (114 + 4 * L)%Z
    with (114 + 2 * L + 2 * Z.of_nat (List.length (indexed trend)))%Z
    by (unfold indexed; rewrite length_combine, length_seq, Nat.min_id; lia).
  apply (sum_below
           (fun iy : nat * number =>
              (of_nat (fst iy) - xMean) * (snd iy - yMean)));
    [exact I| |lia|].
  - unfold indexed. rewrite Forall_forall. intros [i y] Hiy.
    pose proof (in_combine_l _ _ _ _ Hiy) as Hi.
    pose proof (in_combine_r _ _ _ _ Hiy) as Hy.
    apply in_seq in Hi. rewrite Forall_forall in Hb. specialize (Hb y Hy).
    cbn [fst snd].
    replace (114 + 2 * L)%Z with (57 + (56 + 2 * L) + 1)%Z by lia.
    apply mul_below; [| |lia].
    + apply (sub_below 55); [|assumption|lia].
      apply (below_weaken 53); [lia|].
      apply of_nat_below, small_count. lia.
    + replace (56 + 2 * L)%Z with (54 + 2 * L + 2)%Z by lia.
      apply sub_below; [|assumption|lia].
      apply (below_weaken 53); [lia|assumption].
  - unfold indexed. rewrite length_combine, length_seq, Nat.min_id. lia.
Qed.

(** *** The smoothed trend of scores *)

Lemma pair_average_value :
  forallb (fun s => mem (Math_round (s / of_nat 2)) score_values) pair_sums
  = true.
Proof. vm_compute. reflexivity. Qed.

Lemma triple_average_value :
  forallb (fun s => forallb (fun c =>
      mem (Math_round ((s + c) / of_nat 3)) score_values) score_values)
    pair_sums = true.
Proof. vm_compute. reflexivity. Qed.

Lemma window_average_value (window : list number) :
  Forall (fun v => In v score_values) window ->
  (List.length window = 2 \/ List.length window = 3)%nat ->
  In (Math_round (sum_by (fun val => val) window
                  / of_nat (List.length window))) score_values.
Proof.
  intros Hw Hlen.
  destruct window as [|a [|b [|c [|]]]]; simpl in Hlen; try lia.
  - inversion Hw as [|? ? Ha Hw1]; subst. inversion Hw1 as [|? ? Hb _]; subst.
    pose proof pair_sums_closed as H. rewrite forallb_forall in H.
    specialize (H a Ha). rewrite forallb_forall in H. specialize (H b Hb).
    apply mem_In in H.
    pose proof pair_average_value as H2. rewrite forallb_forall in H2.
    apply mem_In, (H2 _ H).
  - inversion Hw as [|? ? Ha Hw1]; subst. inversion Hw1 as [|? ? Hb Hw2]; subst.
    inversion Hw2 as [|? ? Hc _]; subst.
    pose proof pair_sums_closed as H. rewrite forallb_forall in H.
    specialize (H a Ha). rewrite forallb_forall in H. specialize (H b Hb).
    apply mem_In in H.
    pose proof triple_average_value as H3. rewrite forallb_forall in H3.
    specialize (H3 _ H). rewrite forallb_forall in H3.
    apply mem_In, (H3 c Hc).
Qed.

Lemma smoothTrend_values trend :
  Forall (fun v => In v score_values) trend ->
  Forall (fun v => In v score_values) (smoothTrend trend 3).
Proof.
  intros H. unfold smoothTrend.
  destruct trend as [|a [|b rest]] eqn:Et; [constructor|exact H|].
  rewrite <- Et in *. assert (Hlen : (2 <= List.length trend)%nat)
    by (rewrite Et; simpl; lia).
  clear Et. rewrite Forall_forall. intros v Hv.
  apply in_map_iff in Hv. destruct Hv as (i & <- & Hi).
  apply in_seq in Hi. unfold smoothAt.
  apply window_average_value.
  - apply slice_Forall, H.
  - unfold slice. rewrite length_firstn, length_skipn.
    change (3 / 2)%nat with 1%nat. lia.
Qed.

(** *** The feature vectors of the pipeline *)

Lemma features_finite tutor :
  Number_isFinite (computeTrendSlope (trend_7d tutor)) = true ->
  Number_isFinite (computeTrendVariance (trend_7d tutor)) = true ->
  Number_isFinite (computeTrendVelocity (trend_7d tutor)) = true ->
  finiteFeatures (buildFeatureVector tutor).
Proof.
  intros Hslope Hvariance Hvelocity.
  assert (E : forall key v,
             Dict.get (features (buildFeatureVector tutor)) key = Some v ->
             Number_isFinite v = true ->
             Number_isFinite
               (Dict.get (features (buildFeatureVector tutor)) key ?? 0) = true).
  { intros key v -> Hv. exact Hv. }
  unfold finiteFeatures, FEATURE_KEYS.
  repeat (apply Forall_cons;
          [eapply E; [reflexivity|first [apply safeNumber_finite|assumption]]|]).
  constructor.
Qed.

Lemma zero_model_probability (Math_exp : number -> number)
    (options : ChurnPredictor.TrainOptions) (vector : TutorFeatureVector) :
  (forall x, (x =? 0) = true -> Math_exp x = 1) ->
  finiteFeatures vector ->
  ChurnPredictor.probability
    (ChurnPredictor.predictChurn Math_exp vector
       (ChurnPredictor.trainChurnModel Math_exp emptyBatch options)) = 0.5.
Proof.
  intros Hexp Hfin. rewrite trained_emptyBatch.
  unfold ChurnPredictor.predictChurn.
  cbn [ChurnPredictor.probability weights bias featureKeys featureMeans
       featureStds].
  rewrite (linearSum_emptyBatch vector FEATURE_KEYS (incl_refl _) Hfin).
  unfold ChurnPredictor.sigmoid. rewrite Hexp by reflexivity. reflexivity.
Qed.

(** X26: the vectors of the pipeline have finite features.  For sessions
    and at most seven dates, a tutor whose trend is the one that
    [buildTrendForTutor] builds from them, seeded with the overall score,
    gets a feature vector whose features are all finite numbers, whatever
    the other fields of the tutor are; so the model of a batch without
    tutors predicts 0.5 for it. *)
Theorem pipeline_vector_finite (Math_exp : number -> number)
    (options : ChurnPredictor.TrainOptions) sessions dates version tutor :
  (forall x, (x =? 0) = true -> Math_exp x = 1) ->
  (List.length dates <= 7)%nat ->
  trend_7d tutor
  = buildTrendForTutor sessions dates
      (computeScore (computeMetrics sessions) version) version ->
  let vector := buildFeatureVector tutor in
  finiteFeatures vector
  /\ ChurnPredictor.probability
       (ChurnPredictor.predictChurn Math_exp vector
          (ChurnPredictor.trainChurnModel Math_exp emptyBatch options)) = 0.5.
Proof.
  intros Hexp Hlen Htrend vector. subst vector.
  assert (Hvalues : Forall (fun v => In v score_values) (trend_7d tutor)).
  { rewrite Htrend. unfold buildTrendForTutor. rewrite rawTrend_gapFilled.
    apply smoothTrend_values, gapFilled_values.
    destruct (computeScore_shape (computeMetrics sessions) version) as [raw ->].
    apply clamped_round_in_score_values. }
  assert (Hshort : (List.length (trend_7d tutor) <= 7)%nat).
  { rewrite Htrend. unfold buildTrendForTutor.
    rewrite smoothTrend_length, rawTrend_gapFilled, gapFilled_length.
    exact Hlen. }
  assert (Hfin : finiteFeatures (buildFeatureVector tutor)).
  { apply features_finite.
    - apply (below_finite 150), slope_below; assumption.
    - apply (below_finite 156), variance_below; assumption.
    - apply (below_finite 55), velocity_below; assumption. }
  split; [exact Hfin|].
  apply zero_model_probability; assumption.
Qed.

Lemma pipeline_vector_finite_witness :
  finiteFeatures (buildFeatureVector zeroSessionTutor)
  /\ ChurnPredictor.probability
       (ChurnPredictor.predictChurn exp_series
          (buildFeatureVector zeroSessionTutor)
          (ChurnPredictor.trainChurnModel exp_series emptyBatch
             ChurnPredictor.noOptions)) = 0.5.
Proof.
  apply (pipeline_vector_finite exp_series ChurnPredictor.noOptions []
           trendDates v2 zeroSessionTutor exp_series_zero).
  - cbn. lia.
  - reflexivity.
Defined.
